(** * data-cleaner-pro: the type detector and the cleaning pipeline of app.py

    A shallow embedding of [FieldTypeDetector.detect_type] and of the class
    [DataCleaner] ([clean_date], [clean_numeric], [clean_email],
    [clean_dataframe]) of src/app.py, of the two figures that [main] computes
    from a log (the issue counts and the clean rate), and the properties of
    the specification that are stated about them.

    Conventions of the embedding.
    - A Python [str] is the list of its code points ([pystr]).  [str.lower]
      is taken on the ASCII letters, [\d] on the ASCII digits; white space is
      the full table of [str.isspace].
    - A Python [float] is the rational it denotes ([Q]); rounding to binary64
      is not part of the model.  NaN and [None] are the one null cell.
    - What the interpreter, the clock and pandas decide is a [runtime] record:
      the two dates [clean_date] reads from [datetime.now()], the [str()] of a
      float, and the value [pd.to_numeric] reads from a string.
    - [self.cleaning_log] and the data frames live in a state that is passed
      explicitly; an exception is the [Raise] result.
    - In [clean_dataframe] the statements that follow [if f_type == 'number':]
      are written at the indentation of the [if]; they are read as its body,
      the only reading under which the [elif] branches attach to it. *)

From Stdlib Require Import String Ascii.
From Stdlib Require Import List NArith ZArith QArith Bool Lia Lqa Permutation.
Import ListNotations.

Set Implicit Arguments.

(* ================================================================== *)
(** * Python strings *)
(* ================================================================== *)

Module PyStr.

(** A string is the sequence of its Unicode code points. *)
Definition pystr := list N.

Open Scope N_scope.

(** UTF-8 decoding, used only to write string literals of the source. *)
Fixpoint utf8_decode (bs : list N) : pystr :=
  match bs with
  | [] => []
  | b :: r =>
    if b <? 128 then b :: utf8_decode r
    else if b <? 224 then
      match r with
      | c1 :: r1 => (N.land b 31 * 64 + N.land c1 63) :: utf8_decode r1
      | _ => [b]
      end
    else if b <? 240 then
      match r with
      | c1 :: c2 :: r2 =>
        (N.land b 15 * 4096 + N.land c1 63 * 64 + N.land c2 63) :: utf8_decode r2
      | _ => [b]
      end
    else
      match r with
      | c1 :: c2 :: c3 :: r3 =>
        (N.land b 7 * 262144 + N.land c1 63 * 4096 + N.land c2 63 * 64 + N.land c3 63)
          :: utf8_decode r3
      | _ => [b]
      end
  end.

Fixpoint bytes_of (s : string) : list N :=
  match s with
  | EmptyString => []
  | String a r => N_of_ascii a :: bytes_of r
  end.

(** [u "..."] is the Python string written between the quotes. *)
Definition u (s : string) : pystr := utf8_decode (bytes_of s).

(** [a == b] on strings. *)
Fixpoint str_eqb (a b : pystr) : bool :=
  match a, b with
  | [], [] => true
  | x :: a', y :: b' => (x =? y) && str_eqb a' b'
  | _, _ => false
  end.

(** [str.isspace] of one code point (also the class [\s] of [re]). *)
Definition is_space (c : N) : bool :=
  ((9 <=? c) && (c <=? 13)) || ((28 <=? c) && (c <=? 32))
  || (c =? 133) || (c =? 160) || (c =? 5760)
  || ((8192 <=? c) && (c <=? 8202))
  || (c =? 8232) || (c =? 8233) || (c =? 8239) || (c =? 8287) || (c =? 12288).

Definition is_digit (c : N) : bool := (48 <=? c) && (c <=? 57).
Definition is_upper (c : N) : bool := (65 <=? c) && (c <=? 90).
Definition is_lower (c : N) : bool := (97 <=? c) && (c <=? 122).
Definition is_alpha (c : N) : bool := is_upper c || is_lower c.

Definition lower_cp (c : N) : N := if is_upper c then c + 32 else c.

(** [s.lower()] *)
Definition lower (s : pystr) : pystr := map lower_cp s.

Fixpoint lstrip (s : pystr) : pystr :=
  match s with
  | c :: r => if is_space c then lstrip r else s
  | [] => []
  end.

Definition rstrip (s : pystr) : pystr := rev (lstrip (rev s)).

(** [s.strip()] *)
Definition strip (s : pystr) : pystr := rstrip (lstrip s).

(** [s.replace(old, new)] for one-character [old] and [new]. *)
Definition replace_char (old new : N) (s : pystr) : pystr :=
  map (fun c => if c =? old then new else c) s.

(** [s.replace(old, '')] for a one-character [old]. *)
Definition remove_char (old : N) (s : pystr) : pystr :=
  filter (fun c => negb (c =? old)) s.

Fixpoint is_prefix (p s : pystr) : bool :=
  match p, s with
  | [], _ => true
  | x :: p', y :: s' => (x =? y) && is_prefix p' s'
  | _ :: _, [] => false
  end.

(** [p in s] *)
Fixpoint contains (p s : pystr) : bool :=
  is_prefix p s ||
  match s with
  | [] => false
  | _ :: r => contains p r
  end.

(** [s.zfill(width)] for a string without a sign. *)
Definition zfill (width : nat) (s : pystr) : pystr :=
  repeat 48 (width - length s) ++ s.

(** The value of a run of decimal digits, most significant first. *)
Fixpoint digits_value_acc (acc : N) (s : pystr) : N :=
  match s with
  | [] => acc
  | c :: r => digits_value_acc (10 * acc + (c - 48)) r
  end.

(** [int(s)] for a string of digits. *)
Definition int_of_digits (s : pystr) : N := digits_value_acc 0 s.

Fixpoint uint_digits (d : Decimal.uint) : pystr :=
  match d with
  | Decimal.Nil => []
  | Decimal.D0 r => 48 :: uint_digits r
  | Decimal.D1 r => 49 :: uint_digits r
  | Decimal.D2 r => 50 :: uint_digits r
  | Decimal.D3 r => 51 :: uint_digits r
  | Decimal.D4 r => 52 :: uint_digits r
  | Decimal.D5 r => 53 :: uint_digits r
  | Decimal.D6 r => 54 :: uint_digits r
  | Decimal.D7 r => 55 :: uint_digits r
  | Decimal.D8 r => 56 :: uint_digits r
  | Decimal.D9 r => 57 :: uint_digits r
  end.

(** [str(z)] for an [int]. *)
Definition str_of_int (z : Z) : pystr :=
  match z with
  | Z0 => [48]
  | Zpos p => uint_digits (Pos.to_uint p)
  | Zneg p => 45 :: uint_digits (Pos.to_uint p)
  end.

End PyStr.
Import PyStr.

(* ================================================================== *)
(** * The fragment of [re] the source uses *)
(* ================================================================== *)

Module Re.

(** Every pattern of the source is a sequence of character classes, each
    with greedy repetition bounds, optionally closed by [$].  The leading
    [^] of the anchored patterns is what [re.match] does anyway. *)
Record item := Item { cls : N -> bool; lo : nat; hi : option nat }.

Record regex := Regex { items : list item; dollar : bool }.

Definition one (c : N -> bool) : item := Item c 1 (Some 1%nat).
Definition opt (c : N -> bool) : item := Item c 0 (Some 1%nat).
Definition star (c : N -> bool) : item := Item c 0 None.
Definition plus (c : N -> bool) : item := Item c 1 None.
Definition times (c : N -> bool) (a b : nat) : item := Item c a (Some b).

Fixpoint run_length (c : N -> bool) (s : pystr) : nat :=
  match s with
  | x :: r => if c x then S (run_length c r) else O
  | [] => O
  end.

Definition cap (h : option nat) (n : nat) : nat :=
  match h with
  | Some m => Nat.min m n
  | None => n
  end.

(** Greedy repetition: the longest count first, then one less, down to [lo]. *)
Fixpoint backtrack (A : Type) (lo n : nat) (try : nat -> option A) : option A :=
  match n with
  | O => if (lo =? 0)%nat then try O else None
  | S n' =>
    if (n <? lo)%nat then None
    else match try n with
         | Some r => Some r
         | None => backtrack lo n' try
         end
  end.

(** [$] holds at the end of the string and before a newline that ends it. *)
Definition end_ok (dollar : bool) (s : pystr) : bool :=
  negb dollar ||
  match s with
  | [] => true
  | [c] => (c =? 10)%N
  | _ => false
  end.

(** The text each item consumed, for the first way to match in [re]'s
    backtracking order. *)
Fixpoint match_items (its : list item) (dollar : bool) (s : pystr)
  : option (list pystr) :=
  match its with
  | [] => if end_ok dollar s then Some [] else None
  | it :: its' =>
    backtrack (lo it) (cap (hi it) (run_length (cls it) s))
      (fun n => match match_items its' dollar (skipn n s) with
                | Some segs => Some (firstn n s :: segs)
                | None => None
                end)
  end.

(** [re.match(r, s)] *)
Definition re_match (r : regex) (s : pystr) : option (list pystr) :=
  match_items (items r) (dollar r) s.

(** [re.search(r, s)]: the leftmost position where [r] matches. *)
Fixpoint re_search (r : regex) (s : pystr) : option (list pystr) :=
  match re_match r s with
  | Some segs => Some segs
  | None =>
    match s with
    | [] => None
    | _ :: t => re_search r t
    end
  end.

(** [m.group()] *)
Definition group0 (segs : list pystr) : pystr := concat segs.

Definition chr (a : string) (c : N) : bool := existsb (N.eqb c) (u a).

Definition digit : N -> bool := is_digit.
Definition sep : N -> bool := chr "-/".
Definition dot : N -> bool := chr ".".

End Re.
Import Re.

(* ================================================================== *)
(** * Cells, log entries and the state of a cleaner *)
(* ================================================================== *)

Inductive pynum := PyInt (z : Z) | PyFloat (q : Q).

(** A cell of a data frame.  [CNull] is [None] and NaN. *)
Inductive cell := CNull | CNum (n : pynum) | CStr (s : pystr).

(** What is outside the program: the clock and two library functions. *)
Record runtime := Runtime {
  today_iso : pystr;      (* datetime.now().strftime('%Y-%m-%d') *)
  yesterday_iso : pystr;  (* (datetime.now() - timedelta(days=1)).strftime(...) *)
  float_repr : Q -> pystr;                  (* str(x) for a float x *)
  to_numeric_str : pystr -> option pynum   (* pd.to_numeric of a string; None is NaN *)
}.

Definition pd_isna (v : cell) : bool :=
  match v with
  | CNull => true
  | _ => false
  end.

(** [str(value)] *)
Definition py_str (rt : runtime) (v : cell) : pystr :=
  match v with
  | CNull => u "nan"
  | CNum (PyInt z) => str_of_int z
  | CNum (PyFloat q) => float_repr rt q
  | CStr s => s
  end.

Inductive FieldType := text | number | date | email | boolean.

Inductive IssueKind :=
| ambiguous_date | invalid_format | not_numeric
| placeholder_value | out_of_range | invalid_email.

Record log_entry := LogEntry {
  row : Z;
  column : pystr;
  raw : cell;
  cleaned : cell;
  issue : IssueKind;
  rule : option pystr;
  hint : option pystr
}.

Inductive exn := AttributeError (attr : pystr) | KeyError (key : pystr).

Inductive result (A : Type) := Ok (a : A) | Raise (e : exn).
Arguments Raise {A} e.

(** Computations over a state [S] that may raise. *)
Definition ST (S A : Type) : Type := S -> result (A * S).

Definition ret {S A : Type} (a : A) : ST S A := fun s => Ok (a, s).

Definition bind {S A B : Type} (m : ST S A) (k : A -> ST S B) : ST S B :=
  fun s => match m s with
           | Ok (a, s') => k a s'
           | Raise e => Raise e
           end.

Definition raise {S A : Type} (e : exn) : ST S A := fun _ => Raise e.

Notation "x <- m ;; k" := (bind m (fun x => k))
  (at level 61, m at next level, right associativity).
Notation "m ;;; k" := (bind m (fun _ => k))
  (at level 61, right associativity).

Fixpoint mapM {S A B : Type} (f : A -> ST S B) (l : list A) : ST S (list B) :=
  match l with
  | [] => ret []
  | a :: r => b <- f a ;; bs <- mapM f r ;; ret (b :: bs)
  end.

Fixpoint for_each {S A : Type} (f : A -> ST S unit) (l : list A) : ST S unit :=
  match l with
  | [] => ret tt
  | a :: r => f a ;;; for_each f r
  end.

(** [enumerate(l)] counted from [i]. *)
Fixpoint enumerate_from {A : Type} (i : Z) (l : list A) : list (Z * A) :=
  match l with
  | [] => []
  | a :: r => (i, a) :: enumerate_from (i + 1) r
  end.

Definition enumerate {A : Type} (l : list A) : list (Z * A) := enumerate_from 0 l.

(* ================================================================== *)
(** * class DataCleaner *)
(* ================================================================== *)

Module DataCleaner.

Record range_rule := RangeRule { rmin : option Z; rmax : option Z }.

(** [self.rules], in the order the dict literal lists its keys. *)
Definition rules : list (pystr * range_rule) :=
  [ (u "age", RangeRule (Some 0%Z) (Some 120%Z));
    (u "salary", RangeRule (Some 0%Z) (Some 10000000%Z));
    (u "price", RangeRule (Some 0%Z) (Some 1000000%Z));
    (u "quantity", RangeRule (Some 0%Z) (Some 100000%Z)) ].

(** The state of a cleaner is [self.cleaning_log]. *)
Definition Cl (A : Type) : Type := ST (list log_entry) A.

(** [self.cleaning_log.append(e)] *)
Definition append_log (e : log_entry) : Cl unit :=
  fun lg => Ok (tt, lg ++ [e]).

(** [self.add_log(...)]: the class defines no attribute [add_log] (nor does
    anything else in the file), so looking it up raises [AttributeError]
    before any argument is evaluated. *)
Definition add_log (row_idx : Z) (col_name raw_str : pystr) (cleaned_val : cell)
    (kind : IssueKind) (hint_text : pystr) : Cl unit :=
  raise (AttributeError (u "add_log")).

(** The f-string [f"{y}-{m.zfill(2)}-{d.zfill(2)}"]. *)
Definition iso_date (y m d : pystr) : pystr :=
  y ++ u "-" ++ zfill 2 m ++ u "-" ++ zfill 2 d.

(** [^(\d{4})[-/](\d{1,2})[-/](\d{1,2})$] *)
Definition re_ymd : regex :=
  Regex [times digit 4 4; one sep; times digit 1 2; one sep; times digit 1 2] true.

(** [^(\d{1,2})[-/](\d{1,2})[-/](\d{4})$] *)
Definition re_dmy : regex :=
  Regex [times digit 1 2; one sep; times digit 1 2; one sep; times digit 4 4] true.

(** [^(\d{4})\.(\d{1,2})\.(\d{1,2})$] *)
Definition re_dot : regex :=
  Regex [times digit 4 4; one dot; times digit 1 2; one dot; times digit 1 2] true.

(** The three groups of a match of one of the date patterns. *)
Definition groups3 (m : option (list pystr)) : option (pystr * pystr * pystr) :=
  match m with
  | Some [a; _; b; _; c] => Some (a, b, c)
  | _ => None
  end.

(** The hint of an ambiguous date. *)
Definition ambiguous_hint (p1 p2 : pystr) : pystr :=
  u "可能是" ++ p1 ++ u "月" ++ p2 ++ u "日 或 " ++ p2 ++ u "月" ++ p1 ++ u "日".

Definition date_formats_hint : pystr :=
  u "支持格式: YYYY-MM-DD, DD/MM/YYYY, YYYY.MM.DD, yesterday".

Definition clean_date (rt : runtime) (value : cell) (row_idx : Z) (col_name : pystr)
  : Cl cell :=
  if pd_isna value then ret value else
  let str_val := lower (strip (py_str rt value)) in
  if str_eqb str_val (u "yesterday") then ret (CStr (yesterday_iso rt)) else
  if str_eqb str_val (u "today") then ret (CStr (today_iso rt)) else
  match groups3 (re_match re_ymd str_val) with
  | Some (y, m, d) => ret (CStr (iso_date y m d))
  | None =>
  match groups3 (re_match re_dmy str_val) with
  | Some (p1, p2, year) =>
    if (int_of_digits p1 <=? 12)%N && (int_of_digits p2 <=? 12)%N then
      append_log {| row := row_idx + 1; column := col_name; raw := value;
                    cleaned := CStr (iso_date year p1 p2);
                    issue := ambiguous_date; rule := None;
                    hint := Some (ambiguous_hint p1 p2) |} ;;;
      ret (CStr (iso_date year p1 p2))
    else
      let month := if (int_of_digits p1 <=? 12)%N then p1 else p2 in
      let day := if (int_of_digits p1 <=? 12)%N then p2 else p1 in
      ret (CStr (iso_date year month day))
  | None =>
  match groups3 (re_match re_dot str_val) with
  | Some (y, m, d) => ret (CStr (iso_date y m d))
  | None =>
    append_log {| row := row_idx + 1; column := col_name; raw := value;
                  cleaned := CNull; issue := invalid_format;
                  rule := Some (u "valid_date_format");
                  hint := Some date_formats_hint |} ;;;
    ret value
  end end end.

Definition null_keywords : list pystr :=
  map u ["unknown"; "not a number"; "not_a_number"; "nan"; "n/a"; "?"; "none";
         "null"; "-"; "undefined"]%string.

(** [[-+]?\d*\.?\d+] *)
Definition re_number : regex :=
  Regex [opt (chr "-+"); star digit; opt dot; plus digit] false.

Fixpoint span (c : N -> bool) (s : pystr) : pystr * pystr :=
  match s with
  | x :: r => if c x then let (a, b) := span c r in (x :: a, b) else ([], s)
  | [] => ([], [])
  end.

(** [float(s)] on the decimal literals the pattern [re_number] can produce:
    an optional sign, digits, and an optional point followed by digits.
    [None] is [ValueError]. *)
Definition float_of_str (s : pystr) : option Q :=
  let (neg, body) :=
    match s with
    | 45%N :: r => (true, r)
    | 43%N :: r => (false, r)
    | _ => (false, s)
    end in
  let (ip, rest) := span is_digit body in
  let (fp, ok) :=
    match rest with
    | [] => ([], true)
    | 46%N :: f => (f, forallb is_digit f)
    | _ => ([], false)
    end in
  if ok && negb (length ip + length fp =? 0)%nat then
    let m := Z.of_N (int_of_digits (ip ++ fp)) in
    Some (Qmake (if neg then (- m)%Z else m) (Z.to_pos (10 ^ Z.of_nat (length fp))))
  else None.

Definition Qlt_bool (a b : Q) : bool := negb (Qle_bool b a).

(** The loop over [self.rules.items()]; [true] when a bound was violated
    (the method has then returned [None]). *)
Fixpoint range_check (rs : list (pystr * range_rule)) (num : Q) (row_idx : Z)
    (col_name raw_str col_lower : pystr) : Cl bool :=
  match rs with
  | [] => ret false
  | (rule_key, rule_val) :: rs' =>
    if contains rule_key col_lower then
      if match rmin rule_val with
         | Some lo => Qlt_bool num (inject_Z lo)
         | None => false
         end
      then add_log row_idx col_name raw_str CNull out_of_range (u "数值低于最小值") ;;;
           ret true
      else if match rmax rule_val with
              | Some hi => Qlt_bool (inject_Z hi) num
              | None => false
              end
      then add_log row_idx col_name raw_str CNull out_of_range (u "数值超出最大值") ;;;
           ret true
      else range_check rs' num row_idx col_name raw_str col_lower
    else range_check rs' num row_idx col_name raw_str col_lower
  end.

(** [str_val.replace('$', '').replace('￥', '').replace(',', '')] *)
Definition strip_currency (str_val : pystr) : pystr :=
  remove_char 44 (remove_char 65509 (remove_char 36 str_val)).

(** The token found by [re.search] and its [float], or [None] for the
    [ValueError] the [try] block catches. *)
Definition parse_number (temp_val : pystr) : option Q :=
  match re_search re_number temp_val with
  | None => None
  | Some segs => float_of_str (group0 segs)
  end.

Definition clean_numeric (rt : runtime) (value : cell) (row_idx : Z) (col_name : pystr)
  : Cl cell :=
  if pd_isna value || str_eqb (strip (py_str rt value)) [] then ret CNull else
  let raw_str := strip (py_str rt value) in
  let str_val := lower raw_str in
  if existsb (str_eqb str_val) null_keywords then
    add_log row_idx col_name raw_str CNull placeholder_value
            (u "识别为无效占位符: " ++ raw_str) ;;;
    ret CNull
  else
  let temp_val := strip_currency str_val in
  match parse_number temp_val with
  | None =>
    add_log row_idx col_name raw_str CNull not_numeric (u "无法解析为数值") ;;;
    ret CNull
  | Some num =>
    let col_lower := lower col_name in
    violated <- range_check rules num row_idx col_name raw_str col_lower ;;
    if violated then ret CNull else ret (CNum (PyFloat num))
  end.

(** [^[^\s@]+@[^\s@]+\.[^\s@]+$] *)
Definition re_email : regex :=
  let word := fun c => negb (is_space c || (c =? 64)%N) in
  Regex [plus word; one (chr "@"); plus word; one dot; plus word] true.

(** [email.replace('#', '@').replace('＠', '@')] *)
Definition repair_email (s : pystr) : pystr :=
  replace_char 65312 64 (replace_char 35 64 s).

Definition clean_email (rt : runtime) (value : cell) (row_idx : Z) (col_name : pystr)
  : Cl cell :=
  if pd_isna value then ret value else
  let addr := repair_email (lower (strip (py_str rt value))) in
  match re_match re_email addr with
  | None =>
    append_log {| row := row_idx + 1; column := col_name; raw := value;
                  cleaned := CStr addr; issue := invalid_email;
                  rule := Some (u "valid_email_format");
                  hint := Some (u "缺少@或域名后缀不完整") |} ;;;
    ret (CStr addr)
  | Some _ => ret (CStr addr)
  end.

End DataCleaner.
Import DataCleaner.

(* ================================================================== *)
(** * Data frames *)
(* ================================================================== *)

Module Frame.

Definition series := list cell.

(** A data frame: its columns in order, each a label and its cells.  The
    labels of a frame are strings and distinct, as [read_csv] delivers them. *)
Definition table := list (pystr * series).

(** [df.columns] *)
Definition columns (t : table) : list pystr := map fst t.

(** [df[col]] *)
Fixpoint get_column (t : table) (col : pystr) : option series :=
  match t with
  | [] => None
  | (name, cells) :: r => if str_eqb name col then Some cells else get_column r col
  end.

(** [df[col] = cells]: the column [col] is replaced in place; a label the
    frame does not have is added as its last column. *)
Fixpoint set_column (t : table) (col : pystr) (cells : series) : table :=
  match t with
  | [] => [(col, cells)]
  | (name, old) :: r =>
    if str_eqb name col then (name, cells) :: r
    else (name, old) :: set_column r col cells
  end.

(** The labels of a frame with the length of each column. *)
Definition shape (t : table) : list (pystr * nat) :=
  map (fun c => (fst c, length (snd c))) t.

(** [pd.to_numeric(s, errors='coerce')]: a string becomes the number pandas
    reads from it, or NaN; the column is of integers only when every cell
    is one, otherwise of floats. *)
Definition coerce_cell (rt : runtime) (c : cell) : cell :=
  match c with
  | CStr s =>
    match to_numeric_str rt s with
    | Some n => CNum n
    | None => CNull
    end
  | _ => c
  end.

Definition is_int_cell (c : cell) : bool :=
  match c with
  | CNum (PyInt _) => true
  | _ => false
  end.

Definition to_float_cell (c : cell) : cell :=
  match c with
  | CNum (PyInt z) => CNum (PyFloat (inject_Z z))
  | _ => c
  end.

Definition pd_to_numeric (rt : runtime) (s : series) : series :=
  let r := map (coerce_cell rt) s in
  if forallb is_int_cell r then r else map to_float_cell r.

End Frame.
Import Frame.

(* ================================================================== *)
(** * DataCleaner.clean_dataframe *)
(* ================================================================== *)

Module Pipeline.

(** The objects of a run: the data frames, each at the address that is its
    index in [frames], and the log of the cleaner. *)
Record world := World { frames : list table; cleaning_log : list log_entry }.

Definition W (A : Type) : Type := ST world A.

(** A method of the cleaner run in the world: it sees the log only. *)
Definition on_log {A : Type} (m : Cl A) : W A :=
  fun w => match m (cleaning_log w) with
           | Ok (a, lg) => Ok (a, World (frames w) lg)
           | Raise e => Raise e
           end.

(** [self.cleaning_log = []] *)
Definition reset_log : W unit :=
  fun w => Ok (tt, World (frames w) []).

(** [self.cleaning_log] *)
Definition read_log : W (list log_entry) :=
  fun w => Ok (cleaning_log w, w).

Definition deref (a : nat) : W table :=
  fun w => match nth_error (frames w) a with
           | Some t => Ok (t, w)
           | None => Raise (KeyError (u "frame"))
           end.

(** [df.copy()]: a new frame with the cells of [df]. *)
Definition copy (a : nat) : W nat :=
  t <- deref a ;;
  fun w => Ok (length (frames w), World (frames w ++ [t]) (cleaning_log w)).

Fixpoint update_nth {A : Type} (l : list A) (i : nat) (x : A) : list A :=
  match l, i with
  | [], _ => []
  | _ :: r, O => x :: r
  | y :: r, S j => y :: update_nth r j x
  end.

(** [df[col]] for the frame at [a] *)
Definition getcol (a : nat) (col : pystr) : W series :=
  t <- deref a ;;
  match get_column t col with
  | Some cells => ret cells
  | None => raise (KeyError col)
  end.

(** [df[col] = cells] for the frame at [a] *)
Definition setcol (a : nat) (col : pystr) (cells : series) : W unit :=
  t <- deref a ;;
  fun w => Ok (tt, World (update_nth (frames w) a (set_column t col cells))
                         (cleaning_log w)).

(** [field_types], a dict from column label to type tag. *)
Definition field_map := list (pystr * FieldType).

Fixpoint dict_get (m : field_map) (col : pystr) : option FieldType :=
  match m with
  | [] => None
  | (k, v) :: r => if str_eqb k col then Some v else dict_get r col
  end.

(** The body of [for col in df.columns]. *)
Definition clean_column (rt : runtime) (df df_cleaned : nat) (field_types : field_map)
    (col : pystr) : W unit :=
  match dict_get field_types col with
  | None => ret tt
  | Some number =>
    cells <- getcol df col ;;
    cleaned_list <- on_log (mapM (fun iv => clean_numeric rt (snd iv) (fst iv) col)
                                 (enumerate cells)) ;;
    setcol df_cleaned col (pd_to_numeric rt cleaned_list)
  | Some email =>
    cells <- getcol df col ;;
    out <- on_log (mapM (fun x => clean_email rt x 0 col) cells) ;;
    setcol df_cleaned col out
  | Some date =>
    cells <- getcol df col ;;
    out <- on_log (mapM (fun x => clean_date rt x 0 col) cells) ;;
    setcol df_cleaned col out
  | Some _ => ret tt
  end.

(** The body of [for col in df_cleaned.columns]. *)
Definition salary_pass (rt : runtime) (df_cleaned : nat) (col : pystr) : W unit :=
  if contains (u "salary") (lower col) then
    cells <- getcol df_cleaned col ;;
    setcol df_cleaned col (pd_to_numeric rt cells)
  else ret tt.

(** [clean_dataframe(self, df, field_types)], [df] the address of the
    caller's frame; the result is [(df_cleaned, df_original, self.cleaning_log)]. *)
Definition clean_dataframe (rt : runtime) (df : nat) (field_types : field_map)
  : W (nat * nat * list log_entry) :=
  reset_log ;;;
  df_cleaned <- copy df ;;
  df_original <- copy df ;;
  t <- deref df ;;
  for_each (clean_column rt df df_cleaned field_types) (columns t) ;;;
  tc <- deref df_cleaned ;;
  for_each (salary_pass rt df_cleaned) (columns tc) ;;;
  lg <- read_log ;;
  ret (df_cleaned, df_original, lg).

(** The world a caller holding the one frame [t] starts from. *)
Definition start (t : table) : world := World [t] [].

(** The frame at address [a]. *)
Definition frame_at (w : world) (a : nat) : option table := nth_error (frames w) a.

End Pipeline.
Import Pipeline.

(* ================================================================== *)
(** * FieldTypeDetector.detect_type *)
(* ================================================================== *)

Module FieldTypeDetector.

Definition date_patterns : list regex := [re_ymd; re_dmy; re_dot].

(** [[a-zA-Z0-9._%+-]+[@#][a-zA-Z0-9.-]+\.[a-zA-Z]{2,}] *)
Definition email_like_pattern : regex :=
  let local := fun c => is_alpha c || is_digit c || chr "._%+-" c in
  let domain := fun c => is_alpha c || is_digit c || chr ".-" c in
  Regex [plus local; one (chr "@#"); plus domain; one dot; Item is_alpha 2 None] false.

Definition bool_values : list pystr :=
  map u ["true"; "false"; "yes"; "no"; "1"; "0"; "y"; "n"; "T"; "F"]%string.

Definition count {A : Type} (p : A -> bool) (l : list A) : nat := length (filter p l).

Definition matched (r : regex) (s : pystr) : bool :=
  match re_match r s with
  | Some _ => true
  | None => false
  end.

(** [pd.to_numeric(v, errors='coerce')] is not NaN. *)
Definition is_numeric (rt : runtime) (c : cell) : bool :=
  negb (pd_isna (coerce_cell rt c)).

(** [.str.match(pattern)] on one cell: NaN, hence not counted, unless the
    cell is a string. *)
Definition str_matched (r : regex) (c : cell) : bool :=
  match c with
  | CStr s => matched r s
  | _ => false
  end.

(** [a / n > p / 10] for counts [a], [n] with [n > 0]; the quotient is
    compared exactly, not after rounding to a float. *)
Definition above (a n p : nat) : bool := (p * n <? 10 * a)%nat.

(** [detect_type(series)], [series.name] and the cells of the series. *)
Definition detect_type (rt : runtime) (name : pystr) (values : series) : FieldType :=
  let non_null := filter (fun c => negb (pd_isna c)) values in
  if (length non_null =? 0)%nat then text else
  let numeric_count := count (is_numeric rt) non_null in
  if above numeric_count (length non_null) 8 then number else
  let date_count :=
    fold_right Nat.add 0%nat
      (map (fun pattern => count (fun c => matched pattern (py_str rt c)) non_null)
           date_patterns) in
  if above date_count (length non_null) 7 then date else
  if contains (u "email") (lower name) || contains (u "mail") (lower name) then email else
  let email_hits := count (str_matched email_like_pattern) non_null in
  if above email_hits (length non_null) 6 then email else
  let bool_count :=
    count (fun c => existsb (str_eqb (lower (py_str rt c))) bool_values) non_null in
  if above bool_count (length non_null) 8 then boolean else
  text.

End FieldTypeDetector.
Import FieldTypeDetector.

(* ================================================================== *)
(** * main: the figures computed from a log *)
(* ================================================================== *)

Module Main.

(** [a == b] on the issue of an entry. *)
Definition issue_eqb (a b : IssueKind) : bool :=
  match a, b with
  | ambiguous_date, ambiguous_date
  | invalid_format, invalid_format
  | not_numeric, not_numeric
  | placeholder_value, placeholder_value
  | out_of_range, out_of_range
  | invalid_email, invalid_email => true
  | _, _ => false
  end.

(** The dict [issue_counts], its keys in the order of their insertion. *)
Definition counts := list (IssueKind * nat).

(** [issue_counts.get(k, 0)] *)
Fixpoint counts_get (d : counts) (k : IssueKind) : nat :=
  match d with
  | [] => 0%nat
  | (k', v) :: r => if issue_eqb k' k then v else counts_get r k
  end.

(** [issue_counts[k] = v] *)
Fixpoint counts_set (d : counts) (k : IssueKind) (v : nat) : counts :=
  match d with
  | [] => [(k, v)]
  | (k', v') :: r =>
    if issue_eqb k' k then (k', v) :: r else (k', v') :: counts_set r k v
  end.

(** The loop of the anomaly panel:
    [for log in logs: issue_counts[issue] = issue_counts.get(issue, 0) + 1]. *)
Definition issue_counts (logs : list log_entry) : counts :=
  fold_left (fun d log => counts_set d (issue log) (counts_get d (issue log) + 1)%nat)
            logs [].

(** [max(0, x)] *)
Definition max0 (x : Q) : Q := if Qlt_bool 0 x then x else 0%Q.

(** The clean rate of the stats bar,
    [100 if issues == 0 else max(0, 100 - (issues / (len(df) * len(field_types)) * 100))];
    [None] is the [ZeroDivisionError] of the division. *)
Definition clean_rate (issues rows fields : nat) : option Q :=
  if (issues =? 0)%nat then Some 100%Q
  else if (rows * fields =? 0)%nat then None
  else Some (max0 (100 - (inject_Z (Z.of_nat issues)
                            / inject_Z (Z.of_nat (rows * fields))) * 100)%Q).

End Main.
Import Main.

(* ================================================================== *)
(** * A runtime for the examples *)
(* ================================================================== *)

(** The clock stands at 2024-06-02; a float prints as its integer part
    followed by [.0]; [pd.to_numeric] reads plain decimals. *)
Definition rt0 : runtime :=
  {| today_iso := u "2024-06-02"; yesterday_iso := u "2024-06-01";
     float_repr := fun q => str_of_int (Qnum q / Zpos (Qden q)) ++ u ".0";
     to_numeric_str := fun s =>
       match float_of_str s with
       | Some q => Some (if (Qden q =? 1)%positive then PyInt (Qnum q) else PyFloat q)
       | None => None
       end |}.

(** The table of "Load Sample Data" in [main]. *)
Definition sample_data : table :=
  [ (u "id", map (fun z => CNum (PyInt z)) [1; 2; 3; 4; 5]%Z);
    (u "name", map (fun a => CStr (u a))
                   ["Zhang San"; "Li Si"; "Wang Wu"; "Zhao Liu"; "Qian Qi"]%string);
    (u "age", [CNum (PyInt 25); CNum (PyInt 30); CNum (PyInt 150);
               CStr (u "invalid"); CNum (PyInt 28)]);
    (u "email", map (fun a => CStr (u a))
                    ["zhang#example.com"; "lisi@example"; "wang@test.com";
                     "zhao@company.cn"; "qian@tech.io"]%string);
    (u "date", map (fun a => CStr (u a))
                   ["2024-01-15"; "01/02/2024"; "2024.03.20"; "2024-04-01";
                    "not-a-date"]%string);
    (u "salary", map (fun z => CNum (PyInt z)) [5000; 6000; -1000; 8000; 7500]%Z) ].

(** The types [main] detects for it: every column but [id]. *)
Definition sample_types : field_map :=
  map (fun c => (fst c, detect_type rt0 (fst c) (snd c)))
      (filter (fun c => negb (str_eqb (fst c) (u "id"))) sample_data).

(** What a computation returned, when it did. *)
Definition returned {S A : Type} (r : result (A * S)) : option A :=
  match r with
  | Ok (a, _) => Some a
  | Raise _ => None
  end.

(** The log a run of the pipeline returned. *)
Definition returned_log (r : result (nat * nat * list log_entry * world))
  : option (list log_entry) :=
  option_map snd (returned r).

(* ================================================================== *)
(** * The vocabulary of the properties *)
(* ================================================================== *)

(** The text an item consumed belongs to its class and respects its bounds. *)
Definition consumed (it : item) (seg : pystr) : Prop :=
  forallb (cls it) seg = true /\ (lo it <= length seg)%nat /\
  match hi it with
  | Some m => (length seg <= m)%nat
  | None => True
  end.

(** The entry [clean_date] appends for an ambiguous date. *)
Definition ambiguous_entry (value : cell) (row_idx : Z) (col_name p1 p2 year : pystr)
  : log_entry :=
  {| row := row_idx + 1; column := col_name; raw := value;
     cleaned := CStr (iso_date year p1 p2); issue := ambiguous_date; rule := None;
     hint := Some (ambiguous_hint p1 p2) |}.

(** The entry [clean_date] appends for a value it cannot read. *)
Definition invalid_format_entry (value : cell) (row_idx : Z) (col_name : pystr)
  : log_entry :=
  {| row := row_idx + 1; column := col_name; raw := value; cleaned := CNull;
     issue := invalid_format; rule := Some (u "valid_date_format");
     hint := Some date_formats_hint |}.

(** The entry [clean_email] appends for an address that is still invalid. *)
Definition invalid_email_entry (value : cell) (row_idx : Z) (col_name addr : pystr)
  : log_entry :=
  {| row := row_idx + 1; column := col_name; raw := value; cleaned := CStr addr;
     issue := invalid_email; rule := Some (u "valid_email_format");
     hint := Some (u "缺少@或域名后缀不完整") |}.

(** The repaired text of a value. *)
Definition repaired (rt : runtime) (value : cell) : pystr :=
  repair_email (lower (strip (py_str rt value))).

(** What [lower] and then the two replacements do to one code point. *)
Definition email_cp (c : N) : N :=
  let l := lower_cp c in
  let r := if (l =? 35)%N then 64%N else l in
  if (r =? 65312)%N then 64%N else r.

(** A text that does not begin with white space. *)
Definition no_lead (s : pystr) : Prop :=
  match s with
  | c :: _ => is_space c = false
  | [] => True
  end.

(** The log grew by entries for the row index [row_idx] and column
    [col_name] only. *)
Definition logged_at (row_idx : Z) (col_name : pystr) (lg lg' : list log_entry) : Prop :=
  exists es, lg' = lg ++ es /\
    Forall (fun e => row e = (row_idx + 1)%Z /\ column e = col_name) es.

(** A column the pipeline has no reason to write: it has no entry in the
    type map and its lowercased label does not contain "salary". *)
Definition untouched (field_types : field_map) (col : pystr) : Prop :=
  dict_get field_types col = None /\ contains (u "salary") (lower col) = false.

(** What [clean_dataframe] logs: every entry carries row 1 and the label of
    a column of the input. *)
Definition log_ok (T : table) (lg : list log_entry) : Prop :=
  Forall (fun e => row e = 1%Z /\ In (column e) (columns T)) lg.

(** The input frame and the snapshot hold the input table; the frame being
    cleaned has its shape and its untouched columns; the log is [log_ok]. *)
Definition Inv (T : table) (field_types : field_map) (df dc orig : nat) (w : world)
  : Prop :=
  frame_at w df = Some T /\ frame_at w orig = Some T /\
  (exists Tc, frame_at w dc = Some Tc /\ shape Tc = shape T /\
     forall col, untouched field_types col -> get_column Tc col = get_column T col) /\
  log_ok T (cleaning_log w).

(** A table with one column of two addresses, the second one invalid. *)
Definition two_emails : table :=
  [(u "email", [CStr (u "wang@test.com"); CStr (u "lisi@example")])].

(** A table with one column of two dates, the second one not a date. *)
Definition two_dates : table :=
  [(u "date", [CStr (u "2024-01-15"); CStr (u "not-a-date")])].

(** [series.dropna()] *)
Definition non_null (values : series) : series :=
  filter (fun c => negb (pd_isna c)) values.

(** More than 0.8 of the non-null values read as numbers. *)
Definition numeric_crossed (rt : runtime) (values : series) : bool :=
  above (count (is_numeric rt) (non_null values)) (length (non_null values)) 8.

(** The matches of the three date patterns exceed 0.7 of the non-null values. *)
Definition date_crossed (rt : runtime) (values : series) : bool :=
  above (fold_right Nat.add 0%nat
           (map (fun pattern =>
                   count (fun c => matched pattern (py_str rt c)) (non_null values))
                date_patterns))
        (length (non_null values)) 7.

(** The lowercased name of the column contains "email" or "mail". *)
Definition named_email (name : pystr) : bool :=
  contains (u "email") (lower name) || contains (u "mail") (lower name).

(** The number [q] respects the bounds the rule has. *)
Definition within (r : range_rule) (q : Q) : Prop :=
  (forall lo, rmin r = Some lo -> (inject_Z lo <= q)%Q) /\
  (forall hi, rmax r = Some hi -> (q <= inject_Z hi)%Q).

(** The text does not go on with a character of the class. *)
Definition stops (c : N -> bool) (r : pystr) : Prop :=
  match r with
  | x :: _ => c x = false
  | [] => True
  end.

(** The item may be repeated [n] times. *)
Definition fits (it : item) (n : nat) : Prop :=
  (lo it <= n)%nat /\
  match hi it with
  | Some m => (n <= m)%nat
  | None => True
  end.

(** [float(s)] once the sign is read: [float_of_str] after its first [match]. *)
Definition float_body (neg : bool) (body : pystr) : option Q :=
  let (ip, rest) := span is_digit body in
  let (fp, ok) :=
    match rest with
    | [] => ([], true)
    | 46%N :: f => (f, forallb is_digit f)
    | _ => ([], false)
    end in
  if ok && negb (length ip + length fp =? 0)%nat then
    let m := Z.of_N (int_of_digits (ip ++ fp)) in
    Some (Qmake (if neg then (- m)%Z else m) (Z.to_pos (10 ^ Z.of_nat (length fp))))
  else None.

(** The class [[^\s@]] of the email pattern. *)
Definition email_word (c : N) : bool := negb (is_space c || (c =? 64)%N).

(** The shape local@domain.tld: three non-empty runs free of white space
    and of [@], joined by one [@] and one point (the domain and the last
    part may hold further points). *)
Definition email_shape (a : pystr) : Prop :=
  exists l d t,
    a = l ++ 64%N :: d ++ 46%N :: t /\ l <> [] /\ d <> [] /\ t <> [] /\
    forallb email_word l = true /\ forallb email_word d = true /\
    forallb email_word t = true.

(** A run of [lo] to [hi] ASCII digits. *)
Definition digits (lo hi : nat) (s : pystr) : Prop :=
  forallb is_digit s = true /\ (lo <= length s <= hi)%nat.

(** A text of the form YYYY-MM-DD. *)
Definition iso_shaped (s : pystr) : Prop :=
  exists y m d, digits 4 4 y /\ digits 2 2 m /\ digits 2 2 d /\ s = iso_date y m d.

(** The clock of the runtime prints its dates as YYYY-MM-DD. *)
Definition clock_iso (rt : runtime) : Prop :=
  iso_shaped (today_iso rt) /\ iso_shaped (yesterday_iso rt).

(** The characters of an ISO date. *)
Definition plain (c : N) : bool := is_digit c || (c =? 45)%N.

(** [c] is what the cleaning method of a column typed [ft] returns for the
    cell [v]; a column typed text or boolean has no method. *)
Definition cell_cleaned (rt : runtime) (ft : FieldType) (col : pystr) (v c : cell)
  : Prop :=
  match ft with
  | email => exists lg lg', clean_email rt v 0 col lg = Ok (c, lg')
  | date => exists lg lg', clean_date rt v 0 col lg = Ok (c, lg')
  | number => exists i lg lg', clean_numeric rt v i col lg = Ok (c, lg')
  | _ => c = v
  end.

(** A cell that is not a string. *)
Definition no_text (c : cell) : Prop :=
  match c with
  | CStr _ => False
  | _ => True
  end.

(** A cell that is null or a float. *)
Definition float_or_null (c : cell) : Prop :=
  c = CNull \/ exists q, c = CNum (PyFloat q).

(** An entry of the log quotes a cell of a column of [T] that the type map
    types date or email, with an issue of that type. *)
Definition entry_ok (T : table) (field_types : field_map) (e : log_entry) : Prop :=
  exists cells,
    get_column T (column e) = Some cells /\ In (raw e) cells /\
    ((dict_get field_types (column e) = Some email /\ issue e = invalid_email) \/
     (dict_get field_types (column e) = Some date /\
      (issue e = ambiguous_date \/ issue e = invalid_format))).

(** In the world [w] the column [col] of the frame at [dc] holds, cell by
    cell, what the method of the type [ft] returns for [cells]. *)
Definition holds_cleaned (rt : runtime) (ft : FieldType) (dc : nat) (col : pystr)
    (cells : series) (w : world) : Prop :=
  exists Tc out,
    frame_at w dc = Some Tc /\ get_column Tc col = Some out /\
    Forall2 (cell_cleaned rt ft col) cells out.

(** In the world [w] the column [col] of the frame at [dc] holds no string. *)
Definition holds_no_text (dc : nat) (col : pystr) (w : world) : Prop :=
  exists Tc out,
    frame_at w dc = Some Tc /\ get_column Tc col = Some out /\ Forall no_text out.

(* ================================================================== *)
(** * Strings and patterns: basic facts *)
(* ================================================================== *)

Lemma str_eqb_refl : forall a, str_eqb a a = true.
Proof.
  induction a as [|x a IH]; simpl; [reflexivity|].
  now rewrite N.eqb_refl.
Qed.

Lemma str_eqb_eq : forall a b, str_eqb a b = true <-> a = b.
Proof.
  induction a as [|x a IH]; destruct b as [|y b]; simpl; split; intro H;
    try reflexivity; try discriminate.
  - apply andb_true_iff in H as [H1 H2].
    apply N.eqb_eq in H1. apply IH in H2. now subst.
  - inversion H; subst. now rewrite N.eqb_refl, str_eqb_refl.
Qed.

Lemma str_eqb_neq : forall a b, a <> b -> str_eqb a b = false.
Proof.
  intros a b H. destruct (str_eqb a b) eqn:E; [|reflexivity].
  apply str_eqb_eq in E. contradiction.
Qed.

(* ================================================================== *)
(** * The monad: inversion of a successful run *)
(* ================================================================== *)

Lemma bind_ok : forall (S A B : Type) (m : ST S A) (k : A -> ST S B) s b s2,
  bind m k s = Ok (b, s2) ->
  exists a s1, m s = Ok (a, s1) /\ k a s1 = Ok (b, s2).
Proof.
  intros S A B m k s b s2 H. unfold bind in H.
  destruct (m s) as [[a s1]|e]; [|discriminate].
  now exists a, s1.
Qed.

Ltac inv_bind_as H a s H1 :=
  apply bind_ok in H; destruct H as (a & s & H1 & H).

Ltac inv_bind H :=
  let a := fresh "a" in
  let s := fresh "s" in
  let H1 := fresh H in
  apply bind_ok in H; destruct H as (a & s & H1 & H).

(* ================================================================== *)
(** * Patterns: what a match tells about the text *)
(* ================================================================== *)

Section Matching.

Lemma backtrack_some : forall (A : Type) lo n (try : nat -> option A) r,
  backtrack lo n try = Some r ->
  exists k, (lo <= k <= n)%nat /\ try k = Some r.
Proof.
  intros A lo n try r. induction n as [|n IH]; simpl.
  - destruct (Nat.eqb_spec lo 0); [|discriminate].
    intro H. exists 0%nat. split; [lia|assumption].
  - destruct (Nat.ltb_spec (S n) lo); [discriminate|].
    destruct (try (S n)) as [r'|] eqn:E.
    + intro H'. inversion H'; subst. exists (S n). split; [lia|assumption].
    + intro H'. destruct (IH H') as (k & Hk & Ek). exists k. split; [lia|assumption].
Qed.

Lemma backtrack_below : forall (A : Type) lo n (try : nat -> option A),
  (n < lo)%nat -> backtrack lo n try = None.
Proof.
  intros A lo n try H. destruct n as [|n]; simpl.
  - destruct (Nat.eqb_spec lo 0); [lia|reflexivity].
  - destruct (Nat.ltb_spec (S n) lo); [reflexivity|lia].
Qed.

Lemma cap_le : forall h n, (cap h n <= n)%nat.
Proof. intros [m|] n; simpl; lia. Qed.

Lemma run_length_firstn : forall c s k,
  (k <= run_length c s)%nat ->
  forallb c (firstn k s) = true /\ length (firstn k s) = k.
Proof.
  intros c s. induction s as [|x s IH]; intros k Hk; simpl in Hk.
  - assert (k = 0)%nat by lia. subst. now simpl.
  - destruct k as [|k]; [now simpl|].
    destruct (c x) eqn:E; [|lia].
    destruct (IH k ltac:(lia)) as [H1 H2].
    simpl. rewrite E, H1, H2. now split.
Qed.

Lemma run_length_stop : forall c p x r,
  forallb c p = true -> c x = false -> run_length c (p ++ x :: r) = length p.
Proof.
  intros c p x r. induction p as [|y p IH]; simpl; intros Hp Hx.
  - now rewrite Hx.
  - apply andb_true_iff in Hp as [Hy Hp]. rewrite Hy. now rewrite IH.
Qed.

Lemma match_items_sound : forall its d s segs,
  match_items its d s = Some segs ->
  Forall2 consumed its segs /\
  exists rest, s = concat segs ++ rest /\ end_ok d rest = true.
Proof.
  induction its as [|it its IH]; intros d s segs H; simpl in H.
  - destruct (end_ok d s) eqn:E; [|discriminate].
    inversion H; subst. split; [constructor|]. now exists s.
  - apply backtrack_some in H as (k & Hk & H).
    destruct (match_items its d (skipn k s)) as [segs'|] eqn:E; [|discriminate].
    inversion H; subst; clear H.
    destruct (IH _ _ _ E) as (HF & rest & Hs & He).
    assert (Hle : (k <= run_length (cls it) s)%nat).
    { pose proof (cap_le (hi it) (run_length (cls it) s)). lia. }
    destruct (run_length_firstn _ _ Hle) as [Hc Hl].
    split.
    + constructor; [|assumption].
      unfold consumed. rewrite Hc, Hl. repeat split; try lia.
      destruct (hi it) as [m|]; simpl in *; lia.
    + exists rest. split; [|assumption].
      simpl. rewrite <- app_assoc, <- Hs. symmetry. apply firstn_skipn.
Qed.

(** An item whose class does not run long enough fails the pattern. *)
Lemma match_items_short : forall it its d s,
  (run_length (cls it) s < lo it)%nat -> match_items (it :: its) d s = None.
Proof.
  intros it its d s H. simpl. apply backtrack_below.
  pose proof (cap_le (hi it) (run_length (cls it) s)). lia.
Qed.

Lemma sep_not_digit : forall c, sep c = true -> is_digit c = false.
Proof.
  intros c H. unfold sep, chr in H. simpl in H.
  rewrite !orb_true_iff in H. destruct H as [H|[H|H]]; try discriminate;
    apply N.eqb_eq in H; subst; reflexivity.
Qed.

(** What a match of [re_dmy] consists of. *)
Lemma re_dmy_sound : forall s p1 s1 p2 s2 year,
  re_match re_dmy s = Some [p1; s1; p2; s2; year] ->
  (1 <= length p1 <= 2)%nat /\ (1 <= length p2 <= 2)%nat /\ length year = 4%nat /\
  forallb is_digit p1 = true /\
  exists c rest, sep c = true /\ s = p1 ++ c :: rest.
Proof.
  intros s p1 s1 p2 s2 year H.
  apply match_items_sound in H as (HF & rest & Hs & _).
  inversion HF as [|? ? ? ? C1 HF1]; subst; clear HF.
  inversion HF1 as [|? ? ? ? C2 HF2]; subst; clear HF1.
  inversion HF2 as [|? ? ? ? C3 HF3]; subst; clear HF2.
  inversion HF3 as [|? ? ? ? C4 HF4]; subst; clear HF3.
  inversion HF4 as [|? ? ? ? C5 HF5]; subst; clear HF4.
  destruct C1 as (D1 & L1 & U1), C2 as (D2 & L2 & U2), C3 as (D3 & L3 & U3),
           C5 as (D5 & L5 & U5).
  simpl in *.
  repeat split; try lia; try assumption.
  destruct s1 as [|c [|c' s1]]; simpl in *; try lia.
  exists c, ((p2 ++ s2 ++ year ++ []) ++ rest). split.
  - now apply andb_true_iff in D2 as [D2 _].
  - now rewrite <- app_assoc.
Qed.

(** A text that matches [re_dmy] does not match [re_ymd]. *)
Lemma re_dmy_not_ymd : forall s p1 s1 p2 s2 year,
  re_match re_dmy s = Some [p1; s1; p2; s2; year] -> re_match re_ymd s = None.
Proof.
  intros s p1 s1 p2 s2 year H.
  apply re_dmy_sound in H as (L1 & _ & _ & D1 & c & rest & Hc & Hs).
  unfold re_match, re_ymd. cbn [items dollar].
  apply match_items_short. cbn [cls lo times]. subst s.
  unfold digit. rewrite (run_length_stop is_digit p1 c rest D1 (sep_not_digit c Hc)).
  lia.
Qed.

Lemma zfill_length : forall w s, (length s <= w)%nat -> length (zfill w s) = w.
Proof.
  intros w s H. unfold zfill. rewrite length_app, repeat_length. lia.
Qed.

Lemma iso_date_length : forall y m d,
  length y = 4%nat -> (length m <= 2)%nat -> (length d <= 2)%nat ->
  length (iso_date y m d) = 10%nat.
Proof.
  intros y m d Hy Hm Hd. unfold iso_date.
  rewrite !length_app, !zfill_length by assumption. rewrite Hy. reflexivity.
Qed.

End Matching.

(* ================================================================== *)
(** * clean_numeric *)
(* ================================================================== *)

(** C4. Numeric cleaning of "$7,000" in the column "salary", under the
    default rule salary: min 0, max 10000000: the currency marker and the
    comma are stripped, the pattern search extracts the token "7000", and
    the method returns the number 7000 and leaves the log as it was. *)
Theorem C4_currency_stripping : forall rt row_idx lg,
  In (u "salary", RangeRule (Some 0%Z) (Some 10000000%Z)) rules /\
  strip_currency (u "$7,000") = u "7000" /\
  option_map group0 (re_search re_number (u "7000")) = Some (u "7000") /\
  clean_numeric rt (CStr (u "$7,000")) row_idx (u "salary") lg
    = Ok (CNum (PyFloat (7000 # 1)), lg).
Proof.
  intros rt row_idx lg. split; [|split; [|split]].
  - right. left. reflexivity.
  - reflexivity.
  - reflexivity.
  - reflexivity.
Qed.

(** [add_log] raises, so numeric cleaning never adds to the log: it returns
    with the log it found, or it raises. *)
Lemma range_check_log : forall rs num row_idx col raw_str col_lower lg b lg',
  range_check rs num row_idx col raw_str col_lower lg = Ok (b, lg') ->
  b = false /\ lg' = lg.
Proof.
  induction rs as [|[k r] rs IH]; intros num row_idx col raw_str col_lower lg b lg' H;
    simpl in H.
  - now inversion H.
  - destruct (contains k col_lower); [|now apply IH in H].
    destruct (match rmin r with Some lo => _ | None => _ end); [discriminate|].
    destruct (match rmax r with Some hi => _ | None => _ end); [discriminate|].
    now apply IH in H.
Qed.

Lemma clean_numeric_log : forall rt v row_idx col lg c lg',
  clean_numeric rt v row_idx col lg = Ok (c, lg') -> lg' = lg.
Proof.
  intros rt v row_idx col lg c lg' H. unfold clean_numeric in H.
  destruct (pd_isna v || str_eqb (strip (py_str rt v)) []); [now inversion H|].
  destruct (existsb _ null_keywords); [discriminate|].
  destruct (parse_number _) as [num|]; [|discriminate].
  inv_bind H. apply range_check_log in H0 as [-> ->].
  now inversion H.
Qed.

(* ================================================================== *)
(** * clean_date *)
(* ================================================================== *)

(** C5 (as amended). For a date value whose text matches D[-/]M[-/]YYYY with
    leading components p1 and p2: when both are at most 12, [clean_date]
    takes p1 as the month and p2 as the day, appends exactly one
    ambiguous_date entry whose cleaned field is the resolved ISO string and
    whose hint names both readings, and returns the resolved string; when
    exactly one of them is at most 12, that one is the month and the other
    the day, and nothing is logged.  The ISO string is zero-padded: it has
    ten characters. *)
Theorem C5_dmy_resolution : forall rt value row_idx col_name lg p1 s1 p2 s2 year,
  pd_isna value = false ->
  re_match re_dmy (lower (strip (py_str rt value))) = Some [p1; s1; p2; s2; year] ->
  length (iso_date year p1 p2) = 10%nat /\ length (iso_date year p2 p1) = 10%nat /\
  ((int_of_digits p1 <= 12)%N -> (int_of_digits p2 <= 12)%N ->
     clean_date rt value row_idx col_name lg
       = Ok (CStr (iso_date year p1 p2),
             lg ++ [ambiguous_entry value row_idx col_name p1 p2 year]) /\
     hint (ambiguous_entry value row_idx col_name p1 p2 year)
       = Some (u "可能是" ++ p1 ++ u "月" ++ p2 ++ u "日 或 "
                 ++ p2 ++ u "月" ++ p1 ++ u "日")) /\
  ((int_of_digits p1 <= 12)%N -> (12 < int_of_digits p2)%N ->
     clean_date rt value row_idx col_name lg = Ok (CStr (iso_date year p1 p2), lg)) /\
  ((12 < int_of_digits p1)%N -> (int_of_digits p2 <= 12)%N ->
     clean_date rt value row_idx col_name lg = Ok (CStr (iso_date year p2 p1), lg)).
Proof.
  intros rt value row_idx col_name lg p1 s1 p2 s2 year Hna Hm.
  pose proof (re_dmy_sound _ Hm) as (L1 & L2 & Ly & _).
  pose proof (re_dmy_not_ymd _ Hm) as Hymd.
  assert (Hy : str_eqb (lower (strip (py_str rt value))) (u "yesterday") = false).
  { destruct (str_eqb _ (u "yesterday")) eqn:E; [|reflexivity].
    apply str_eqb_eq in E. rewrite E in Hm. vm_compute in Hm. discriminate. }
  assert (Ht : str_eqb (lower (strip (py_str rt value))) (u "today") = false).
  { destruct (str_eqb _ (u "today")) eqn:E; [|reflexivity].
    apply str_eqb_eq in E. rewrite E in Hm. vm_compute in Hm. discriminate. }
  split; [apply iso_date_length; lia|].
  split; [apply iso_date_length; lia|].
  unfold clean_date. rewrite Hna, Hy, Ht, Hymd, Hm. cbn [groups3].
  split; [|split].
  - intros H1 H2. apply N.leb_le in H1, H2. rewrite H1, H2. split; reflexivity.
  - intros H1 H2. apply N.leb_le in H1. apply N.leb_gt in H2. rewrite H1, H2.
    reflexivity.
  - intros H1 H2. apply N.leb_gt in H1. rewrite H1. reflexivity.
Qed.

Lemma C5_dmy_resolution_witness :
  clean_date rt0 (CStr (u "01/02/2024")) 4 (u "date") []
    = Ok (CStr (u "2024-01-02"),
          [ambiguous_entry (CStr (u "01/02/2024")) 4 (u "date") (u "01") (u "02") (u "2024")])
  /\ clean_date rt0 (CStr (u "25/12/2024")) 4 (u "date") [] = Ok (CStr (u "2024-12-25"), []).
Proof.
  split.
  - apply (C5_dmy_resolution rt0 (CStr (u "01/02/2024")) 4 (u "date") []
             (p1 := u "01") (s1 := u "/") (p2 := u "02") (s2 := u "/") (year := u "2024")
             eq_refl eq_refl); vm_compute; discriminate.
  - apply (C5_dmy_resolution rt0 (CStr (u "25/12/2024")) 4 (u "date") []
             (p1 := u "25") (s1 := u "/") (p2 := u "12") (s2 := u "/") (year := u "2024")
             eq_refl eq_refl); vm_compute; [reflexivity | discriminate].
Defined.

(** C5 as the specification words it fails: whenever p1 and p2 are not both
    at most 12, the one that is at most 12 would be the month.  For
    "13/14/2024" neither is, and [clean_date] returns "2024-14-13". *)
Lemma C5_counterexample :
  ~ (forall rt value row_idx col_name lg p1 s1 p2 s2 year,
       pd_isna value = false ->
       re_match re_dmy (lower (strip (py_str rt value))) = Some [p1; s1; p2; s2; year] ->
       ~ ((int_of_digits p1 <= 12)%N /\ (int_of_digits p2 <= 12)%N) ->
       exists month day,
         ((month = p1 /\ day = p2) \/ (month = p2 /\ day = p1)) /\
         (int_of_digits month <= 12)%N /\
         clean_date rt value row_idx col_name lg = Ok (CStr (iso_date year month day), lg)).
Proof.
  intro H.
  destruct (H rt0 (CStr (u "13/14/2024")) 0%Z (u "date") []
              (u "13") (u "/") (u "14") (u "/") (u "2024") eq_refl eq_refl)
    as (month & day & Hmd & Hle & _).
  - intros [H1 _]. vm_compute in H1. now apply H1.
  - destruct Hmd as [[-> _]|[-> _]]; vm_compute in Hle; now apply Hle.
Qed.

(** A null that [clean_numeric] returns comes from its first line: the
    value was null or blank. *)
Lemma clean_numeric_null : forall rt value row_idx col_name lg lg',
  clean_numeric rt value row_idx col_name lg = Ok (CNull, lg') ->
  pd_isna value = true \/ strip (py_str rt value) = [].
Proof.
  intros rt value row_idx col_name lg lg' H. unfold clean_numeric in H.
  destruct (pd_isna value) eqn:Hna; [now left|]. right.
  destruct (str_eqb (strip (py_str rt value)) []) eqn:He;
    [now apply str_eqb_eq in He|].
  cbn [orb] in H.
  destruct (existsb _ null_keywords); [discriminate|].
  destruct (parse_number _) as [num|]; [|discriminate].
  inv_bind_as H b lg1 Hr. apply range_check_log in Hr as [-> ->].
  discriminate.
Qed.

(** C6. The specification has [clean_date] log an unreadable value and
    return it as it is, unlike numeric cleaning, which nulls a format
    failure out.  The code misses the second half: on a text without a
    number, such as "not-a-date", [clean_numeric] calls [self.add_log], a
    method the class does not have, and raises [AttributeError] before its
    [return None] (the defect of C1); the only values it returns null for
    are the null and the blank ones.  The first half holds: for a non-null
    date value whose text is neither "yesterday" nor "today" and matches
    none of the three patterns, [clean_date] appends exactly one entry
    (issue invalid_format, rule "valid_date_format", cleaned null, a hint
    that lists the supported formats) and returns the value it was given,
    not null. *)
Theorem C6_date_kept_numeric_raises : forall rt,
  (forall row_idx col_name lg,
     clean_numeric rt (CStr (u "not-a-date")) row_idx col_name lg
       = Raise (AttributeError (u "add_log"))) /\
  (forall value row_idx col_name lg lg',
     clean_numeric rt value row_idx col_name lg = Ok (CNull, lg') ->
     pd_isna value = true \/ strip (py_str rt value) = []) /\
  (forall value row_idx col_name lg,
     pd_isna value = false ->
     let str_val := lower (strip (py_str rt value)) in
     str_val <> u "yesterday" -> str_val <> u "today" ->
     re_match re_ymd str_val = None ->
     re_match re_dmy str_val = None ->
     re_match re_dot str_val = None ->
     clean_date rt value row_idx col_name lg
       = Ok (value, lg ++ [invalid_format_entry value row_idx col_name]) /\
     value <> CNull /\
     issue (invalid_format_entry value row_idx col_name) = invalid_format /\
     rule (invalid_format_entry value row_idx col_name) = Some (u "valid_date_format") /\
     cleaned (invalid_format_entry value row_idx col_name) = CNull /\
     raw (invalid_format_entry value row_idx col_name) = value /\
     exists formats,
       hint (invalid_format_entry value row_idx col_name) = Some formats /\
       contains (u "YYYY-MM-DD") formats = true /\
       contains (u "DD/MM/YYYY") formats = true /\
       contains (u "YYYY.MM.DD") formats = true) /\
  clean_date rt (CStr (u "not-a-date")) 4 (u "date") []
    = Ok (CStr (u "not-a-date"),
          [invalid_format_entry (CStr (u "not-a-date")) 4 (u "date")]).
Proof.
  intro rt. split; [reflexivity|]. split; [|split; [|reflexivity]].
  - intros value row_idx col_name lg lg' H.
    exact (@clean_numeric_null rt value row_idx col_name lg lg' H).
  - intros value row_idx col_name lg Hna str_val Hy Ht H1 H2 H3.
    split; [|split; [|repeat split]].
    + unfold clean_date. fold str_val.
      rewrite Hna, (str_eqb_neq Hy), (str_eqb_neq Ht), H1, H2, H3. reflexivity.
    + intro E. subst value. discriminate.
    + exists date_formats_hint. repeat split; reflexivity.
Qed.

(* ================================================================== *)
(** * clean_email *)
(* ================================================================== *)

Lemma clean_email_cases : forall rt value row_idx col_name lg,
  pd_isna value = false ->
  clean_email rt value row_idx col_name lg = Ok (CStr (repaired rt value), lg) \/
  clean_email rt value row_idx col_name lg
    = Ok (CStr (repaired rt value),
          lg ++ [invalid_email_entry value row_idx col_name (repaired rt value)]).
Proof.
  intros rt value row_idx col_name lg Hna. unfold clean_email. rewrite Hna.
  fold (repaired rt value).
  destruct (re_match re_email (repaired rt value)); [left|right]; reflexivity.
Qed.

(** C7. "zhang#example.com" is cleaned to "zhang@example.com" and nothing is
    logged; "lisi@example" is cleaned to "lisi@example" and exactly one
    invalid_email entry is appended, its cleaned field the repaired string;
    and for every non-null value [clean_email] returns the repaired string,
    valid or not, never null. *)
Theorem C7_email_repair : forall rt value row_idx col_name lg,
  pd_isna value = false ->
  clean_email rt (CStr (u "zhang#example.com")) row_idx col_name lg
    = Ok (CStr (u "zhang@example.com"), lg) /\
  clean_email rt (CStr (u "lisi@example")) row_idx col_name lg
    = Ok (CStr (u "lisi@example"),
          lg ++ [invalid_email_entry (CStr (u "lisi@example")) row_idx col_name
                                     (u "lisi@example")]) /\
  exists lg',
    clean_email rt value row_idx col_name lg = Ok (CStr (repaired rt value), lg') /\
    CStr (repaired rt value) <> CNull /\
    (lg' = lg \/
     lg' = lg ++ [invalid_email_entry value row_idx col_name (repaired rt value)]).
Proof.
  intros rt value row_idx col_name lg Hna.
  split; [reflexivity|]. split; [reflexivity|].
  destruct (clean_email_cases rt value row_idx col_name lg Hna) as [H|H];
    eexists; (split; [exact H|]); (split; [discriminate|]); auto.
Qed.

Lemma C7_email_repair_witness :
  pd_isna (CStr (u " Wang#Test.COM ")) = false /\
  exists lg',
    clean_email rt0 (CStr (u " Wang#Test.COM ")) 2 (u "email") []
      = Ok (CStr (u "wang@test.com"), lg').
Proof.
  split; [reflexivity|].
  destruct (C7_email_repair rt0 (CStr (u " Wang#Test.COM ")) 2 (u "email") [] eq_refl)
    as (_ & _ & lg' & H & _).
  exists lg'. exact H.
Defined.

Section EmailIdempotence.

Lemma repair_lower : forall s, repair_email (lower s) = map email_cp s.
Proof.
  intro s. unfold repair_email, replace_char, lower. rewrite !map_map.
  reflexivity.
Qed.

Lemma is_space_bounds : forall c,
  is_space c = true -> (c <= 32 \/ c = 133 \/ c = 160 \/ 5760 <= c <= 12288)%N.
Proof.
  intros c H. unfold is_space in H.
  repeat match type of H with
         | (_ || _) = true => apply orb_true_iff in H; destruct H as [H|H]
         | (_ && _) = true => apply andb_true_iff in H; destruct H as [? H]
         | (_ =? _)%N = true => apply N.eqb_eq in H
         | (_ <=? _)%N = true => apply N.leb_le in H
         end;
  repeat match goal with
         | H' : (_ <=? _)%N = true |- _ => apply N.leb_le in H'
         end; lia.
Qed.

Lemma upper_not_space : forall c, is_upper c = true -> is_space c = false.
Proof.
  intros c H. unfold is_upper in H. apply andb_true_iff in H as [H1 H2].
  apply N.leb_le in H1, H2.
  destruct (is_space c) eqn:E; [|reflexivity].
  apply is_space_bounds in E. lia.
Qed.

Lemma email_cp_cases : forall c,
  email_cp c = c \/
  (is_space c = false /\ is_space (email_cp c) = false /\
   email_cp (email_cp c) = email_cp c).
Proof.
  intro c. unfold email_cp, lower_cp.
  destruct (is_upper c) eqn:U.
  - right. pose proof (upper_not_space c U) as Hs.
    unfold is_upper in U. apply andb_true_iff in U as [U1 U2].
    apply N.leb_le in U1, U2.
    assert (E1 : ((c + 32 =? 35) = false)%N) by (apply N.eqb_neq; lia).
    assert (E2 : ((c + 32 =? 65312) = false)%N) by (apply N.eqb_neq; lia).
    assert (E3 : is_upper (c + 32) = false).
    { unfold is_upper. apply andb_false_iff. right. apply N.leb_gt. lia. }
    cbv zeta. rewrite E1, E2, E3, E1, E2. repeat split; try assumption.
    destruct (is_space (c + 32)) eqn:E; [|reflexivity].
    apply is_space_bounds in E. lia.
  - cbv zeta. destruct (N.eqb_spec c 35) as [->|N1].
    + right. repeat split; reflexivity.
    + destruct (N.eqb_spec c 65312) as [->|N2].
      * right. repeat split; reflexivity.
      * left. reflexivity.
Qed.

Lemma email_cp_space : forall c, is_space (email_cp c) = is_space c.
Proof.
  intro c. destruct (email_cp_cases c) as [->|(H1 & H2 & _)]; congruence.
Qed.

Lemma email_cp_idem : forall c, email_cp (email_cp c) = email_cp c.
Proof.
  intro c. destruct (email_cp_cases c) as [H|(_ & _ & H)]; [now rewrite !H|exact H].
Qed.

Lemma lstrip_map : forall s, lstrip (map email_cp s) = map email_cp (lstrip s).
Proof.
  induction s as [|c s IH]; simpl; [reflexivity|].
  rewrite email_cp_space. destruct (is_space c); [exact IH|reflexivity].
Qed.

Lemma strip_map : forall s, strip (map email_cp s) = map email_cp (strip s).
Proof.
  intro s. unfold strip, rstrip.
  now rewrite lstrip_map, <- map_rev, lstrip_map, map_rev.
Qed.

Lemma lstrip_no_lead : forall s, no_lead (lstrip s).
Proof.
  induction s as [|c s IH]; simpl; [exact I|].
  destruct (is_space c) eqn:E; [exact IH|exact E].
Qed.

Lemma no_lead_lstrip : forall s, no_lead s -> lstrip s = s.
Proof.
  intros [|c s] H; simpl in *; [reflexivity|now rewrite H].
Qed.

Lemma lstrip_snoc : forall x c,
  is_space c = false -> exists x', lstrip (x ++ [c]) = x' ++ [c].
Proof.
  induction x as [|a x IH]; intros c Hc; simpl.
  - rewrite Hc. now exists [].
  - destruct (is_space a); [now apply IH|]. now exists (a :: x).
Qed.

Lemma rstrip_no_lead : forall s, no_lead s -> no_lead (rstrip s).
Proof.
  intros [|c s] H; [exact I|]. simpl in H. unfold rstrip. simpl rev.
  destruct (lstrip_snoc (rev s) c H) as (x' & ->).
  rewrite rev_app_distr. simpl. exact H.
Qed.

Lemma strip_idem : forall s, strip (strip s) = strip s.
Proof.
  intro s. unfold strip at 1.
  rewrite (no_lead_lstrip (strip s)).
  - unfold strip, rstrip. rewrite rev_involutive.
    now rewrite (no_lead_lstrip _ (lstrip_no_lead _)).
  - unfold strip. apply rstrip_no_lead, lstrip_no_lead.
Qed.

(** Cleaning the text of a cleaned address changes nothing. *)
Lemma repaired_fixed : forall s,
  repair_email (lower (strip (repair_email (lower (strip s)))))
    = repair_email (lower (strip s)).
Proof.
  intro s. rewrite !repair_lower, strip_map, strip_idem, map_map.
  apply map_ext. intro c. apply email_cp_idem.
Qed.

End EmailIdempotence.

(** C10. [clean_email] is idempotent on values: what it returns for a value
    is returned again when it is given that result, whatever the row, the
    column and the log of either call. *)
Theorem C10_clean_email_idempotent :
  forall rt value row_idx col_name lg row_idx' col_name' lg',
  exists c,
    returned (clean_email rt value row_idx col_name lg) = Some c /\
    returned (clean_email rt c row_idx' col_name' lg') = Some c /\
    (pd_isna value = false -> c = CStr (repaired rt value)).
Proof.
  intros rt value row_idx col_name lg row_idx' col_name' lg'.
  destruct (pd_isna value) eqn:Hna.
  - exists value. unfold clean_email. rewrite Hna. repeat split. discriminate.
  - exists (CStr (repaired rt value)).
    assert (Hc : repaired rt (CStr (repaired rt value)) = repaired rt value)
      by apply repaired_fixed.
    split; [|split; [|reflexivity]].
    + destruct (clean_email_cases rt value row_idx col_name lg Hna) as [-> | ->];
        reflexivity.
    + destruct (clean_email_cases rt (CStr (repaired rt value)) row_idx' col_name' lg'
                  eq_refl) as [H|H]; rewrite H, Hc; reflexivity.
Qed.

(* ================================================================== *)
(** * Frames and the object store *)
(* ================================================================== *)

Section Frames.

Lemma get_set_other : forall t col col' x,
  col' <> col -> get_column (set_column t col x) col' = get_column t col'.
Proof.
  induction t as [|[name old] t IH]; intros col col' x Hne; simpl.
  - rewrite str_eqb_neq; [reflexivity|congruence].
  - destruct (str_eqb name col) eqn:E; simpl.
    + apply str_eqb_eq in E. subst name.
      rewrite str_eqb_neq; [reflexivity|congruence].
    + destruct (str_eqb name col'); [reflexivity|now apply IH].
Qed.

Lemma shape_set_same : forall t col cs x,
  get_column t col = Some cs -> length x = length cs ->
  shape (set_column t col x) = shape t.
Proof.
  induction t as [|[name old] t IH]; intros col cs x Hg Hl; simpl in *.
  - discriminate.
  - destruct (str_eqb name col) eqn:E; simpl.
    + inversion Hg; subst. now rewrite Hl.
    + f_equal. now apply IH with cs.
Qed.

Lemma get_column_shape : forall a b col cs,
  shape a = shape b -> get_column b col = Some cs ->
  exists cs', get_column a col = Some cs' /\ length cs' = length cs.
Proof.
  induction a as [|[n1 c1] a IH]; intros [|[n2 c2] b] col cs Hs Hg; simpl in *;
    try discriminate.
  inversion Hs; subst.
  destruct (str_eqb n2 col).
  - inversion Hg; subst. now exists c1.
  - now apply IH with b.
Qed.

Lemma pd_to_numeric_length : forall rt cs, length (pd_to_numeric rt cs) = length cs.
Proof.
  intros rt cs. unfold pd_to_numeric.
  destruct (forallb is_int_cell (map (coerce_cell rt) cs)); now rewrite ?length_map.
Qed.

Lemma enumerate_from_length : forall (A : Type) (l : list A) i,
  length (enumerate_from i l) = length l.
Proof. induction l as [|a l IH]; intro i; simpl; [reflexivity|now rewrite IH]. Qed.

Lemma update_nth_same : forall (A : Type) (l : list A) i x,
  (i < length l)%nat -> nth_error (update_nth l i x) i = Some x.
Proof.
  induction l as [|y l IH]; intros [|i] x H; simpl in *; try lia; [reflexivity|].
  apply IH. lia.
Qed.

Lemma update_nth_other : forall (A : Type) (l : list A) i j x,
  i <> j -> nth_error (update_nth l i x) j = nth_error l j.
Proof.
  induction l as [|y l IH]; intros [|i] [|j] x H; simpl; try reflexivity;
    try congruence.
  apply IH. congruence.
Qed.

End Frames.

(* ================================================================== *)
(** * Runs of the monad *)
(* ================================================================== *)

Section Runs.

Context {S A B : Type}.

Lemma mapM_length : forall (f : A -> ST S B) l s bs s',
  mapM f l s = Ok (bs, s') -> length bs = length l.
Proof.
  induction l as [|a l IH]; intros s bs s' H; simpl in H.
  - now inversion H.
  - inv_bind H. inv_bind H. inversion H; subst. simpl. f_equal. eauto.
Qed.

Lemma mapM_inv : forall (P : S -> Prop) (f : A -> ST S B),
  (forall a s b s', P s -> f a s = Ok (b, s') -> P s') ->
  forall l s bs s', P s -> mapM f l s = Ok (bs, s') -> P s'.
Proof.
  intros P f Hf. induction l as [|a l IH]; intros s bs s' Hs H; simpl in H.
  - now inversion H; subst.
  - inv_bind H. inv_bind H. inversion H; subst. eauto.
Qed.

Lemma for_each_inv : forall (P : S -> Prop) (f : A -> ST S unit),
  (forall a s s', P s -> f a s = Ok (tt, s') -> P s') ->
  forall l s s', P s -> for_each f l s = Ok (tt, s') -> P s'.
Proof.
  intros P f Hf. induction l as [|a l IH]; intros s s' Hs H; simpl in H.
  - now inversion H; subst.
  - inv_bind H. destruct a0. eauto.
Qed.

End Runs.

Section PipelineRuns.

Lemma deref_ok : forall a w t w',
  deref a w = Ok (t, w') -> frame_at w a = Some t /\ w' = w.
Proof.
  intros a w t w' H. unfold deref in H. unfold frame_at.
  destruct (nth_error (frames w) a); [|discriminate]. now inversion H.
Qed.

Lemma getcol_ok : forall a col w cells w',
  getcol a col w = Ok (cells, w') ->
  w' = w /\ exists t, frame_at w a = Some t /\ get_column t col = Some cells.
Proof.
  intros a col w cells w' H. unfold getcol in H. inv_bind H.
  apply deref_ok in H0 as [Ht ->].
  destruct (get_column a0 col) eqn:E; [|discriminate].
  inversion H; subst. split; [reflexivity|]. now exists a0.
Qed.

Lemma setcol_ok : forall a col cells w w',
  setcol a col cells w = Ok (tt, w') ->
  exists t, frame_at w a = Some t /\
    w' = World (update_nth (frames w) a (set_column t col cells)) (cleaning_log w).
Proof.
  intros a col cells w w' H. unfold setcol in H. inv_bind H.
  apply deref_ok in H0 as [Ht ->]. inversion H; subst. now exists a0.
Qed.

Lemma copy_ok : forall a w b w',
  copy a w = Ok (b, w') ->
  exists t, frame_at w a = Some t /\ b = length (frames w) /\
    w' = World (frames w ++ [t]) (cleaning_log w).
Proof.
  intros a w b w' H. unfold copy in H. inv_bind H.
  apply deref_ok in H0 as [Ht ->]. inversion H; subst. now exists a0.
Qed.

Lemma on_log_ok : forall (A : Type) (m : Cl A) w a w',
  on_log m w = Ok (a, w') ->
  exists lg, m (cleaning_log w) = Ok (a, lg) /\ w' = World (frames w) lg.
Proof.
  intros A m w a w' H. unfold on_log in H.
  destruct (m (cleaning_log w)) as [[a' lg]|e]; [|discriminate].
  inversion H; subst. now exists lg.
Qed.

End PipelineRuns.

(* ================================================================== *)
(** * What the cleaners append to the log *)
(* ================================================================== *)

Lemma logged_at_refl : forall i col lg, logged_at i col lg lg.
Proof. intros i col lg. exists []. now rewrite app_nil_r. Qed.

Lemma logged_at_one : forall i col lg e,
  row e = (i + 1)%Z -> column e = col -> logged_at i col lg (lg ++ [e]).
Proof. intros i col lg e H1 H2. exists [e]. split; [reflexivity|]. now repeat constructor. Qed.

Lemma clean_email_logged : forall rt v i col lg c lg',
  clean_email rt v i col lg = Ok (c, lg') -> logged_at i col lg lg'.
Proof.
  intros rt v i col lg c lg' H. destruct (pd_isna v) eqn:Hna.
  - unfold clean_email in H. rewrite Hna in H. inversion H; subst.
    apply logged_at_refl.
  - destruct (clean_email_cases rt v i col lg Hna) as [E|E]; rewrite E in H;
      inversion H; subst; [apply logged_at_refl|now apply logged_at_one].
Qed.

Lemma clean_date_logged : forall rt v i col lg c lg',
  clean_date rt v i col lg = Ok (c, lg') -> logged_at i col lg lg'.
Proof.
  intros rt v i col lg c lg' H. unfold clean_date in H.
  destruct (pd_isna v); [inversion H; subst; apply logged_at_refl|].
  destruct (str_eqb _ (u "yesterday")); [inversion H; subst; apply logged_at_refl|].
  destruct (str_eqb _ (u "today")); [inversion H; subst; apply logged_at_refl|].
  destruct (groups3 (re_match re_ymd _)) as [[[y m] d]|];
    [inversion H; subst; apply logged_at_refl|].
  destruct (groups3 (re_match re_dmy _)) as [[[p1 p2] year]|].
  - destruct ((int_of_digits p1 <=? 12)%N && (int_of_digits p2 <=? 12)%N).
    + inversion H; subst. now apply logged_at_one.
    + inversion H; subst. apply logged_at_refl.
  - destruct (groups3 (re_match re_dot _)) as [[[y m] d]|].
    + inversion H; subst. apply logged_at_refl.
    + inversion H; subst. now apply logged_at_one.
Qed.

(* ================================================================== *)
(** * clean_dataframe: the invariant of its two loops *)
(* ================================================================== *)

Section Invariant.

Variable rt : runtime.
Variable T : table.
Variable field_types : field_map.
Variables df dc orig : nat.
Hypothesis df_dc : df <> dc.
Hypothesis orig_dc : orig <> dc.

Lemma get_column_in : forall (t : table) col cs,
  get_column t col = Some cs -> In col (columns t).
Proof.
  induction t as [|[name old] t IH]; intros col cs H; simpl in *; [discriminate|].
  destruct (str_eqb name col) eqn:E.
  - left. now apply str_eqb_eq.
  - right. now apply IH with cs.
Qed.

Lemma inv_setcol : forall w col cells out lg' w',
  Inv T field_types df dc orig w ->
  (forall col', untouched field_types col' -> col' <> col) ->
  get_column T col = Some cells -> length out = length cells ->
  log_ok T lg' ->
  setcol dc col out (World (frames w) lg') = Ok (tt, w') ->
  Inv T field_types df dc orig w'.
Proof.
  intros w col cells out lg' w' (Hdf & Ho & (Tc & Hc & Hs & Hu) & _) Hne Hg Hl Hlg H.
  apply setcol_ok in H as (t & Ht & ->).
  unfold frame_at in *. simpl in Ht. rewrite Hc in Ht. inversion Ht; subst t.
  unfold Inv, frame_at. simpl. repeat split.
  - now rewrite update_nth_other by congruence.
  - now rewrite update_nth_other by congruence.
  - exists (set_column Tc col out). repeat split.
    + apply update_nth_same. apply nth_error_Some. congruence.
    + destruct (@get_column_shape Tc T col cells Hs Hg) as (cs' & Hg' & Hl').
      rewrite (@shape_set_same Tc col cs' out Hg') by congruence. exact Hs.
    + intros col' Hu'. rewrite get_set_other by now apply Hne. now apply Hu.
  - exact Hlg.
Qed.

(** A pass over the cells of one column that logs for row index 0. *)
Lemma mapM_log_ok : forall (f : cell -> Cl cell) col cells lg out lg',
  In col (columns T) ->
  (forall v lg1 c lg2, f v lg1 = Ok (c, lg2) -> logged_at 0 col lg1 lg2) ->
  log_ok T lg -> mapM f cells lg = Ok (out, lg') -> log_ok T lg'.
Proof.
  intros f col cells lg out lg' Hin Hf Hlg H.
  apply (mapM_inv (log_ok T)) with (f := f) (l := cells) (s := lg) (bs := out);
    try assumption.
  intros v lg1 c lg2 H1 H2. apply Hf in H2 as (es & -> & Hes).
  apply Forall_app. split; [assumption|].
  eapply Forall_impl; [|exact Hes]. intros e [Hr Hc]. simpl in Hr.
  split; [exact Hr|now rewrite Hc].
Qed.

Lemma clean_column_inv : forall col w w',
  Inv T field_types df dc orig w -> clean_column rt df dc field_types col w = Ok (tt, w') -> Inv T field_types df dc orig w'.
Proof.
  intros col w w' HI H. unfold clean_column in H.
  destruct (dict_get field_types col) as [ft|] eqn:E;
    [|now inversion H; subst].
  assert (Hne : forall col', untouched field_types col' -> col' <> col).
  { intros col' [Hn _] ->. congruence. }
  pose proof HI as (Hdf & _ & _ & Hlg).
  destruct ft; try (now inversion H; subst).
  - (* number *)
    inv_bind H. apply getcol_ok in H0 as (-> & t & Ht & Hg).
    rewrite Hdf in Ht. inversion Ht; subst t.
    inv_bind H. apply on_log_ok in H0 as (lg' & Hm & ->).
    pose proof (mapM_length _ _ _ Hm) as Hlen.
    unfold enumerate in Hlen. rewrite enumerate_from_length in Hlen.
    apply (@inv_setcol w col a (pd_to_numeric rt a0) lg' w' HI Hne Hg);
      [rewrite pd_to_numeric_length; exact Hlen| |exact H].
    apply (mapM_inv (log_ok T)) in Hm; try assumption.
    intros iv lg1 c lg2 H1 H2. apply clean_numeric_log in H2. now subst.
  - (* date *)
    inv_bind H. apply getcol_ok in H0 as (-> & t & Ht & Hg).
    rewrite Hdf in Ht. inversion Ht; subst t.
    inv_bind H. apply on_log_ok in H0 as (lg' & Hm & ->).
    pose proof (mapM_length _ _ _ Hm) as Hlen.
    apply (@inv_setcol w col a a0 lg' w' HI Hne Hg Hlen); [|exact H].
    eapply mapM_log_ok; [exact (@get_column_in T col a Hg)| |exact Hlg|exact Hm].
    intros v lg1 c lg2 H1. eapply clean_date_logged; exact H1.
  - (* email *)
    inv_bind H. apply getcol_ok in H0 as (-> & t & Ht & Hg).
    rewrite Hdf in Ht. inversion Ht; subst t.
    inv_bind H. apply on_log_ok in H0 as (lg' & Hm & ->).
    pose proof (mapM_length _ _ _ Hm) as Hlen.
    apply (@inv_setcol w col a a0 lg' w' HI Hne Hg Hlen); [|exact H].
    eapply mapM_log_ok; [exact (@get_column_in T col a Hg)| |exact Hlg|exact Hm].
    intros v lg1 c lg2 H1. eapply clean_email_logged; exact H1.
Qed.

Lemma salary_pass_inv : forall col w w',
  Inv T field_types df dc orig w -> salary_pass rt dc col w = Ok (tt, w') -> Inv T field_types df dc orig w'.
Proof.
  intros col w w' HI H. unfold salary_pass in H.
  destruct (contains (u "salary") (lower col)) eqn:E; [|now inversion H; subst].
  inv_bind H. apply getcol_ok in H0 as (-> & t & Ht & Hg).
  pose proof HI as (_ & _ & (Tc & Hc & Hs & _) & Hlg).
  rewrite Hc in Ht. inversion Ht; subst t.
  destruct (@get_column_shape T Tc col a (eq_sym Hs) Hg) as (cs' & Hg' & Hl').
  destruct w as [fr lg]. simpl in *.
  apply (@inv_setcol (World fr lg) col cs' (pd_to_numeric rt a) lg w' HI);
    [ |exact Hg'| |exact Hlg|exact H].
  - intros col' [_ Hn] ->. congruence.
  - rewrite pd_to_numeric_length. congruence.
Qed.

End Invariant.

(** The invariant holds once the two copies are made. *)
Lemma inv_start : forall T field_types df w,
  frame_at w df = Some T ->
  Inv T field_types df (length (frames w)) (S (length (frames w)))
      (World ((frames w ++ [T]) ++ [T]) []).
Proof.
  intros T field_types df w HT. unfold Inv, frame_at in *. cbn [frames cleaning_log].
  assert (Hlt : (df < length (frames w))%nat) by (apply nth_error_Some; congruence).
  split; [|split; [|split; [|constructor]]].
  - rewrite nth_error_app1, nth_error_app1 by (rewrite ?length_app; simpl; lia).
    exact HT.
  - replace (S (length (frames w))) with (length (frames w ++ [T]))
      by (rewrite length_app; simpl; lia).
    rewrite nth_error_app2 by lia. now rewrite Nat.sub_diag.
  - exists T. split; [|split; [reflexivity|reflexivity]].
    rewrite nth_error_app1 by (rewrite length_app; simpl; lia).
    rewrite nth_error_app2 by lia. now rewrite Nat.sub_diag.
Qed.

(** What a run of [clean_dataframe] that returns leaves behind. *)
Lemma clean_dataframe_ok : forall rt df field_types w T dc orig lg w',
  frame_at w df = Some T ->
  clean_dataframe rt df field_types w = Ok ((dc, orig, lg), w') ->
  dc = length (frames w) /\ orig = S (length (frames w)) /\
  lg = cleaning_log w' /\ Inv T field_types df dc orig w'.
Proof.
  intros rt df field_types w T dc orig lg w' HT H.
  unfold clean_dataframe in H.
  inv_bind_as H x0 w0 H0. inversion H0; subst; clear H0.
  inv_bind_as H dc' w1 H1. apply copy_ok in H1 as (t1 & Ht1 & -> & ->).
  inv_bind_as H orig' w2 H2. apply copy_ok in H2 as (t2 & Ht2 & -> & ->).
  inv_bind_as H t3 w3 H3. apply deref_ok in H3 as (Ht3 & ->).
  unfold frame_at in *. simpl in *.
  assert (Hlt : (df < length (frames w))%nat) by (apply nth_error_Some; congruence).
  rewrite HT in Ht1. inversion Ht1; subst t1.
  rewrite nth_error_app1 in Ht2 by lia. rewrite HT in Ht2. inversion Ht2; subst t2.
  rewrite nth_error_app1, nth_error_app1 in Ht3 by (rewrite ?length_app; simpl; lia).
  rewrite HT in Ht3. inversion Ht3; subst t3.
  inv_bind_as H x4 w4 H4. destruct x4.
  inv_bind_as H tc w5 H5. apply deref_ok in H5 as (_ & ->).
  inv_bind_as H x6 w6 H6. destruct x6.
  inv_bind_as H lg7 w7 H7. inversion H7; subst; clear H7. inversion H; subst; clear H.
  rewrite length_app. simpl. rewrite Nat.add_1_r.
  split; [reflexivity|]. split; [reflexivity|]. split; [reflexivity|].
  assert (N1 : df <> length (frames w)) by lia.
  assert (N2 : S (length (frames w)) <> length (frames w)) by lia.
  apply for_each_inv
    with (P := Inv T field_types df (length (frames w)) (S (length (frames w))))
         (f := salary_pass rt (length (frames w))) (l := columns tc) (s := w4);
    [|clear H6|exact H6].
  { intros a s s' HI Hr.
    exact (@salary_pass_inv rt T field_types df _ _ N1 N2 a s s' HI Hr). }
  apply for_each_inv
    with (P := Inv T field_types df (length (frames w)) (S (length (frames w))))
         (f := clean_column rt df (length (frames w)) field_types) (l := columns T)
         (s := World ((frames w ++ [T]) ++ [T]) []);
    [|clear H4|exact H4].
  { intros a s s' HI Hr.
    exact (@clean_column_inv rt T field_types df _ _ N1 N2 a s s' HI Hr). }
  now apply inv_start.
Qed.

(* ================================================================== *)
(** * clean_dataframe: when it returns *)
(* ================================================================== *)

Section Progress.

Lemma bind_run : forall (S A B : Type) (m : ST S A) (k : A -> ST S B) s a s1,
  m s = Ok (a, s1) -> bind m k s = k a s1.
Proof. intros S A B m k s a s1 H. unfold bind. now rewrite H. Qed.

Lemma mapM_runs : forall (S A B : Type) (f : A -> ST S B),
  (forall a s, exists b s', f a s = Ok (b, s')) ->
  forall l s, exists bs s', mapM f l s = Ok (bs, s').
Proof.
  intros S A B f Hf. induction l as [|a l IH]; intro s; cbn [mapM].
  - now exists [], s.
  - destruct (Hf a s) as (b & s1 & H1). destruct (IH s1) as (bs & s2 & H2).
    exists (b :: bs), s2.
    rewrite (@bind_run _ _ _ _ _ _ _ _ H1), (@bind_run _ _ _ _ _ _ _ _ H2). reflexivity.
Qed.

Lemma for_each_runs : forall (S A : Type) (P : S -> Prop) (f : A -> ST S unit) l,
  (forall a s, In a l -> P s -> exists s', f a s = Ok (tt, s') /\ P s') ->
  forall s, P s -> exists s', for_each f l s = Ok (tt, s') /\ P s'.
Proof.
  intros S A P f. induction l as [|a l IH]; intros Hf s Hs; cbn [for_each].
  - now exists s.
  - destruct (Hf a s (or_introl eq_refl) Hs) as (s1 & H1 & P1).
    destruct (IH (fun a' s' Hin => Hf a' s' (or_intror Hin)) s1 P1) as (s2 & H2 & P2).
    exists s2. split; [|exact P2]. now rewrite (@bind_run _ _ _ _ _ _ _ _ H1).
Qed.

Lemma clean_email_runs : forall rt v i col lg,
  exists c lg', clean_email rt v i col lg = Ok (c, lg').
Proof.
  intros rt v i col lg. destruct (pd_isna v) eqn:Hna.
  - exists v, lg. unfold clean_email. now rewrite Hna.
  - destruct (clean_email_cases rt v i col lg Hna) as [H|H]; eauto.
Qed.

Lemma clean_date_runs : forall rt v i col lg,
  exists c lg', clean_date rt v i col lg = Ok (c, lg').
Proof.
  intros rt v i col lg. unfold clean_date.
  destruct (pd_isna v); [do 2 eexists; reflexivity|].
  destruct (str_eqb _ (u "yesterday")); [do 2 eexists; reflexivity|].
  destruct (str_eqb _ (u "today")); [do 2 eexists; reflexivity|].
  destruct (groups3 (re_match re_ymd _)) as [[[y m] d]|]; [do 2 eexists; reflexivity|].
  destruct (groups3 (re_match re_dmy _)) as [[[p1 p2] year]|].
  - destruct ((int_of_digits p1 <=? 12)%N && (int_of_digits p2 <=? 12)%N);
      do 2 eexists; reflexivity.
  - destruct (groups3 (re_match re_dot _)) as [[[y m] d]|]; do 2 eexists; reflexivity.
Qed.

Lemma in_get_column : forall (t : table) col,
  In col (columns t) -> exists cs, get_column t col = Some cs.
Proof.
  induction t as [|[name old] t IH]; intros col H; simpl in *; [contradiction|].
  destruct (str_eqb name col) eqn:E; [now exists old|].
  destruct H as [H|H]; [|now apply IH].
  subst. now rewrite str_eqb_refl in E.
Qed.

Lemma columns_shape : forall a b : table, shape a = shape b -> columns a = columns b.
Proof.
  intros a b H. unfold columns.
  assert (E : forall t : table, map fst t = map fst (shape t)).
  { intro t. unfold shape. rewrite map_map. reflexivity. }
  now rewrite (E a), (E b), H.
Qed.

Lemma getcol_run : forall a col w t cells,
  frame_at w a = Some t -> get_column t col = Some cells ->
  getcol a col w = Ok (cells, w).
Proof.
  intros a col w t cells Ht Hg. unfold getcol, bind, deref.
  unfold frame_at in Ht. now rewrite Ht, Hg.
Qed.

Lemma setcol_run : forall a col cells w t,
  frame_at w a = Some t -> exists w', setcol a col cells w = Ok (tt, w').
Proof.
  intros a col cells w t Ht. unfold setcol, bind, deref.
  unfold frame_at in Ht. rewrite Ht. eauto.
Qed.

Lemma copy_run : forall a w t,
  frame_at w a = Some t ->
  copy a w = Ok (length (frames w), World (frames w ++ [t]) (cleaning_log w)).
Proof.
  intros a w t Ht. unfold copy, bind, deref. unfold frame_at in Ht. now rewrite Ht.
Qed.

Lemma on_log_run : forall (A : Type) (m : Cl A) w a lg,
  m (cleaning_log w) = Ok (a, lg) -> on_log m w = Ok (a, World (frames w) lg).
Proof. intros A m w a lg H. unfold on_log. now rewrite H. Qed.

Variable rt : runtime.
Variable T : table.
Variable field_types : field_map.
Variables df dc orig : nat.
Hypothesis df_dc : df <> dc.
Hypothesis orig_dc : orig <> dc.
Hypothesis no_number : forall col, dict_get field_types col <> Some number.

(** One column cleaned by a method that always returns. *)
Lemma column_runs : forall (f : cell -> Cl cell) col w,
  (forall v lg, exists c lg', f v lg = Ok (c, lg')) ->
  Inv T field_types df dc orig w -> In col (columns T) ->
  exists w',
    (cells <- getcol df col ;; out <- on_log (mapM f cells) ;; setcol dc col out) w
      = Ok (tt, w').
Proof.
  intros f col w Hf (Hdf & _ & (Tc & Hc & _) & _) Hin.
  destruct (in_get_column T col Hin) as (cells & Hg).
  rewrite (@bind_run _ _ _ _ _ _ _ _ (@getcol_run df col w T cells Hdf Hg)).
  destruct (@mapM_runs _ _ _ f Hf cells (cleaning_log w)) as (out & lg' & Hm).
  rewrite (@bind_run _ _ _ _ _ _ _ _ (@on_log_run _ (mapM f cells) w out lg' Hm)).
  apply setcol_run with Tc. exact Hc.
Qed.

Lemma clean_column_runs : forall col w,
  Inv T field_types df dc orig w -> In col (columns T) ->
  exists w', clean_column rt df dc field_types col w = Ok (tt, w') /\
             Inv T field_types df dc orig w'.
Proof.
  intros col w HI Hin.
  assert (R : exists w', clean_column rt df dc field_types col w = Ok (tt, w')).
  { unfold clean_column. pose proof (no_number col) as Hn.
    destruct (dict_get field_types col) as [[]|].
    - exists w. reflexivity.
    - congruence.
    - apply (@column_runs (fun x => clean_date rt x 0 col) col w); try assumption.
      intros v lg. apply clean_date_runs.
    - apply (@column_runs (fun x => clean_email rt x 0 col) col w); try assumption.
      intros v lg. apply clean_email_runs.
    - exists w. reflexivity.
    - exists w. reflexivity. }
  destruct R as (w' & R). exists w'. split; [exact R|].
  exact (@clean_column_inv rt T field_types df dc orig df_dc orig_dc col w w' HI R).
Qed.

Lemma salary_pass_runs : forall col w,
  Inv T field_types df dc orig w -> In col (columns T) ->
  exists w', salary_pass rt dc col w = Ok (tt, w') /\ Inv T field_types df dc orig w'.
Proof.
  intros col w HI Hin.
  assert (R : exists w', salary_pass rt dc col w = Ok (tt, w')).
  { unfold salary_pass.
    destruct (contains (u "salary") (lower col)); [|exists w; reflexivity].
    destruct HI as (_ & _ & (Tc & Hc & Hs & _) & _).
    rewrite <- (columns_shape Tc T Hs) in Hin.
    destruct (in_get_column Tc col Hin) as (cells & Hg).
    rewrite (@bind_run _ _ _ _ _ _ _ _ (@getcol_run dc col w Tc cells Hc Hg)).
    apply setcol_run with Tc. exact Hc. }
  destruct R as (w' & R). exists w'. split; [exact R|].
  exact (@salary_pass_inv rt T field_types df dc orig df_dc orig_dc col w w' HI R).
Qed.

End Progress.

(** When no column is typed number, [clean_dataframe] returns. *)
Lemma clean_dataframe_returns : forall rt df field_types w T,
  frame_at w df = Some T ->
  (forall col, dict_get field_types col <> Some number) ->
  exists dc orig lg w', clean_dataframe rt df field_types w = Ok ((dc, orig, lg), w').
Proof.
  intros rt df field_types w T HT Hno.
  assert (Hlt : (df < length (frames w))%nat)
    by (apply nth_error_Some; unfold frame_at in HT; congruence).
  set (n := length (frames w)).
  assert (N1 : df <> n) by (unfold n; lia).
  assert (N2 : S n <> n) by lia.
  set (w1 := World (frames w) []).
  set (w2 := World (frames w ++ [T]) []).
  set (w3 := World ((frames w ++ [T]) ++ [T]) []).
  assert (C1 : copy df w1 = Ok (n, w2)) by exact (@copy_run df w1 T HT).
  assert (C2 : copy df w2 = Ok (S n, w3)).
  { assert (H2 : frame_at w2 df = Some T).
    { unfold frame_at, w2. cbn [frames]. rewrite nth_error_app1 by lia. exact HT. }
    rewrite (@copy_run df w2 T H2). unfold w2, w3, n. cbn [frames cleaning_log].
    rewrite length_app. simpl. now rewrite Nat.add_1_r. }
  pose proof (@inv_start T field_types df w HT) as I3. fold n w3 in I3.
  assert (D3 : deref df w3 = Ok (T, w3)).
  { destruct I3 as (Hdf & _). unfold deref. unfold frame_at in Hdf. now rewrite Hdf. }
  destruct (@for_each_runs world pystr (Inv T field_types df n (S n))
              (clean_column rt df n field_types) (columns T)
              (fun a s _ HI => @clean_column_runs rt T field_types df n (S n) N1 N2 Hno
                                 a s HI ltac:(assumption))
              w3 I3) as (w4 & L4 & I4).
  destruct I4 as (Hdf4 & Ho4 & (Tc & Hc4 & Hs4 & Hu4) & Hlg4).
  assert (I4 : Inv T field_types df n (S n) w4).
  { unfold Inv. repeat split; try assumption. now exists Tc. }
  assert (D4 : deref n w4 = Ok (Tc, w4)).
  { unfold deref. unfold frame_at in Hc4. now rewrite Hc4. }
  destruct (@for_each_runs world pystr (Inv T field_types df n (S n))
              (salary_pass rt n) (columns Tc)
              (fun a s Hin HI => @salary_pass_runs rt T field_types df n (S n) N1 N2
                                   a s HI
                                   (eq_ind _ (In a) Hin _ (columns_shape Tc T Hs4)))
              w4 I4) as (w5 & L5 & I5).
  exists n, (S n), (cleaning_log w5), w5.
  unfold clean_dataframe.
  rewrite (@bind_run _ _ _ reset_log _ w tt w1 eq_refl).
  rewrite (@bind_run _ _ _ _ _ _ _ _ C1), (@bind_run _ _ _ _ _ _ _ _ C2).
  rewrite (@bind_run _ _ _ _ _ _ _ _ D3), (@bind_run _ _ _ _ _ _ _ _ L4).
  rewrite (@bind_run _ _ _ _ _ _ _ _ D4), (@bind_run _ _ _ _ _ _ _ _ L5).
  reflexivity.
Qed.

(* ================================================================== *)
(** * clean_dataframe: the properties of the specification *)
(* ================================================================== *)

(** C1. The specification has every per-cell failure recovered locally and
    logged, and the pipeline always return.  The code misses it: the four
    places where [clean_numeric] reports a failure call [self.add_log], a
    method the class does not have, so a placeholder, a text without a
    number and a value out of range each raise [AttributeError], and the
    exception leaves [clean_dataframe]: on the sample table of the
    application, with the types it detects, no result is returned.  A call
    of [clean_numeric] that does return has logged nothing. *)
Theorem C1_numeric_failures_raise : forall rt row_idx lg,
  clean_numeric rt (CStr (u "N/A")) row_idx (u "age") lg
    = Raise (AttributeError (u "add_log")) /\
  clean_numeric rt (CStr (u "invalid")) row_idx (u "age") lg
    = Raise (AttributeError (u "add_log")) /\
  clean_numeric rt (CNum (PyInt 150)) row_idx (u "age") lg
    = Raise (AttributeError (u "add_log")) /\
  clean_numeric rt (CNum (PyInt (-1000))) row_idx (u "salary") lg
    = Raise (AttributeError (u "add_log")) /\
  clean_dataframe rt0 0 sample_types (start sample_data)
    = Raise (AttributeError (u "add_log")) /\
  (forall value col_name c lg',
     clean_numeric rt value row_idx col_name lg = Ok (c, lg') -> lg' = lg).
Proof.
  intros rt row_idx lg.
  do 4 (split; [reflexivity|]).
  split; [vm_compute; reflexivity|].
  intros value col_name c lg' H. now apply clean_numeric_log in H.
Qed.

(** C2. The specification has every log entry carry the 1-based position of
    its cell.  The code misses it for email and date columns, which are
    cleaned with the row index 0 for every cell: the entry for the invalid
    address in the second row of [two_emails] carries row 1, and so does the
    entry for the second row of [two_dates]; in general every entry of a log
    that [clean_dataframe] returns carries row 1 (numeric cleaning, which
    is given the index, raises instead of logging). *)
Theorem C2_rows_are_always_one : forall rt,
  returned_log (clean_dataframe rt 0 [(u "email", email)] (start two_emails))
    = Some [invalid_email_entry (CStr (u "lisi@example")) 0 (u "email") (u "lisi@example")] /\
  row (invalid_email_entry (CStr (u "lisi@example")) 0 (u "email") (u "lisi@example")) = 1%Z /\
  option_map (fun cells => nth_error cells 1) (get_column two_emails (u "email"))
    = Some (Some (CStr (u "lisi@example"))) /\
  returned_log (clean_dataframe rt 0 [(u "date", date)] (start two_dates))
    = Some [invalid_format_entry (CStr (u "not-a-date")) 0 (u "date")] /\
  row (invalid_format_entry (CStr (u "not-a-date")) 0 (u "date")) = 1%Z /\
  (forall df field_types w T dc orig lg w',
     frame_at w df = Some T ->
     clean_dataframe rt df field_types w = Ok ((dc, orig, lg), w') ->
     Forall (fun e => row e = 1%Z) lg).
Proof.
  intro rt.
  do 5 (split; [reflexivity|]).
  intros df field_types w T dc orig lg w' HT H.
  destruct (clean_dataframe_ok _ _ _ _ HT H) as (_ & _ & -> & (_ & _ & _ & Hlg)).
  eapply Forall_impl; [|exact Hlg]. now intros e [Hr _].
Qed.

(** C3 (as amended). A column of the input that has no entry in the type map
    and whose lowercased label does not contain "salary" is, in the cleaned
    frame of a run that returns, the column it is in the original. *)
Theorem C3_passthrough : forall rt df field_types w T dc orig lg w' col,
  frame_at w df = Some T ->
  clean_dataframe rt df field_types w = Ok ((dc, orig, lg), w') ->
  dict_get field_types col = None ->
  contains (u "salary") (lower col) = false ->
  exists Tc To,
    frame_at w' dc = Some Tc /\ frame_at w' orig = Some To /\ To = T /\
    get_column Tc col = get_column To col.
Proof.
  intros rt df field_types w T dc orig lg w' col HT H Hn Hs.
  destruct (clean_dataframe_ok _ _ _ _ HT H)
    as (_ & _ & _ & (_ & Ho & (Tc & Hc & _ & Hu) & _)).
  exists Tc, T. repeat split; try assumption.
  apply Hu. now split.
Qed.

Lemma C3_passthrough_witness :
  exists dc orig lg w' Tc,
    clean_dataframe rt0 0 [(u "email", email)] (start sample_data) = Ok ((dc, orig, lg), w') /\
    frame_at w' dc = Some Tc /\
    get_column Tc (u "name") = get_column sample_data (u "name").
Proof.
  destruct (clean_dataframe rt0 0 [(u "email", email)] (start sample_data))
    as [[[[dc orig] lg] w']|e] eqn:E; [|vm_compute in E; discriminate].
  destruct (@C3_passthrough rt0 0%nat [(u "email", email)] (start sample_data)
              sample_data dc orig lg w' (u "name") eq_refl E eq_refl eq_refl)
    as (Tc & To & H1 & _ & -> & H3).
  exists dc, orig, lg, w', Tc. repeat split; assumption.
Defined.

(** C3 as the specification words it fails: a column named "salary" that is
    absent from the type map is coerced by the last loop, and the text
    "abc" in it becomes null. *)
Lemma C3_counterexample :
  ~ (forall rt df field_types w T dc orig lg w' col,
       frame_at w df = Some T ->
       clean_dataframe rt df field_types w = Ok ((dc, orig, lg), w') ->
       In col (columns T) ->
       dict_get field_types col = None ->
       exists Tc, frame_at w' dc = Some Tc /\ get_column Tc col = get_column T col).
Proof.
  intro H.
  destruct (clean_dataframe rt0 0 [] (start [(u "salary", [CStr (u "abc")])]))
    as [[[[dc orig] lg] w']|e] eqn:E; [|vm_compute in E; discriminate].
  destruct (H rt0 0%nat [] (start [(u "salary", [CStr (u "abc")])])
              [(u "salary", [CStr (u "abc")])] dc orig lg w' (u "salary")
              eq_refl E (or_introl eq_refl) eq_refl) as (Tc & H1 & H2).
  vm_compute in E. inversion E; subst.
  vm_compute in H1. inversion H1; subst.
  vm_compute in H2. discriminate.
Qed.

(** C8. The specification has [clean_dataframe] return, for every table and
    type map, two frames of the shape of the input.  The code misses the
    return: for a column typed number that holds a value out of range the
    call raises (the defect of C1).  Whenever the call does return, the
    cleaned frame has the labels and the column lengths of the input, the
    original frame and the caller's frame hold the input table, and a later
    assignment to a column of the cleaned frame leaves the original frame as
    it is; and the call does return when no column is typed number. *)
Theorem C8_shape_and_snapshot : forall rt,
  clean_dataframe rt 0 [(u "age", number)]
      (start [(u "age", [CNum (PyInt 25); CNum (PyInt 150)])])
    = Raise (AttributeError (u "add_log")) /\
  (forall df field_types w T dc orig lg w',
     frame_at w df = Some T ->
     clean_dataframe rt df field_types w = Ok ((dc, orig, lg), w') ->
     exists Tc,
       frame_at w' dc = Some Tc /\ shape Tc = shape T /\
       frame_at w' orig = Some T /\ frame_at w' df = Some T /\
       forall col cells w'',
         setcol dc col cells w' = Ok (tt, w'') -> frame_at w'' orig = Some T) /\
  (forall df field_types w T,
     frame_at w df = Some T ->
     (forall col, dict_get field_types col <> Some number) ->
     exists dc orig lg w',
       clean_dataframe rt df field_types w = Ok ((dc, orig, lg), w')).
Proof.
  intro rt. split; [reflexivity|]. split.
  - intros df field_types w T dc orig lg w' HT H.
    destruct (clean_dataframe_ok _ _ _ _ HT H)
      as (-> & -> & _ & (Hdf & Ho & (Tc & Hc & Hs & _) & _)).
    exists Tc. repeat split; try assumption.
    intros col cells w'' Hset.
    apply setcol_ok in Hset as (t & _ & ->).
    unfold frame_at in *. cbn [frames]. rewrite update_nth_other by lia. exact Ho.
  - intros df field_types w T HT Hno. now apply clean_dataframe_returns with T.
Qed.

(* ================================================================== *)
(** * detect_type *)
(* ================================================================== *)

(** C9 (as amended). [detect_type] takes its rules in a fixed order.  A
    column whose non-null values cross the numeric threshold is classified
    number, whatever the date patterns match (so also when the date
    threshold is crossed as well).  A column with at least one non-null
    value whose name contains "email" or "mail", case-insensitively, is
    classified email whatever its values are, provided neither the numeric
    nor the date threshold is crossed. *)
Theorem C9_detect_order : forall rt name values,
  (numeric_crossed rt values = true -> detect_type rt name values = number) /\
  (non_null values <> [] ->
   numeric_crossed rt values = false -> date_crossed rt values = false ->
   named_email name = true ->
   detect_type rt name values = email).
Proof.
  intros rt name values. unfold numeric_crossed, date_crossed, named_email, non_null.
  unfold detect_type.
  destruct (filter (fun c => negb (pd_isna c)) values) as [|c l] eqn:E.
  - split; [intro H; discriminate|intro H; now destruct H].
  - cbn [length Nat.eqb]. split.
    + intro H. now rewrite H.
    + intros _ H1 H2 H3. now rewrite H1, H2, H3.
Qed.

Lemma C9_detect_order_witness :
  detect_type rt0 (u "salary") (map (fun z => CNum (PyInt z)) [5000; 6000; -1000]%Z) = number /\
  detect_type rt0 (u "E-Mail") [CStr (u "n/a"); CNull; CStr (u "x@y.org")] = email.
Proof.
  split.
  - apply (C9_detect_order rt0 (u "salary")). reflexivity.
  - apply (C9_detect_order rt0 (u "E-Mail")); [discriminate|reflexivity..].
Defined.

(** C9 as the specification words it fails: a column named "email" whose
    cells are all null crosses no threshold and is classified text. *)
Lemma C9_counterexample :
  ~ (forall rt name values,
       numeric_crossed rt values = false -> date_crossed rt values = false ->
       named_email name = true ->
       detect_type rt name values = email).
Proof.
  intro H.
  specialize (H rt0 (u "email") [CNull; CNull] eq_refl eq_refl eq_refl).
  vm_compute in H. discriminate.
Qed.

(* ================================================================== *)
(** * Patterns: when a match exists *)
(* ================================================================== *)

Section MatchingMore.

Lemma backtrack_first : forall (A : Type) lo n (try : nat -> option A) r,
  (lo <= n)%nat -> try n = Some r -> backtrack lo n try = Some r.
Proof.
  intros A lo n try r Hle H. destruct n as [|n]; simpl.
  - assert (lo = 0)%nat by lia. subst. exact H.
  - destruct (Nat.ltb_spec (S n) lo); [lia|]. now rewrite H.
Qed.

Lemma backtrack_complete : forall (A : Type) lo n (try : nat -> option A) k r,
  (lo <= k <= n)%nat -> try k = Some r -> exists r', backtrack lo n try = Some r'.
Proof.
  intros A lo n try. induction n as [|n IH]; intros k r Hk H; simpl.
  - assert (k = 0)%nat by lia. assert (lo = 0)%nat by lia. subst. simpl. eauto.
  - destruct (Nat.ltb_spec (S n) lo); [lia|].
    destruct (try (S n)) as [r1|] eqn:E; [eauto|].
    destruct (Nat.eq_dec k (S n)) as [->|Hne]; [congruence|].
    apply (IH k r); [lia|assumption].
Qed.

Lemma run_length_all : forall c s, forallb c s = true -> run_length c s = length s.
Proof.
  intros c s. induction s as [|x s IH]; simpl; [reflexivity|].
  intro H. apply andb_true_iff in H as [Hx Hs]. rewrite Hx. now rewrite IH.
Qed.

Lemma run_length_prefix : forall c p r,
  forallb c p = true -> (length p <= run_length c (p ++ r))%nat.
Proof.
  intros c p r. induction p as [|x p IH]; simpl; [lia|].
  intro H. apply andb_true_iff in H as [Hx Hp]. rewrite Hx. specialize (IH Hp). lia.
Qed.

Lemma firstn_exact : forall (A : Type) (p r : list A), firstn (length p) (p ++ r) = p.
Proof. induction p as [|x p IH]; intro r; simpl; [reflexivity|now rewrite IH]. Qed.

Lemma skipn_exact : forall (A : Type) (p r : list A), skipn (length p) (p ++ r) = r.
Proof. induction p as [|x p IH]; intro r; simpl; [reflexivity|apply IH]. Qed.

Lemma run_length_stops : forall c p r,
  forallb c p = true -> stops c r -> run_length c (p ++ r) = length p.
Proof.
  intros c p r Hp Hr. destruct r as [|x r].
  - rewrite app_nil_r. now apply run_length_all.
  - now apply run_length_stop.
Qed.

Lemma fits_cap : forall it n m, fits it n -> (n <= m)%nat -> (lo it <= n <= cap (hi it) m)%nat.
Proof.
  intros it n m [Hlo Hhi] Hm. unfold cap. destruct (hi it); lia.
Qed.

(** An item that takes the whole run [p] first: if the rest matches, this
    is the match [re] finds. *)
Lemma match_step : forall it its d p r segs,
  forallb (cls it) p = true -> stops (cls it) r -> fits it (length p) ->
  match_items its d r = Some segs ->
  match_items (it :: its) d (p ++ r) = Some (p :: segs).
Proof.
  intros it its d p r segs Hp Hr Hf H. cbn [match_items].
  rewrite (run_length_stops _ _ _ Hp Hr).
  assert (Hc : cap (hi it) (length p) = length p).
  { destruct Hf as [_ Hhi]. unfold cap. destruct (hi it); lia. }
  rewrite Hc. apply backtrack_first; [apply Hf|].
  now rewrite skipn_exact, firstn_exact, H.
Qed.

(** An item that can take the prefix [p]: if the rest can match, the
    pattern matches. *)
Lemma match_step_ex : forall it its d p r,
  forallb (cls it) p = true -> fits it (length p) ->
  (exists segs, match_items its d r = Some segs) ->
  exists segs, match_items (it :: its) d (p ++ r) = Some segs.
Proof.
  intros it its d p r Hp Hf [segs H]. cbn [match_items].
  apply backtrack_complete with (k := length p) (r := p :: segs).
  - apply fits_cap; [exact Hf|]. now apply run_length_prefix.
  - now rewrite skipn_exact, firstn_exact, H.
Qed.

Lemma re_search_some : forall r s segs,
  re_search r s = Some segs ->
  exists pre t, s = pre ++ t /\ re_match r t = Some segs.
Proof.
  intros r s. induction s as [|c s IH]; intros segs H; simpl in H.
  - destruct (re_match r []) eqn:E; [|discriminate].
    inversion H; subst. now exists [], [].
  - destruct (re_match r (c :: s)) eqn:E.
    + inversion H; subst. now exists [], (c :: s).
    + destruct (IH _ H) as (pre & t & -> & Ht). now exists (c :: pre), t.
Qed.

Lemma re_search_found : forall r pre t,
  (exists segs, re_match r t = Some segs) ->
  exists segs, re_search r (pre ++ t) = Some segs.
Proof.
  intros r pre t Ht. induction pre as [|c pre IH]; simpl.
  - destruct t as [|x t]; simpl; destruct Ht as [segs ->]; eauto.
  - destruct (re_match r (c :: pre ++ t)); eauto.
Qed.

End MatchingMore.

(* ================================================================== *)
(** * clean_numeric: bounds and tokens *)
(* ================================================================== *)

Section NumericMore.

Lemma Qlt_bool_false : forall a b, Qlt_bool a b = false -> (b <= a)%Q.
Proof.
  intros a b H. unfold Qlt_bool in H. apply negb_false_iff in H.
  now apply Qle_bool_iff.
Qed.

Lemma range_check_within : forall rs num row_idx col raw_str col_lower lg b lg',
  range_check rs num row_idx col raw_str col_lower lg = Ok (b, lg') ->
  forall key r, In (key, r) rs -> contains key col_lower = true -> within r num.
Proof.
  induction rs as [|[k r0] rs IH]; intros num row_idx col raw_str col_lower lg b lg' H
    key r Hin Hc; simpl in *; [contradiction|].
  destruct (contains k col_lower) eqn:Ek.
  - destruct (match rmin r0 with Some lo => _ | None => _ end) eqn:E1; [discriminate|].
    destruct (match rmax r0 with Some hi => _ | None => _ end) eqn:E2; [discriminate|].
    destruct Hin as [Hin|Hin]; [|now apply (IH _ _ _ _ _ _ _ _ H key r)].
    inversion Hin; subst. split.
    + intros lo Hlo. rewrite Hlo in E1. now apply Qlt_bool_false.
    + intros hi Hhi. rewrite Hhi in E2. now apply Qlt_bool_false.
  - destruct Hin as [Hin|Hin]; [inversion Hin; subst; congruence|].
    now apply (IH _ _ _ _ _ _ _ _ H key r).
Qed.

Lemma digit_not_sign : forall c, is_digit c = true -> chr "-+" c = false.
Proof.
  intros c H. unfold is_digit in H. apply andb_true_iff in H as [H1 H2].
  apply N.leb_le in H1, H2. unfold chr. simpl.
  destruct (N.eqb_spec c 45); [lia|]. destruct (N.eqb_spec c 43); [lia|]. reflexivity.
Qed.

Lemma digit_not_dot : forall c, is_digit c = true -> dot c = false.
Proof.
  intros c H. unfold is_digit in H. apply andb_true_iff in H as [H1 H2].
  apply N.leb_le in H1, H2. unfold dot, chr. simpl.
  destruct (N.eqb_spec c 46); [lia|]. reflexivity.
Qed.

(** Where a digit stands, the pattern of a number matches. *)
Lemma re_number_at_digit : forall c t,
  is_digit c = true -> exists segs, re_match re_number (c :: t) = Some segs.
Proof.
  intros c t Hc. unfold re_match, re_number. cbn [items dollar].
  change (c :: t) with ([] ++ c :: t).
  apply match_step_ex; [reflexivity|split; simpl; lia|].
  change (c :: t) with ([] ++ c :: t).
  apply match_step_ex; [reflexivity|split; simpl; [lia|exact I]|].
  change (c :: t) with ([] ++ c :: t).
  apply match_step_ex; [reflexivity|split; simpl; lia|].
  change (c :: t) with ([c] ++ t).
  apply match_step_ex; [simpl; unfold digit; now rewrite Hc|split; simpl; [lia|exact I]|].
  exists []. reflexivity.
Qed.

Lemma span_all : forall c s, forallb c s = true -> span c s = (s, []).
Proof.
  intros c s. induction s as [|x s IH]; simpl; [reflexivity|].
  intro H. apply andb_true_iff in H as [Hx Hs]. now rewrite Hx, IH.
Qed.

Lemma span_stop : forall c p x r,
  forallb c p = true -> c x = false -> span c (p ++ x :: r) = (p, x :: r).
Proof.
  intros c p x r. induction p as [|y p IH]; simpl; intros Hp Hx.
  - now rewrite Hx.
  - apply andb_true_iff in Hp as [Hy Hp]. now rewrite Hy, IH.
Qed.

Lemma float_of_str_body : forall s,
  float_of_str s =
  let (neg, body) :=
    match s with
    | 45%N :: r => (true, r)
    | 43%N :: r => (false, r)
    | _ => (false, s)
    end in
  float_body neg body.
Proof. reflexivity. Qed.

Lemma float_of_str_unsigned : forall s,
  match s with
  | c :: _ => c <> 45%N /\ c <> 43%N
  | [] => True
  end ->
  float_of_str s = float_body false s.
Proof.
  intros [|c t] H; [reflexivity|]. destruct H as [H1 H2].
  rewrite float_of_str_body.
  destruct c as [|p]; [reflexivity|].
  do 7 (try (destruct p as [p|p|]; try reflexivity; try congruence)).
Qed.

(** The digits, with or without a point, that follow the sign of a token. *)
Lemma float_body_token : forall neg ip dt fp,
  forallb is_digit ip = true -> forallb is_digit fp = true -> fp <> [] ->
  (dt = [] \/ dt = [46%N]) ->
  exists q, float_body neg (ip ++ dt ++ fp) = Some q.
Proof.
  intros neg ip dt fp Hi Hf Hne [-> | ->]; unfold float_body.
  - simpl app. rewrite span_all by (rewrite forallb_app; now rewrite Hi, Hf).
    cbn [andb]. destruct fp as [|x fp]; [congruence|].
    rewrite length_app. simpl length.
    replace (_ + 0 =? 0)%nat with false by (symmetry; apply Nat.eqb_neq; lia).
    cbn [negb]. eauto.
  - simpl app. rewrite span_stop by (assumption || reflexivity).
    rewrite Hf. cbn [andb]. destruct fp as [|x fp]; [congruence|].
    simpl length.
    replace (_ + S _ =? 0)%nat with false by (symmetry; apply Nat.eqb_neq; lia).
    cbn [negb]. eauto.
Qed.

Lemma Forall2_consumed4 : forall i1 i2 i3 i4 segs,
  Forall2 consumed [i1; i2; i3; i4] segs ->
  exists a b c d, segs = [a; b; c; d] /\
    consumed i1 a /\ consumed i2 b /\ consumed i3 c /\ consumed i4 d.
Proof.
  intros i1 i2 i3 i4 segs H.
  inversion H as [|? a ? s1 C1 H1]; subst; clear H.
  inversion H1 as [|? b ? s2 C2 H2]; subst; clear H1.
  inversion H2 as [|? c ? s3 C3 H3]; subst; clear H2.
  inversion H3 as [|? d ? s4 C4 H4]; subst; clear H3.
  inversion H4; subst. now exists a, b, c, d.
Qed.

(** What a match of [re_number] consists of. *)
Lemma re_number_sound : forall t segs,
  re_match re_number t = Some segs ->
  exists sg ip dt fp rest,
    segs = [sg; ip; dt; fp] /\ t = sg ++ ip ++ dt ++ fp ++ rest /\
    (sg = [] \/ sg = [45%N] \/ sg = [43%N]) /\
    forallb is_digit ip = true /\ (dt = [] \/ dt = [46%N]) /\
    forallb is_digit fp = true /\ fp <> [].
Proof.
  intros t segs H. apply match_items_sound in H as (HF & rest & Hs & _).
  apply Forall2_consumed4 in HF
    as (sg & ip & dt & fp & -> & (S1 & _ & S3) & (I1 & _) & (D1 & _ & D3) & (F1 & F2 & _)).
  simpl in *. exists sg, ip, dt, fp, rest. repeat split; try assumption.
  - now rewrite Hs, <- !app_assoc.
  - destruct sg as [|c [|c' sg]]; simpl in *; try lia; [now left|].
    right. unfold chr in S1. simpl in S1. rewrite !orb_false_r, andb_true_r in S1.
    apply orb_true_iff in S1 as [E|E]; apply N.eqb_eq in E; subst; auto.
  - destruct dt as [|c [|c' dt]]; simpl in *; try lia; [now left|].
    right. unfold dot, chr in D1. simpl in D1. rewrite !orb_false_r, andb_true_r in D1.
    apply N.eqb_eq in D1. now subst.
  - intro E. subst fp. simpl in F2. lia.
Qed.

(** [float] never fails on a token the pattern found. *)
Lemma float_of_token : forall t segs,
  re_match re_number t = Some segs -> exists q, float_of_str (group0 segs) = Some q.
Proof.
  intros t segs H.
  destruct (re_number_sound _ H) as (sg & ip & dt & fp & rest & -> & _ & Hsg & Hi & Hd & Hf & Hne).
  unfold group0. simpl concat. rewrite app_nil_r.
  destruct Hsg as [-> | [-> | ->]].
  - simpl app. rewrite float_of_str_unsigned; [now apply float_body_token|].
    destruct ip as [|c ip]; simpl.
    + destruct Hd as [-> | ->]; simpl; [|split; discriminate].
      destruct fp as [|c fp]; [congruence|]. simpl in Hf.
      apply andb_true_iff in Hf as [Hc _]. apply digit_not_sign in Hc.
      unfold chr in Hc. simpl in Hc.
      split; intros ->; discriminate.
    + simpl in Hi. apply andb_true_iff in Hi as [Hc _]. apply digit_not_sign in Hc.
      unfold chr in Hc. simpl in Hc.
      split; intros ->; discriminate.
  - rewrite float_of_str_body. simpl. now apply float_body_token.
  - rewrite float_of_str_body. simpl. now apply float_body_token.
Qed.

Lemma parse_number_some : forall s,
  existsb is_digit s = true -> exists q, parse_number s = Some q.
Proof.
  intros s H. apply existsb_exists in H as (c & Hin & Hc).
  apply in_split in Hin as (pre & t & ->).
  destruct (@re_search_found re_number pre (c :: t) (@re_number_at_digit c t Hc))
    as (segs & Hs).
  unfold parse_number. rewrite Hs.
  apply re_search_some in Hs as (pre' & t' & _ & Hm).
  now apply float_of_token with t'.
Qed.

Lemma parse_number_digit : forall s q,
  parse_number s = Some q -> existsb is_digit s = true.
Proof.
  intros s q H. unfold parse_number in H.
  destruct (re_search re_number s) as [segs|] eqn:E; [|discriminate].
  apply re_search_some in E as (pre & t & -> & Hm).
  destruct (re_number_sound _ Hm) as (sg & ip & dt & fp & rest & _ & -> & _ & _ & _ & Hf & Hne).
  destruct fp as [|c fp]; [congruence|]. simpl in Hf.
  apply andb_true_iff in Hf as [Hc _].
  apply existsb_exists. exists c. split; [|exact Hc].
  apply in_or_app. right. apply in_or_app. right. apply in_or_app. right.
  apply in_or_app. right. apply in_or_app. left. now left.
Qed.

End NumericMore.

(** X1. A number that [clean_numeric] returns respects every range rule
    whose keyword occurs in the lowercased column name: what the method
    returns is null or a float that lies within the bounds of all matching
    rules, not only of the first. *)
Theorem X1_numeric_within_rules : forall rt value row_idx col_name lg c lg',
  clean_numeric rt value row_idx col_name lg = Ok (c, lg') ->
  c = CNull \/
  exists q, c = CNum (PyFloat q) /\
    forall key r, In (key, r) rules -> contains key (lower col_name) = true ->
    within r q.
Proof.
  intros rt value row_idx col_name lg c lg' H. unfold clean_numeric in H.
  destruct (pd_isna value || str_eqb (strip (py_str rt value)) []);
    [left; now inversion H|].
  destruct (existsb _ null_keywords); [discriminate|].
  destruct (parse_number _) as [num|]; [|discriminate].
  inv_bind_as H b lg1 Hr.
  pose proof (range_check_log _ _ _ _ _ _ _ Hr) as [-> ->].
  inversion H; subst. right. exists num. split; [reflexivity|].
  intros key r Hin Hc. exact (range_check_within _ _ _ _ _ _ _ Hr key r Hin Hc).
Qed.

Lemma X1_numeric_within_rules_witness :
  exists q,
    clean_numeric rt0 (CStr (u "42")) 0 (u "Age_Salary") [] = Ok (CNum (PyFloat q), []) /\
    within (RangeRule (Some 0%Z) (Some 120%Z)) q /\
    within (RangeRule (Some 0%Z) (Some 10000000%Z)) q.
Proof.
  destruct (@X1_numeric_within_rules rt0 (CStr (u "42")) 0%Z (u "Age_Salary") []
              (CNum (PyFloat (42 # 1))) [] eq_refl) as [E|(q & E & Hq)];
    [discriminate|].
  exists q. split; [now rewrite <- E|]. split.
  - apply (Hq (u "age")); [left; reflexivity|reflexivity].
  - apply (Hq (u "salary")); [right; left; reflexivity|reflexivity].
Defined.

(** X2. On a text of ASCII characters the [try] block of [clean_numeric]
    ([re.search] for the numeric token, then [float]) yields no number
    exactly when the text holds no digit: [float] never fails on a token
    the pattern found, and any text with a digit in it yields a number. *)
Theorem X2_no_number_iff_no_digit : forall temp_val,
  forallb (fun c => (c <? 128)%N) temp_val = true ->
  (parse_number temp_val = None <-> existsb is_digit temp_val = false).
Proof.
  intros s _. split; intro H.
  - destruct (existsb is_digit s) eqn:E; [|reflexivity].
    destruct (parse_number_some s E) as (q & Hq). congruence.
  - destruct (parse_number s) as [q|] eqn:E; [|reflexivity].
    apply parse_number_digit in E. congruence.
Qed.

Lemma X2_no_number_iff_no_digit_witness :
  (parse_number (u "abc") = None <-> existsb is_digit (u "abc") = false) /\
  (parse_number (u "about 1,5 kg") = None
   <-> existsb is_digit (u "about 1,5 kg") = false).
Proof.
  split; apply X2_no_number_iff_no_digit; reflexivity.
Defined.

(* ================================================================== *)
(** * clean_email: the form of what it returns *)
(* ================================================================== *)

Section EmailMore.

Lemma email_cp_form : forall c,
  lower_cp (email_cp c) = email_cp c /\ email_cp c <> 35%N /\ email_cp c <> 65312%N.
Proof.
  intro c. unfold email_cp, lower_cp.
  destruct (is_upper c) eqn:U.
  - unfold is_upper in U. apply andb_true_iff in U as [U1 U2].
    apply N.leb_le in U1, U2.
    assert (E1 : ((c + 32 =? 35) = false)%N) by (apply N.eqb_neq; lia).
    assert (E2 : ((c + 32 =? 65312) = false)%N) by (apply N.eqb_neq; lia).
    assert (E3 : is_upper (c + 32) = false).
    { unfold is_upper. apply andb_false_iff. right. apply N.leb_gt. lia. }
    cbv zeta. rewrite E1, E2, E3. repeat split; lia.
  - cbv zeta. destruct (N.eqb_spec c 35) as [->|N1].
    + repeat split; try reflexivity; discriminate.
    + destruct (N.eqb_spec c 65312) as [->|N2].
      * repeat split; try reflexivity; discriminate.
      * rewrite U. repeat split; assumption.
Qed.

Lemma repaired_map : forall rt value,
  repaired rt value = map email_cp (strip (py_str rt value)).
Proof. intros rt value. unfold repaired. apply repair_lower. Qed.

Lemma no_lead_map : forall s, no_lead s -> no_lead (map email_cp s).
Proof. intros [|c s] H; simpl in *; [exact I|]. now rewrite email_cp_space. Qed.

(** The repaired text does not end with white space. *)
Lemma repaired_no_trail : forall rt value, no_lead (rev (repaired rt value)).
Proof.
  intros rt value. rewrite repaired_map, <- map_rev. apply no_lead_map.
  unfold strip, rstrip. rewrite rev_involutive. apply lstrip_no_lead.
Qed.

Lemma Forall2_consumed5 : forall i1 i2 i3 i4 i5 segs,
  Forall2 consumed [i1; i2; i3; i4; i5] segs ->
  exists a b c d e, segs = [a; b; c; d; e] /\
    consumed i1 a /\ consumed i2 b /\ consumed i3 c /\ consumed i4 d /\ consumed i5 e.
Proof.
  intros i1 i2 i3 i4 i5 segs H.
  inversion H as [|? a ? s1 C1 H1]; subst; clear H.
  inversion H1 as [|? b ? s2 C2 H2]; subst; clear H1.
  inversion H2 as [|? c ? s3 C3 H3]; subst; clear H2.
  inversion H3 as [|? d ? s4 C4 H4]; subst; clear H3.
  inversion H4 as [|? e ? s5 C5 H5]; subst; clear H4.
  inversion H5; subst. now exists a, b, c, d, e.
Qed.

Lemma one_char : forall (k : N) (seg : pystr),
  forallb (fun c => (c =? k)%N || false) seg = true ->
  (1 <= length seg)%nat -> (length seg <= 1)%nat -> seg = [k].
Proof.
  intros k [|c [|c' seg]] H L1 L2; simpl in *; try lia.
  rewrite orb_false_r, andb_true_r in H. apply N.eqb_eq in H. now subst.
Qed.

Lemma nonempty_length : forall (A : Type) (l : list A), (1 <= length l)%nat -> l <> [].
Proof. intros A [|x l] H; simpl in *; [lia|discriminate]. Qed.

Lemma length_nonempty : forall (A : Type) (l : list A), l <> [] -> (1 <= length l)%nat.
Proof. intros A [|x l] H; simpl in *; [congruence|lia]. Qed.

(** A match of [re_email] on a text that does not end with a newline. *)
Lemma re_email_sound : forall a segs,
  re_match re_email a = Some segs -> no_lead (rev a) -> email_shape a.
Proof.
  intros a segs H Hend. apply match_items_sound in H as (HF & rest & Hs & He).
  apply Forall2_consumed5 in HF
    as (l & at_ & d & dt & t & -> &
        (L1 & L2 & _) & (A1 & A2 & A3) & (D1 & D2 & _) & (P1 & P2 & P3) & (T1 & T2 & _)).
  simpl in L1, L2, A1, A2, A3, D1, D2, P1, P2, P3, T1, T2.
  assert (at_ = [64%N]) by (apply one_char; assumption). subst at_.
  assert (dt = [46%N]) by (apply one_char; assumption). subst dt.
  assert (rest = []).
  { simpl in He. destruct rest as [|c [|c' rest]]; [reflexivity| |discriminate].
    apply N.eqb_eq in He. subst c. exfalso.
    rewrite Hs, rev_app_distr in Hend. simpl in Hend. discriminate. }
  subst rest. exists l, d, t. repeat split; try assumption;
    try (apply nonempty_length; assumption).
  rewrite Hs. simpl concat. now rewrite !app_nil_r.
Qed.

(** A text of the shape is matched by [re_email]. *)
Lemma re_email_complete : forall a,
  email_shape a -> exists segs, re_match re_email a = Some segs.
Proof.
  intros a (l & d & t & -> & Hl & Hd & Ht & Wl & Wd & Wt).
  unfold re_match, re_email. cbn [items dollar].
  apply match_step_ex;
    [exact Wl|split; simpl; [now apply length_nonempty|exact I]|].
  change (64%N :: d ++ 46%N :: t) with ([64%N] ++ d ++ 46%N :: t).
  apply match_step_ex; [reflexivity|split; simpl; lia|].
  apply match_step_ex;
    [exact Wd|split; simpl; [now apply length_nonempty|exact I]|].
  change (46%N :: t) with ([46%N] ++ t).
  apply match_step_ex; [reflexivity|split; simpl; lia|].
  rewrite <- (app_nil_r t).
  apply match_step_ex;
    [exact Wt|split; simpl; [now apply length_nonempty|exact I]|].
  exists []. reflexivity.
Qed.

Lemma word_no_at : forall l, forallb email_word l = true -> filter (N.eqb 64) l = [].
Proof.
  induction l as [|c l IH]; cbn [filter forallb]; [reflexivity|].
  intro H. apply andb_true_iff in H as [Hc Hl]. unfold email_word in Hc.
  apply negb_true_iff, orb_false_iff in Hc as [_ Hc].
  rewrite N.eqb_sym, Hc. now apply IH.
Qed.

Lemma email_shape_one_at : forall a,
  email_shape a -> length (filter (N.eqb 64) a) = 1%nat.
Proof.
  intros a (l & d & t & -> & _ & _ & _ & Wl & Wd & Wt).
  rewrite filter_app. cbn [filter]. rewrite filter_app. cbn [filter].
  rewrite (word_no_at _ Wl), (word_no_at _ Wd), (word_no_at _ Wt). reflexivity.
Qed.

Lemma app_one_neq : forall (A : Type) (l : list A) x, l ++ [x] <> l.
Proof.
  intros A l x H. apply (f_equal (@length A)) in H.
  rewrite length_app in H. simpl in H. lia.
Qed.

End EmailMore.

(** X3. What [clean_email] returns for a non-null value is a string in
    normal form: without white space at either end, without ASCII capitals,
    and without any [#] or full-width [@] (each has become [@]). *)
Theorem X3_email_normal_form : forall rt value row_idx col_name lg c lg',
  pd_isna value = false ->
  clean_email rt value row_idx col_name lg = Ok (c, lg') ->
  exists a, c = CStr a /\ strip a = a /\ lower a = a /\
    forallb (fun x => negb (x =? 35)%N && negb (x =? 65312)%N) a = true.
Proof.
  intros rt value row_idx col_name lg c lg' Hna H.
  exists (repaired rt value). split.
  - destruct (clean_email_cases rt value row_idx col_name lg Hna) as [E|E];
      rewrite E in H; now inversion H.
  - rewrite repaired_map. split; [|split].
    + now rewrite strip_map, strip_idem.
    + unfold lower. rewrite map_map. apply map_ext. intro x. apply email_cp_form.
    + rewrite forallb_forall. intros x Hx. apply in_map_iff in Hx as (y & <- & _).
      destruct (email_cp_form y) as (_ & N1 & N2).
      apply andb_true_iff. split; apply negb_true_iff; now apply N.eqb_neq.
Qed.

Lemma X3_email_normal_form_witness :
  exists a,
    returned (clean_email rt0 (CStr (u "  Wang#Test.COM ")) 2 (u "email") []) = Some (CStr a) /\
    strip a = a /\ lower a = a.
Proof.
  destruct (@X3_email_normal_form rt0 (CStr (u "  Wang#Test.COM ")) 2%Z (u "email") []
              (CStr (u "wang@test.com")) [] eq_refl eq_refl)
    as (a & E & H1 & H2 & _).
  exists a. split; [now rewrite <- E|]. now split.
Defined.

(** X4. For a non-null value, [clean_email] leaves the log as it was
    exactly when the repaired text has the shape local@domain.tld; such a
    text holds exactly one [@].  Otherwise it appends its one entry. *)
Theorem X4_email_logged_iff_not_shape : forall rt value row_idx col_name lg c lg',
  pd_isna value = false ->
  clean_email rt value row_idx col_name lg = Ok (c, lg') ->
  (lg' = lg <-> email_shape (repaired rt value)) /\
  (lg' = lg -> length (filter (N.eqb 64) (repaired rt value)) = 1%nat) /\
  (lg' = lg \/
   lg' = lg ++ [invalid_email_entry value row_idx col_name (repaired rt value)]).
Proof.
  intros rt value row_idx col_name lg c lg' Hna H.
  unfold clean_email in H. rewrite Hna in H. fold (repaired rt value) in H.
  destruct (re_match re_email (repaired rt value)) as [segs|] eqn:E.
  - inversion H; subst.
    pose proof (re_email_sound _ E (repaired_no_trail rt value)) as Hs.
    split; [split; auto|]. split; [intros _; now apply email_shape_one_at|now left].
  - inversion H; subst. split; [|split].
    + split.
      * intro Heq. exfalso. now apply app_one_neq in Heq.
      * intro Hs. apply re_email_complete in Hs as (segs & Hs). congruence.
    + intro Heq. exfalso. now apply app_one_neq in Heq.
    + now right.
Qed.

Lemma X4_email_logged_iff_not_shape_witness :
  email_shape (repaired rt0 (CStr (u "zhang#example.com"))) /\
  ~ email_shape (repaired rt0 (CStr (u "a#b#c.com"))).
Proof.
  split.
  - apply (@X4_email_logged_iff_not_shape rt0 (CStr (u "zhang#example.com")) 0%Z
             (u "email") [] (CStr (u "zhang@example.com")) [] eq_refl eq_refl).
    reflexivity.
  - intro Hs.
    apply (@X4_email_logged_iff_not_shape rt0 (CStr (u "a#b#c.com")) 0%Z (u "email") []
             (CStr (u "a@b@c.com"))
             [invalid_email_entry (CStr (u "a#b#c.com")) 0 (u "email") (u "a@b@c.com")]
             eq_refl eq_refl) in Hs.
    discriminate.
Defined.

(* ================================================================== *)
(** * clean_date: year-first dates and a second pass *)
(* ================================================================== *)

Section DateMore.

Lemma backtrack_none : forall (A : Type) lo n (try : nat -> option A),
  (forall k, (lo <= k <= n)%nat -> try k = None) -> backtrack lo n try = None.
Proof.
  intros A lo n try. induction n as [|n IH]; intro H; simpl.
  - destruct (Nat.eqb_spec lo 0); [|reflexivity]. apply H. lia.
  - destruct (Nat.ltb_spec (S n) lo); [reflexivity|].
    rewrite (H (S n)) by lia. apply IH. intros k Hk. apply H. lia.
Qed.

(** The first item cannot stop where the second one could go on. *)
Lemma match_items_second : forall it it2 its d s,
  (forall k, (lo it <= k <= cap (hi it) (run_length (cls it) s))%nat ->
             (run_length (cls it2) (skipn k s) < lo it2)%nat) ->
  match_items (it :: it2 :: its) d s = None.
Proof.
  intros it it2 its d s H. cbn [match_items]. apply backtrack_none.
  intros k Hk. specialize (H k Hk).
  pose proof (@match_items_short it2 its d (skipn k s) H) as E.
  cbn [match_items] in E. now rewrite E.
Qed.

Lemma groups3_some : forall m a b c,
  groups3 m = Some (a, b, c) -> exists s1 s2, m = Some [a; s1; b; s2; c].
Proof.
  intros [segs|] a b c H; [|discriminate]. unfold groups3 in H.
  destruct segs as [|x1 [|x2 [|x3 [|x4 [|x5 [|x6 segs]]]]]]; try discriminate.
  inversion H; subst. now exists x2, x4.
Qed.

Lemma one_sep : forall (seg : pystr),
  forallb sep seg = true -> (1 <= length seg)%nat -> (length seg <= 1)%nat ->
  exists c, seg = [c] /\ sep c = true.
Proof.
  intros [|c [|c' seg]] H L1 L2; simpl in *; try lia.
  exists c. split; [reflexivity|]. now apply andb_true_iff in H as [H _].
Qed.

(** What a match of [re_ymd] consists of. *)
Lemma re_ymd_sound : forall s y s1 m s2 d,
  re_match re_ymd s = Some [y; s1; m; s2; d] ->
  digits 4 4 y /\ digits 1 2 m /\ digits 1 2 d.
Proof.
  intros s y s1 m s2 d H. apply match_items_sound in H as (HF & _).
  apply Forall2_consumed5 in HF
    as (a & b & c & e & f & E & (Y1 & Y2 & Y3) & _ & (M1 & M2 & M3) & _ & (D1 & D2 & D3)).
  injection E as E1 E2 E3 E4 E5. subst a b c e f.
  simpl in *. unfold digits. repeat split; assumption.
Qed.

(** What a match of [re_dmy] consists of. *)
Lemma re_dmy_groups : forall s p1 s1 p2 s2 year,
  re_match re_dmy s = Some [p1; s1; p2; s2; year] ->
  digits 1 2 p1 /\ digits 1 2 p2 /\ digits 4 4 year.
Proof.
  intros s p1 s1 p2 s2 year H. apply match_items_sound in H as (HF & _).
  apply Forall2_consumed5 in HF
    as (a & b & c & e & f & E & (Y1 & Y2 & Y3) & _ & (M1 & M2 & M3) & _ & (D1 & D2 & D3)).
  injection E as E1 E2 E3 E4 E5. subst a b c e f.
  simpl in *. unfold digits. repeat split; assumption.
Qed.

(** What a match of [re_dot] consists of. *)
Lemma re_dot_sound : forall s y s1 m s2 d,
  re_match re_dot s = Some [y; s1; m; s2; d] ->
  digits 4 4 y /\ digits 1 2 m /\ digits 1 2 d /\
  exists rest, s = y ++ 46%N :: rest.
Proof.
  intros s y s1 m s2 d H. apply match_items_sound in H as (HF & rest & Hs & _).
  apply Forall2_consumed5 in HF
    as (a & b & c & e & f & E & (Y1 & Y2 & Y3) & (P1 & P2 & P3) & (M1 & M2 & M3) & _
        & (D1 & D2 & D3)).
  injection E as E1 E2 E3 E4 E5. subst a b c e f.
  simpl in Y1, Y2, Y3, P1, P2, P3, M1, M2, M3, D1, D2, D3.
  unfold digits. repeat split; try assumption.
  assert (s1 = [46%N]) by (apply one_char; assumption). subst s1.
  exists ((m ++ s2 ++ d ++ []) ++ rest). rewrite Hs. simpl concat.
  now rewrite <- app_assoc.
Qed.

Lemma skipn_inside : forall (p r : pystr) k,
  forallb is_digit p = true -> (k < length p)%nat ->
  exists c t, skipn k (p ++ r) = c :: t /\ is_digit c = true.
Proof.
  induction p as [|x p IH]; intros r k Hp Hk; simpl in *; [lia|].
  apply andb_true_iff in Hp as [Hx Hp].
  destruct k as [|k]; simpl; [now exists x, (p ++ r)|].
  apply IH; [assumption|lia].
Qed.

Lemma digit_not_sep : forall c, is_digit c = true -> sep c = false.
Proof.
  intros c H. destruct (sep c) eqn:E; [|reflexivity].
  apply sep_not_digit in E. congruence.
Qed.

(** A text that matches [re_dot] matches neither [re_ymd] nor [re_dmy]. *)
Lemma re_dot_only : forall s y s1 m s2 d,
  re_match re_dot s = Some [y; s1; m; s2; d] ->
  re_match re_ymd s = None /\ re_match re_dmy s = None.
Proof.
  intros s y s1 m s2 d H.
  apply re_dot_sound in H as ((Y1 & Y2) & _ & _ & rest & ->).
  assert (Hrun : run_length digit (y ++ 46%N :: rest) = length y)
    by (apply run_length_stop; [exact Y1|reflexivity]).
  split; unfold re_match, re_ymd, re_dmy; cbn [items dollar];
    apply match_items_second; cbn [cls lo hi times one]; rewrite Hrun;
    intros k Hk; unfold cap in Hk.
  - assert (k = length y) by lia. subst k. rewrite skipn_exact. simpl. lia.
  - assert (Hlt : (k < length y)%nat) by lia.
    destruct (@skipn_inside y (46%N :: rest) k Y1 Hlt) as (c & t & -> & Hc).
    simpl. rewrite (digit_not_sep c Hc). lia.
Qed.

Lemma zfill_digits : forall s, digits 1 2 s -> digits 2 2 (zfill 2 s).
Proof.
  intros s [Hd Hl]. unfold digits, zfill. split.
  - rewrite forallb_app, Hd, andb_true_r.
    apply forallb_forall. intros x Hx. apply repeat_spec in Hx. now subst.
  - rewrite length_app, repeat_length. lia.
Qed.

Lemma zfill_full : forall s, digits 2 2 s -> zfill 2 s = s.
Proof.
  intros s [_ Hl]. unfold zfill.
  now replace (2 - length s)%nat with 0%nat by lia.
Qed.

End DateMore.

Section DateStable.

Lemma strip_fixed : forall s, no_lead s -> no_lead (rev s) -> strip s = s.
Proof.
  intros s H1 H2. unfold strip, rstrip.
  rewrite (no_lead_lstrip s H1), (no_lead_lstrip (rev s) H2). apply rev_involutive.
Qed.

Lemma plain_chars : forall c,
  plain c = true -> is_space c = false /\ lower_cp c = c.
Proof.
  intros c H. unfold plain in H.
  assert (B : (45 <= c <= 57)%N).
  { apply orb_true_iff in H as [H|H].
    - unfold is_digit in H. apply andb_true_iff in H as [H1 H2].
      apply N.leb_le in H1, H2. lia.
    - apply N.eqb_eq in H. lia. }
  split.
  - destruct (is_space c) eqn:E; [|reflexivity]. apply is_space_bounds in E. lia.
  - unfold lower_cp, is_upper.
    replace (65 <=? c)%N with false by (symmetry; apply N.leb_gt; lia). reflexivity.
Qed.

Lemma plain_no_lead : forall s, forallb plain s = true -> no_lead s.
Proof.
  intros [|c s] H; simpl in *; [exact I|].
  apply andb_true_iff in H as [H _]. now apply plain_chars in H.
Qed.

Lemma plain_fixed : forall s, forallb plain s = true -> lower (strip s) = s.
Proof.
  intros s H. rewrite strip_fixed.
  - unfold lower. rewrite <- (map_id s) at 2. apply map_ext_in.
    intros c Hc. rewrite forallb_forall in H. now apply plain_chars, H.
  - now apply plain_no_lead.
  - apply plain_no_lead. rewrite forallb_forall in *. intros c Hc.
    apply H. now apply in_rev.
Qed.

Lemma digits_plain : forall lo hi s, digits lo hi s -> forallb plain s = true.
Proof.
  intros lo hi s [H _]. rewrite forallb_forall in *. intros c Hc.
  unfold plain. now rewrite (H c Hc).
Qed.

Lemma iso_date_spelled : forall y m d,
  iso_date y m d = y ++ 45%N :: zfill 2 m ++ 45%N :: zfill 2 d.
Proof. reflexivity. Qed.

Lemma iso_plain : forall y m d,
  digits 4 4 y -> digits 1 2 m -> digits 1 2 d ->
  forallb plain (iso_date y m d) = true.
Proof.
  intros y m d Hy Hm Hd. rewrite iso_date_spelled.
  apply zfill_digits in Hm, Hd.
  rewrite forallb_app. cbn [forallb]. rewrite forallb_app. cbn [forallb].
  rewrite (digits_plain Hy), (digits_plain Hm), (digits_plain Hd). reflexivity.
Qed.

Lemma digits_head : forall lo hi s,
  digits (S lo) hi s -> exists c t, s = c :: t /\ is_digit c = true.
Proof.
  intros lo hi [|c t] [H L]; simpl in *; [lia|].
  apply andb_true_iff in H as [H _]. now exists c, t.
Qed.

Lemma stops_digit_head : forall lo hi s r, digits (S lo) hi s -> stops sep (s ++ r).
Proof.
  intros lo hi s r H. destruct (digits_head H) as (c & t & -> & Hc).
  simpl. now apply digit_not_sep.
Qed.

(** An ISO date is matched by [re_ymd], group by group. *)
Lemma iso_match : forall y mm dd,
  digits 4 4 y -> digits 2 2 mm -> digits 2 2 dd ->
  re_match re_ymd (y ++ 45%N :: mm ++ 45%N :: dd) = Some [y; [45%N]; mm; [45%N]; dd].
Proof.
  intros y mm dd Hy Hm Hd. unfold re_match, re_ymd. cbn [items dollar].
  apply match_step; [apply Hy|reflexivity|split; simpl; apply Hy|].
  change (45%N :: mm ++ 45%N :: dd) with ([45%N] ++ mm ++ 45%N :: dd).
  apply match_step;
    [reflexivity|now apply stops_digit_head with 1%nat 2%nat|split; simpl; lia|].
  apply match_step; [apply Hm|reflexivity|split; simpl; destruct Hm; lia|].
  change (45%N :: dd) with ([45%N] ++ dd).
  apply match_step; [reflexivity| |split; simpl; lia|].
  { rewrite <- (app_nil_r dd). now apply stops_digit_head with 1%nat 2%nat. }
  rewrite <- (app_nil_r dd) at 1.
  apply match_step; [apply Hd|exact I|split; simpl; destruct Hd; lia|].
  reflexivity.
Qed.

Lemma iso_date_match : forall y m d,
  digits 4 4 y -> digits 1 2 m -> digits 1 2 d ->
  re_match re_ymd (iso_date y m d) = Some [y; [45%N]; zfill 2 m; [45%N]; zfill 2 d].
Proof.
  intros y m d Hy Hm Hd. exact (iso_match Hy (zfill_digits Hm) (zfill_digits Hd)).
Qed.

(** [clean_date] returns an ISO date as it is and logs nothing. *)
Lemma iso_stable : forall rt y m d row_idx col_name lg,
  digits 4 4 y -> digits 1 2 m -> digits 1 2 d ->
  clean_date rt (CStr (iso_date y m d)) row_idx col_name lg
    = Ok (CStr (iso_date y m d), lg).
Proof.
  intros rt y m d row_idx col_name lg Hy Hm Hd.
  pose proof (iso_plain Hy Hm Hd) as Hp.
  unfold clean_date. cbn [pd_isna py_str]. rewrite (plain_fixed _ Hp).
  assert (E1 : str_eqb (iso_date y m d) (u "yesterday") = false).
  { destruct (str_eqb _ (u "yesterday")) eqn:E; [|reflexivity].
    apply str_eqb_eq in E. rewrite E in Hp. vm_compute in Hp. discriminate. }
  assert (E2 : str_eqb (iso_date y m d) (u "today") = false).
  { destruct (str_eqb _ (u "today")) eqn:E; [|reflexivity].
    apply str_eqb_eq in E. rewrite E in Hp. vm_compute in Hp. discriminate. }
  rewrite E1, E2, (iso_date_match Hy Hm Hd). cbn [groups3].
  unfold ret. do 3 f_equal.
  rewrite !iso_date_spelled.
  now rewrite (zfill_full (zfill_digits Hm)), (zfill_full (zfill_digits Hd)).
Qed.

Lemma iso_date_shaped : forall y m d,
  digits 4 4 y -> digits 1 2 m -> digits 1 2 d -> iso_shaped (iso_date y m d).
Proof.
  intros y m d Hy Hm Hd. exists y, (zfill 2 m), (zfill 2 d).
  repeat split; try apply Hy; try (now apply zfill_digits).
  rewrite !iso_date_spelled.
  now rewrite (zfill_full (zfill_digits Hm)), (zfill_full (zfill_digits Hd)).
Qed.

Lemma digits_weaken : forall s, digits 2 2 s -> digits 1 2 s.
Proof. intros s [H L]. split; [exact H|lia]. Qed.

Lemma iso_shaped_stable : forall rt s row_idx col_name lg,
  iso_shaped s -> clean_date rt (CStr s) row_idx col_name lg = Ok (CStr s, lg).
Proof.
  intros rt s row_idx col_name lg (y & m & d & Hy & Hm & Hd & ->).
  apply iso_stable; [exact Hy|now apply digits_weaken..].
Qed.

End DateStable.

(** X5. A value whose text is a year-first date, YYYY[-/]M[-/]D or
    YYYY.M.D, is returned as the ISO date of its three groups, a string
    of the form YYYY-MM-DD, and nothing is logged: these two formats never
    report an ambiguity. *)
Theorem X5_year_first_dates : forall rt value row_idx col_name lg y m d,
  pd_isna value = false ->
  groups3 (re_match re_ymd (lower (strip (py_str rt value)))) = Some (y, m, d) \/
  groups3 (re_match re_dot (lower (strip (py_str rt value)))) = Some (y, m, d) ->
  clean_date rt value row_idx col_name lg = Ok (CStr (iso_date y m d), lg) /\
  iso_shaped (iso_date y m d).
Proof.
  intros rt value row_idx col_name lg y m d Hna H.
  assert (Hy : str_eqb (lower (strip (py_str rt value))) (u "yesterday") = false).
  { destruct (str_eqb _ (u "yesterday")) eqn:E; [|reflexivity].
    apply str_eqb_eq in E. rewrite E in H. vm_compute in H.
    destruct H; discriminate. }
  assert (Ht : str_eqb (lower (strip (py_str rt value))) (u "today") = false).
  { destruct (str_eqb _ (u "today")) eqn:E; [|reflexivity].
    apply str_eqb_eq in E. rewrite E in H. vm_compute in H.
    destruct H; discriminate. }
  unfold clean_date. rewrite Hna, Hy, Ht.
  destruct H as [H|H].
  - rewrite H. split; [reflexivity|].
    apply groups3_some in H as (s1 & s2 & H).
    apply re_ymd_sound in H as (D1 & D2 & D3). now apply iso_date_shaped.
  - pose proof H as H'. apply groups3_some in H' as (s1 & s2 & H').
    destruct (re_dot_only _ H') as [E1 E2]. rewrite E1, E2. cbn [groups3].
    rewrite H. split; [reflexivity|].
    apply re_dot_sound in H' as (D1 & D2 & D3 & _). now apply iso_date_shaped.
Qed.

Lemma X5_year_first_dates_witness :
  clean_date rt0 (CStr (u " 2024/3/5 ")) 7 (u "date") [] = Ok (CStr (u "2024-03-05"), []) /\
  clean_date rt0 (CStr (u "2024.03.20")) 7 (u "date") [] = Ok (CStr (u "2024-03-20"), []).
Proof.
  split.
  - apply (@X5_year_first_dates rt0 (CStr (u " 2024/3/5 ")) 7%Z (u "date") []
             (u "2024") (u "3") (u "5") eq_refl (or_introl eq_refl)).
  - apply (@X5_year_first_dates rt0 (CStr (u "2024.03.20")) 7%Z (u "date") []
             (u "2024") (u "03") (u "20") eq_refl (or_intror eq_refl)).
Defined.

(** X6. With a clock that prints ISO dates, [clean_date] is idempotent on
    values: given what it returned, it returns it again.  The second pass
    logs nothing (an ambiguous date is not reported twice), unless the value
    was unreadable: then it was returned as it is, and it is reported
    again. *)
Theorem X6_clean_date_idempotent :
  forall rt value row_idx col_name lg c lg1 row_idx' col_name' lg',
  clock_iso rt ->
  clean_date rt value row_idx col_name lg = Ok (c, lg1) ->
  clean_date rt c row_idx' col_name' lg' = Ok (c, lg') \/
  (c = value /\
   clean_date rt c row_idx' col_name' lg'
     = Ok (c, lg' ++ [invalid_format_entry value row_idx' col_name'])).
Proof.
  intros rt value row_idx col_name lg c lg1 row_idx' col_name' lg' [Ct Cy] H.
  unfold clean_date in H.
  destruct (pd_isna value) eqn:Hna.
  { inversion H; subst. left. unfold clean_date. now rewrite Hna. }
  destruct (str_eqb _ (u "yesterday")) eqn:Ey.
  { inversion H; subst. left. now apply iso_shaped_stable. }
  destruct (str_eqb _ (u "today")) eqn:Et.
  { inversion H; subst. left. now apply iso_shaped_stable. }
  destruct (groups3 (re_match re_ymd _)) as [[[y m] d]|] eqn:G1.
  { inversion H; subst. left.
    apply groups3_some in G1 as (s1 & s2 & G1).
    apply re_ymd_sound in G1 as (D1 & D2 & D3). now apply iso_stable. }
  destruct (groups3 (re_match re_dmy _)) as [[[p1 p2] year]|] eqn:G2.
  { apply groups3_some in G2 as (s1 & s2 & G2).
    apply re_dmy_groups in G2 as (D1 & D2 & D3). left.
    destruct ((int_of_digits p1 <=? 12)%N && (int_of_digits p2 <=? 12)%N).
    - inversion H; subst. now apply iso_stable.
    - destruct (int_of_digits p1 <=? 12)%N; inversion H; subst; now apply iso_stable. }
  destruct (groups3 (re_match re_dot _)) as [[[y m] d]|] eqn:G3.
  { inversion H; subst. left.
    apply groups3_some in G3 as (s1 & s2 & G3).
    apply re_dot_sound in G3 as (D1 & D2 & D3 & _). now apply iso_stable. }
  inversion H; subst. right. split; [reflexivity|].
  unfold clean_date. rewrite Hna, Ey, Et, G1, G2, G3. reflexivity.
Qed.

Lemma X6_clean_date_idempotent_witness :
  clock_iso rt0 /\
  clean_date rt0 (CStr (u "2024-01-02")) 0 (u "date") [] = Ok (CStr (u "2024-01-02"), []).
Proof.
  assert (C : clock_iso rt0).
  { split.
    - exists (u "2024"), (u "06"), (u "02"). repeat split; reflexivity || (simpl; lia).
    - exists (u "2024"), (u "06"), (u "01"). repeat split; reflexivity || (simpl; lia). }
  split; [exact C|].
  destruct (@X6_clean_date_idempotent rt0 (CStr (u "1/2/2024")) 3%Z (u "date") []
              (CStr (u "2024-01-02"))
              [ambiguous_entry (CStr (u "1/2/2024")) 3 (u "date") (u "1") (u "2") (u "2024")]
              0%Z (u "date") [] C eq_refl) as [H|[H _]]; [exact H|discriminate].
Defined.

(* ================================================================== *)
(** * detect_type: what the result depends on *)
(* ================================================================== *)

Section DetectMore.

Lemma filter_filter_same : forall (A : Type) (p : A -> bool) l,
  filter p (filter p l) = filter p l.
Proof.
  intros A p. induction l as [|x l IH]; simpl; [reflexivity|].
  destruct (p x) eqn:E; simpl; [rewrite E; now f_equal|exact IH].
Qed.

Lemma perm_filter : forall (A : Type) (p : A -> bool) l l',
  Permutation l l' -> Permutation (filter p l) (filter p l').
Proof.
  intros A p l l' H. induction H; simpl.
  - constructor.
  - destruct (p x); [now constructor|assumption].
  - destruct (p x), (p y); try apply Permutation_refl; apply perm_swap.
  - now apply perm_trans with (filter p l').
Qed.

Lemma perm_count : forall (A : Type) (p : A -> bool) l l',
  Permutation l l' -> count p l = count p l'.
Proof.
  intros A p l l' H. unfold count. now apply Permutation_length, perm_filter.
Qed.

Lemma detect_type_non_null : forall rt name values,
  detect_type rt name values = detect_type rt name (non_null values).
Proof.
  intros rt name values. unfold detect_type, non_null.
  now rewrite filter_filter_same.
Qed.

Lemma lower_cp_not_upper : forall c, is_upper (lower_cp c) = false.
Proof.
  intro c. unfold lower_cp. destruct (is_upper c) eqn:E; [|exact E].
  unfold is_upper in *. apply andb_true_iff in E as [E1 E2].
  apply N.leb_le in E1, E2. apply andb_false_iff. right. apply N.leb_gt. lia.
Qed.

(** A lowercased text is never a single capital letter. *)
Lemma lower_not_capital : forall s k,
  is_upper k = true -> str_eqb (lower s) [k] = false.
Proof.
  intros s k Hk. destruct (str_eqb (lower s) [k]) eqn:E; [|reflexivity].
  apply str_eqb_eq in E. destruct s as [|c [|c' s]]; simpl in E; try discriminate.
  inversion E as [E']. pose proof (lower_cp_not_upper c) as H. congruence.
Qed.

Lemma filter_all : forall (A : Type) (p : A -> bool) l,
  (forall x, In x l -> p x = true) -> filter p l = l.
Proof.
  intros A p. induction l as [|x l IH]; intro H; simpl; [reflexivity|].
  rewrite (H x (or_introl eq_refl)). f_equal. apply IH. intros y Hy. apply H. now right.
Qed.

End DetectMore.

(** X7. [detect_type] depends on the name of the column and on the
    multiset of its non-null values only: null cells and the order of the
    cells do not change the type. *)
Theorem X7_detect_type_multiset : forall rt name values values',
  Permutation (non_null values) (non_null values') ->
  detect_type rt name values = detect_type rt name values'.
Proof.
  intros rt name values values' H.
  rewrite (detect_type_non_null rt name values), (detect_type_non_null rt name values').
  assert (P : Permutation (filter (fun c => negb (pd_isna c)) (non_null values))
                          (filter (fun c => negb (pd_isna c)) (non_null values')))
    by now apply perm_filter.
  unfold detect_type.
  set (l := filter (fun c => negb (pd_isna c)) (non_null values)) in *.
  set (l' := filter (fun c => negb (pd_isna c)) (non_null values')) in *.
  rewrite (Permutation_length P).
  rewrite (perm_count (is_numeric rt) P).
  rewrite (perm_count (str_matched email_like_pattern) P).
  rewrite (perm_count (fun c => existsb (str_eqb (lower (py_str rt c))) bool_values) P).
  replace (map (fun pattern => count (fun c => matched pattern (py_str rt c)) l)
               date_patterns)
    with (map (fun pattern => count (fun c => matched pattern (py_str rt c)) l')
              date_patterns)
    by (apply map_ext; intro r; symmetry; now apply perm_count).
  reflexivity.
Qed.

Lemma X7_detect_type_multiset_witness :
  detect_type rt0 (u "contact") [CStr (u "a#b.co"); CNull; CStr (u "x")]
    = detect_type rt0 (u "contact") [CStr (u "x"); CStr (u "a#b.co")].
Proof.
  apply X7_detect_type_multiset. simpl. apply perm_swap.
Defined.

(** X8. The capital entries ['T'] and ['F'] of [bool_values] are dead: the
    values are lowercased before the membership test, so the test gives
    what it gives on the eight lowercase entries. *)
Theorem X8_capital_bool_values_dead : forall rt c,
  existsb (str_eqb (lower (py_str rt c))) bool_values
    = existsb (str_eqb (lower (py_str rt c))) (firstn 8 bool_values).
Proof.
  intros rt c. unfold bool_values. cbn [map firstn existsb].
  change (u "T") with [84%N]. change (u "F") with [70%N].
  rewrite (lower_not_capital (py_str rt c) 84) by reflexivity.
  rewrite (lower_not_capital (py_str rt c) 70) by reflexivity.
  reflexivity.
Qed.

(** X9. A column without string cells that has at least one non-null cell
    (a column of a numeric dtype) is classified number whatever its name. *)
Theorem X9_numeric_column_is_number : forall rt name values,
  non_null values <> [] ->
  (forall s, ~ In (CStr s) values) ->
  detect_type rt name values = number.
Proof.
  intros rt name values Hne Hns. unfold detect_type. fold (non_null values).
  destruct (non_null values) as [|c l] eqn:E; [congruence|].
  change (length (c :: l) =? 0)%nat with false. cbv iota.
  assert (Hall : forall x, In x (c :: l) -> is_numeric rt x = true).
  { intros x Hx. rewrite <- E in Hx. unfold non_null in Hx.
    apply filter_In in Hx as [Hin Hnn].
    destruct x as [|n|s]; [discriminate|reflexivity|]. now apply Hns in Hin. }
  unfold count. rewrite (filter_all _ _ Hall). unfold above.
  assert (Hlt : (8 * length (c :: l) <? 10 * length (c :: l))%nat = true)
    by (apply Nat.ltb_lt; simpl length; lia).
  now rewrite Hlt.
Qed.

Lemma X9_numeric_column_is_number_witness :
  detect_type rt0 (u "email") [CNum (PyInt 3); CNull; CNum (PyFloat (5 # 2))] = number.
Proof.
  apply X9_numeric_column_is_number; [discriminate|].
  intros s [H|[H|[H|[]]]]; discriminate.
Defined.

(* ================================================================== *)
(** * clean_dataframe: column by column *)
(* ================================================================== *)

Section RunsMore.

Context {S A B : Type}.

Lemma mapM_Forall2 : forall (f : A -> ST S B) l s bs s',
  mapM f l s = Ok (bs, s') ->
  Forall2 (fun a b => exists s1 s2, f a s1 = Ok (b, s2)) l bs.
Proof.
  induction l as [|a l IH]; intros s bs s' H; cbn [mapM] in H.
  - inversion H; subst. constructor.
  - inv_bind_as H b s1 H1. inv_bind_as H bs' s2 H2. inversion H; subst.
    constructor; [eauto|]. eapply IH; eassumption.
Qed.

Lemma mapM_inv_in : forall (P : S -> Prop) (f : A -> ST S B) l,
  (forall a s b s', In a l -> P s -> f a s = Ok (b, s') -> P s') ->
  forall s bs s', P s -> mapM f l s = Ok (bs, s') -> P s'.
Proof.
  intros P f. induction l as [|a l IH]; intros Hf s bs s' Hs H; cbn [mapM] in H.
  - now inversion H; subst.
  - inv_bind_as H b s1 H1. inv_bind_as H bs' s2 H2. inversion H; subst.
    apply (IH (fun a' t b' t' Hin => Hf a' t b' t' (or_intror Hin)) s1 bs' s'); [|exact H2].
    exact (Hf a s b s1 (or_introl eq_refl) Hs H1).
Qed.

(** A loop that keeps [P] and whose step for [c0] brings about [Q], which
    every step then keeps, ends in [Q] when [c0] is among its items. *)
Lemma for_each_reach : forall (P Q : S -> Prop) (f : A -> ST S unit) (c0 : A),
  (forall a s s', P s -> f a s = Ok (tt, s') -> P s') ->
  (forall s s', P s -> f c0 s = Ok (tt, s') -> Q s') ->
  (forall a s s', P s -> Q s -> f a s = Ok (tt, s') -> Q s') ->
  forall l s s', (In c0 l \/ Q s) -> P s -> for_each f l s = Ok (tt, s') -> Q s'.
Proof.
  intros P Q f c0 HP Hc HQ. induction l as [|a l IH]; intros s s' Hin Hs H;
    cbn [for_each] in H.
  - inversion H; subst. destruct Hin as [[]|Hq]. exact Hq.
  - inv_bind_as H x s1 H1. destruct x.
    apply (IH s1 s'); [|exact (HP _ _ _ Hs H1)|exact H].
    destruct Hin as [[->|Hin]|Hq].
    + right. exact (Hc _ _ Hs H1).
    + now left.
    + right. exact (HQ _ _ _ Hs Hq H1).
Qed.

End RunsMore.

Section Columns.

Lemma get_set_same : forall t col x, get_column (set_column t col x) col = Some x.
Proof.
  induction t as [|[name old] t IH]; intros col x; simpl.
  - now rewrite str_eqb_refl.
  - destruct (str_eqb name col) eqn:E; simpl; rewrite E; [reflexivity|apply IH].
Qed.

Lemma enumerate_Forall2 : forall (A B : Type) (R : Z * A -> B -> Prop) (l : list A) i out,
  Forall2 R (enumerate_from i l) out ->
  Forall2 (fun v c => exists j, R (j, v) c) l out.
Proof.
  induction l as [|a l IH]; intros i out H; simpl in H; inversion H; subst.
  - constructor.
  - constructor; [eauto|]. eapply IH; eassumption.
Qed.

Lemma clean_numeric_kind : forall rt v i col lg c lg',
  clean_numeric rt v i col lg = Ok (c, lg') -> float_or_null c.
Proof.
  intros rt v i col lg c lg' H. unfold clean_numeric in H.
  destruct (pd_isna v || str_eqb (strip (py_str rt v)) []);
    [left; now inversion H|].
  destruct (existsb _ null_keywords); [discriminate|].
  destruct (parse_number _) as [num|]; [|discriminate].
  inv_bind_as H b lg1 Hr. apply range_check_log in Hr as [-> ->].
  inversion H; subst. right. now exists num.
Qed.

Lemma pd_to_numeric_floats : forall rt l,
  Forall float_or_null l -> pd_to_numeric rt l = l.
Proof.
  intros rt l H. unfold pd_to_numeric.
  assert (E : map (coerce_cell rt) l = l).
  { rewrite <- (map_id l) at 2. apply map_ext_in. intros c Hc.
    rewrite Forall_forall in H. destruct (H c Hc) as [->|[q ->]]; reflexivity. }
  rewrite E. destruct (forallb is_int_cell l); [reflexivity|].
  rewrite <- (map_id l) at 2. apply map_ext_in. intros c Hc.
  rewrite Forall_forall in H. destruct (H c Hc) as [->|[q ->]]; reflexivity.
Qed.

Lemma pd_to_numeric_no_text : forall rt l, Forall no_text (pd_to_numeric rt l).
Proof.
  intros rt l. unfold pd_to_numeric.
  assert (H : Forall no_text (map (coerce_cell rt) l)).
  { apply Forall_forall. intros c Hc. apply in_map_iff in Hc as (v & <- & _).
    destruct v as [|n|s]; simpl; try exact I. now destruct (to_numeric_str rt s). }
  destruct (forallb is_int_cell _); [exact H|].
  apply Forall_forall. intros c Hc. apply in_map_iff in Hc as (v & <- & Hv).
  rewrite Forall_forall in H. specialize (H v Hv).
  destruct v as [|[z|q]|s]; simpl; auto.
Qed.

Lemma float_or_null_no_text : forall c, float_or_null c -> no_text c.
Proof. intros c [->|[q ->]]; exact I. Qed.

Lemma cleaned_number_kind : forall rt col cells out,
  Forall2 (cell_cleaned rt number col) cells out -> Forall float_or_null out.
Proof.
  intros rt col cells out H. induction H as [|v c cells out (i & lg & lg' & Hc) _ IH];
    constructor; [|exact IH].
  now apply clean_numeric_kind in Hc.
Qed.

End Columns.

Section Steps.

Variable rt : runtime.
Variable T : table.
Variable field_types : field_map.
Variables df dc orig : nat.
Hypothesis df_dc : df <> dc.
Hypothesis orig_dc : orig <> dc.

Lemma frame_after_setcol : forall w col out lg' w' Tc,
  frame_at w dc = Some Tc ->
  setcol dc col out (World (frames w) lg') = Ok (tt, w') ->
  frame_at w' dc = Some (set_column Tc col out) /\ cleaning_log w' = lg'.
Proof.
  intros w col out lg' w' Tc Hc H. apply setcol_ok in H as (t & Ht & ->).
  unfold frame_at in *. cbn [frames cleaning_log] in *.
  rewrite Hc in Ht. inversion Ht; subst t. split; [|reflexivity].
  apply update_nth_same. apply nth_error_Some. congruence.
Qed.

(** What one step of the first loop does to the frame being cleaned. *)
Lemma clean_column_sets : forall a w w',
  Inv T field_types df dc orig w ->
  clean_column rt df dc field_types a w = Ok (tt, w') ->
  exists Tc, frame_at w dc = Some Tc /\
    ((frame_at w' dc = Some Tc /\
      forall ft, dict_get field_types a = Some ft -> ft = text \/ ft = boolean) \/
     (exists ft cells out,
        dict_get field_types a = Some ft /\
        (ft = number \/ ft = date \/ ft = email) /\
        get_column T a = Some cells /\
        frame_at w' dc = Some (set_column Tc a out) /\
        Forall2 (cell_cleaned rt ft a) cells out)).
Proof.
  intros a w w' (Hdf & _ & (Tc & Hc & _) & _) H. exists Tc. split; [exact Hc|].
  unfold clean_column in H.
  destruct (dict_get field_types a) as [ft|] eqn:E;
    [|left; inversion H; subst; split; [exact Hc|discriminate]].
  destruct ft.
  - left. inversion H; subst. split; [exact Hc|]. intros ft E'. left. congruence.
  - right. inv_bind_as H cells w1 H1. apply getcol_ok in H1 as (-> & t & Ht & Hg).
    rewrite Hdf in Ht. inversion Ht; subst t.
    inv_bind_as H cleaned_list w2 H2. apply on_log_ok in H2 as (lg' & Hm & ->).
    destruct (@frame_after_setcol w _ _ _ _ Tc Hc H) as [Hf _].
    assert (F : Forall2 (cell_cleaned rt number a) cells cleaned_list).
    { apply mapM_Forall2 in Hm. unfold enumerate in Hm.
      apply enumerate_Forall2 in Hm.
      eapply Forall2_impl; [|exact Hm].
      intros v c (j & lg1 & lg2 & Hj). simpl in Hj. now exists j, lg1, lg2. }
    rewrite (pd_to_numeric_floats rt (cleaned_number_kind F)) in Hf.
    exists number, cells, cleaned_list. repeat split; auto.
  - right. inv_bind_as H cells w1 H1. apply getcol_ok in H1 as (-> & t & Ht & Hg).
    rewrite Hdf in Ht. inversion Ht; subst t.
    inv_bind_as H out w2 H2. apply on_log_ok in H2 as (lg' & Hm & ->).
    destruct (@frame_after_setcol w _ _ _ _ Tc Hc H) as [Hf _].
    exists date, cells, out. repeat split; auto.
    apply mapM_Forall2 in Hm. exact Hm.
  - right. inv_bind_as H cells w1 H1. apply getcol_ok in H1 as (-> & t & Ht & Hg).
    rewrite Hdf in Ht. inversion Ht; subst t.
    inv_bind_as H out w2 H2. apply on_log_ok in H2 as (lg' & Hm & ->).
    destruct (@frame_after_setcol w _ _ _ _ Tc Hc H) as [Hf _].
    exists email, cells, out. repeat split; auto.
    apply mapM_Forall2 in Hm. exact Hm.
  - left. inversion H; subst. split; [exact Hc|]. intros ft E'. right. congruence.
Qed.

(** What one step of the last loop does to the frame being cleaned. *)
Lemma salary_pass_sets : forall a w w',
  Inv T field_types df dc orig w ->
  salary_pass rt dc a w = Ok (tt, w') ->
  cleaning_log w' = cleaning_log w /\
  exists Tc, frame_at w dc = Some Tc /\
    ((contains (u "salary") (lower a) = false /\ frame_at w' dc = Some Tc) \/
     (contains (u "salary") (lower a) = true /\
      exists cs, get_column Tc a = Some cs /\
        frame_at w' dc = Some (set_column Tc a (pd_to_numeric rt cs)))).
Proof.
  intros a w w' (_ & _ & (Tc & Hc & _) & _) H. unfold salary_pass in H.
  destruct (contains (u "salary") (lower a)) eqn:E.
  - inv_bind_as H cs w1 H1. apply getcol_ok in H1 as (-> & t & Ht & Hg).
    rewrite Hc in Ht. inversion Ht; subst t.
    destruct w as [fr lg]. cbn [frames cleaning_log] in *.
    destruct (@frame_after_setcol (World fr lg) _ _ _ _ Tc Hc H) as [Hf Hl].
    split; [exact Hl|]. exists Tc. split; [exact Hc|]. right.
    split; [reflexivity|]. now exists cs.
  - inversion H; subst. split; [reflexivity|]. exists Tc. split; [exact Hc|].
    left. now split.
Qed.

End Steps.

(** The two loops of a run of [clean_dataframe] that returns. *)
Lemma clean_dataframe_loops : forall rt df field_types w T dc orig lg w',
  frame_at w df = Some T ->
  clean_dataframe rt df field_types w = Ok ((dc, orig, lg), w') ->
  exists w4 tc,
    dc = length (frames w) /\ orig = S (length (frames w)) /\
    for_each (clean_column rt df dc field_types) (columns T)
             (World ((frames w ++ [T]) ++ [T]) []) = Ok (tt, w4) /\
    frame_at w4 dc = Some tc /\
    for_each (salary_pass rt dc) (columns tc) w4 = Ok (tt, w') /\
    lg = cleaning_log w'.
Proof.
  intros rt df field_types w T dc orig lg w' HT H.
  unfold clean_dataframe in H.
  inv_bind_as H x0 w0 H0. inversion H0; subst; clear H0.
  inv_bind_as H dc' w1 H1. apply copy_ok in H1 as (t1 & Ht1 & -> & ->).
  inv_bind_as H orig' w2 H2. apply copy_ok in H2 as (t2 & Ht2 & -> & ->).
  inv_bind_as H t3 w3 H3. apply deref_ok in H3 as (Ht3 & ->).
  unfold frame_at in Ht1, Ht2, Ht3, HT. cbn [frames cleaning_log] in *.
  assert (Hlt : (df < length (frames w))%nat) by (apply nth_error_Some; congruence).
  rewrite HT in Ht1. inversion Ht1; subst t1.
  rewrite nth_error_app1, nth_error_app1 in Ht3 by (rewrite ?length_app; simpl; lia).
  rewrite HT in Ht3. inversion Ht3; subst t3.
  inv_bind_as H x4 w4 H4. destruct x4.
  inv_bind_as H tc w5 H5. apply deref_ok in H5 as (Htc & ->).
  inv_bind_as H x6 w6 H6. destruct x6.
  inv_bind_as H lg7 w7 H7. inversion H7; subst; clear H7. inversion H; subst; clear H.
  rewrite nth_error_app1 in Ht2 by lia. rewrite HT in Ht2. inversion Ht2; subst t2.
  exists w4, tc. rewrite length_app. simpl length. rewrite Nat.add_1_r.
  repeat split; auto.
Qed.

Section ColumnFacts.

Variable rt : runtime.
Variable T : table.
Variable field_types : field_map.
Variables df dc orig : nat.
Hypothesis df_dc : df <> dc.
Hypothesis orig_dc : orig <> dc.

Variable col : pystr.
Variable ft : FieldType.
Variable cells : series.
Hypothesis col_type : dict_get field_types col = Some ft.
Hypothesis col_cells : get_column T col = Some cells.

Lemma str_eqb_false : forall a b, str_eqb a b = false -> a <> b.
Proof. intros a b H E. subst. now rewrite str_eqb_refl in H. Qed.

Lemma cleaned_kept_by_column : forall a w w',
  Inv T field_types df dc orig w -> holds_cleaned rt ft dc col cells w ->
  clean_column rt df dc field_types a w = Ok (tt, w') ->
  holds_cleaned rt ft dc col cells w'.
Proof.
  intros a w w' HI (Tc0 & out & Hc0 & Hg0 & F0) H.
  destruct (@clean_column_sets rt T field_types df dc orig a w w' HI H)
    as (Tc & Hc & [[Hf _] | (ft' & cells' & out' & E' & _ & Hg' & Hf & F)]);
    rewrite Hc in Hc0; inversion Hc0; subst Tc0.
  - now exists Tc, out.
  - destruct (str_eqb a col) eqn:E.
    + apply str_eqb_eq in E. subst a.
      assert (ft' = ft) by congruence. assert (cells' = cells) by congruence. subst.
      exists (set_column Tc col out'), out'. repeat split; try assumption.
      apply get_set_same.
    + apply str_eqb_false in E.
      exists (set_column Tc a out'), out. repeat split; try assumption.
      rewrite get_set_other by congruence. exact Hg0.
Qed.

Lemma cleaned_made_by_column : forall w w',
  ft = number \/ ft = date \/ ft = email ->
  Inv T field_types df dc orig w ->
  clean_column rt df dc field_types col w = Ok (tt, w') ->
  holds_cleaned rt ft dc col cells w'.
Proof.
  intros w w' Hk HI H.
  destruct (@clean_column_sets rt T field_types df dc orig col w w' HI H)
    as (Tc & Hc & [[_ Hty] | (ft' & cells' & out' & E' & _ & Hg' & Hf & F)]).
  - destruct (Hty ft col_type) as [->| ->]; destruct Hk as [Hk|[Hk|Hk]]; discriminate.
  - assert (ft' = ft) by congruence. assert (cells' = cells) by congruence. subst.
    exists (set_column Tc col out'), out'. repeat split; try assumption.
    apply get_set_same.
Qed.

Lemma cleaned_kept_by_salary : forall a w w',
  ft = number \/ contains (u "salary") (lower col) = false ->
  Inv T field_types df dc orig w -> holds_cleaned rt ft dc col cells w ->
  salary_pass rt dc a w = Ok (tt, w') ->
  holds_cleaned rt ft dc col cells w'.
Proof.
  intros a w w' Hk HI (Tc0 & out & Hc0 & Hg0 & F0) H.
  destruct (@salary_pass_sets rt T field_types df dc orig a w w' HI H)
    as (_ & Tc & Hc & [[_ Hf] | (Hs & cs & Hg & Hf)]);
    rewrite Hc in Hc0; inversion Hc0; subst Tc0.
  - now exists Tc, out.
  - destruct (str_eqb a col) eqn:E.
    + apply str_eqb_eq in E. subst a.
      destruct Hk as [->|Hk]; [|congruence].
      assert (cs = out) by congruence. subst cs.
      rewrite (pd_to_numeric_floats rt (cleaned_number_kind F0)) in Hf.
      exists (set_column Tc col out), out. repeat split; try assumption.
      apply get_set_same.
    + apply str_eqb_false in E.
      exists (set_column Tc a (pd_to_numeric rt cs)), out. repeat split; try assumption.
      rewrite get_set_other by congruence. exact Hg0.
Qed.

Lemma no_text_by_salary : forall a w w',
  Inv T field_types df dc orig w ->
  (a = col /\ contains (u "salary") (lower col) = true) \/ holds_no_text dc col w ->
  salary_pass rt dc a w = Ok (tt, w') ->
  holds_no_text dc col w'.
Proof.
  intros a w w' HI Hq H.
  destruct (@salary_pass_sets rt T field_types df dc orig a w w' HI H)
    as (_ & Tc & Hc & [[Hn Hf] | (Hs & cs & Hg & Hf)]).
  - destruct Hq as [[-> Hq]|(Tc0 & out & Hc0 & Hg0 & F0)]; [congruence|].
    rewrite Hc in Hc0. inversion Hc0; subst Tc0. now exists Tc, out.
  - destruct (str_eqb a col) eqn:E.
    + apply str_eqb_eq in E. subst a.
      exists (set_column Tc col (pd_to_numeric rt cs)), (pd_to_numeric rt cs).
      repeat split; [exact Hf|apply get_set_same|apply pd_to_numeric_no_text].
    + apply str_eqb_false in E.
      destruct Hq as [[-> _]|(Tc0 & out & Hc0 & Hg0 & F0)]; [congruence|].
      rewrite Hc in Hc0. inversion Hc0; subst Tc0.
      exists (set_column Tc a (pd_to_numeric rt cs)), out. repeat split; try assumption.
      rewrite get_set_other by congruence. exact Hg0.
Qed.

End ColumnFacts.

Lemma Forall2_same : forall (A : Type) (l : list A), Forall2 (fun v c => c = v) l l.
Proof. induction l; constructor; auto. Qed.

(** The invariant of the loops together with a fact about one column. *)
Lemma loops_keep : forall rt T field_types df n (Q : world -> Prop) l1 l2 w3 w4 w',
  df <> n ->
  Inv T field_types df n (S n) w3 -> Q w3 ->
  (forall a s s', Inv T field_types df n (S n) s -> Q s ->
     clean_column rt df n field_types a s = Ok (tt, s') -> Q s') ->
  (forall a s s', Inv T field_types df n (S n) s -> Q s ->
     salary_pass rt n a s = Ok (tt, s') -> Q s') ->
  for_each (clean_column rt df n field_types) l1 w3 = Ok (tt, w4) ->
  for_each (salary_pass rt n) l2 w4 = Ok (tt, w') ->
  Q w'.
Proof.
  intros rt T field_types df n Q l1 l2 w3 w4 w' N1 I3 Q3 HC HS L1 L2.
  assert (N2 : S n <> n) by lia.
  assert (PQ4 : Inv T field_types df n (S n) w4 /\ Q w4).
  { apply for_each_inv
      with (P := fun s => Inv T field_types df n (S n) s /\ Q s)
           (f := clean_column rt df n field_types) (l := l1) (s := w3);
      [|now split|exact L1].
    intros a s s' [HI HQ] Hr. split; [|now apply (HC a s s')].
    exact (@clean_column_inv rt T field_types df n (S n) N1 N2 a s s' HI Hr). }
  enough (R : Inv T field_types df n (S n) w' /\ Q w') by apply R.
  apply for_each_inv
    with (P := fun s => Inv T field_types df n (S n) s /\ Q s)
         (f := salary_pass rt n) (l := l2) (s := w4) (s' := w');
    [|exact PQ4|exact L2].
  intros a s s' [HI HQ] Hr. split; [|now apply (HS a s s')].
  exact (@salary_pass_inv rt T field_types df n (S n) N1 N2 a s s' HI Hr).
Qed.

(** After a run that returns, a typed column holds what its method returns,
    cell by cell. *)
Lemma column_cleaned : forall rt df field_types w T dc orig lg w' col ft cells,
  frame_at w df = Some T ->
  clean_dataframe rt df field_types w = Ok ((dc, orig, lg), w') ->
  dict_get field_types col = Some ft ->
  get_column T col = Some cells ->
  ft = number \/ contains (u "salary") (lower col) = false ->
  holds_cleaned rt ft dc col cells w'.
Proof.
  intros rt df field_types w T dc orig lg w' col ft cells HT H Hty Hcells Hk.
  destruct (@clean_dataframe_loops rt df field_types w T dc orig lg w' HT H)
    as (w4 & tc & -> & -> & L1 & Htc & L2 & _).
  set (n := length (frames w)) in *.
  assert (N1 : df <> n).
  { unfold n. intro E. unfold frame_at in HT.
    assert (df < length (frames w))%nat by (apply nth_error_Some; congruence). lia. }
  assert (N2 : S n <> n) by lia.
  pose proof (@inv_start T field_types df w HT) as I3. fold n in I3.
  set (w3 := World ((frames w ++ [T]) ++ [T]) []) in *.
  assert (KC : forall a s s', Inv T field_types df n (S n) s ->
             holds_cleaned rt ft n col cells s ->
             clean_column rt df n field_types a s = Ok (tt, s') ->
             holds_cleaned rt ft n col cells s').
  { intros a s s' HI HQ Hr.
    exact (@cleaned_kept_by_column rt T field_types df n (S n) col ft cells
             Hty Hcells a s s' HI HQ Hr). }
  assert (KS : forall a s s', Inv T field_types df n (S n) s ->
             holds_cleaned rt ft n col cells s ->
             salary_pass rt n a s = Ok (tt, s') ->
             holds_cleaned rt ft n col cells s').
  { intros a s s' HI HQ Hr.
    eapply cleaned_kept_by_salary; eassumption. }
  assert (I4 : Inv T field_types df n (S n) w4).
  { apply for_each_inv
      with (P := Inv T field_types df n (S n))
           (f := clean_column rt df n field_types) (l := columns T) (s := w3);
      [|exact I3|exact L1].
    intros a s s' HI Hr.
    exact (@clean_column_inv rt T field_types df n (S n) N1 N2 a s s' HI Hr). }
  assert (Q0 : ft = text \/ ft = boolean -> holds_cleaned rt ft n col cells w3).
  { intro Hft. exists T, cells. destruct I3 as (_ & _ & (Tc & Hc & _) & _).
    unfold w3, frame_at in *. cbn [frames] in *.
    assert (Hn : nth_error ((frames w ++ [T]) ++ [T]) n = Some T).
    { rewrite nth_error_app1 by (rewrite length_app; simpl; unfold n; lia).
      rewrite nth_error_app2 by (unfold n; lia). unfold n. now rewrite Nat.sub_diag. }
    repeat split; [exact Hn|exact Hcells|].
    destruct Hft as [-> | ->]; apply Forall2_same. }
  assert (Q4 : holds_cleaned rt ft n col cells w4).
  { assert (Hft : (ft = number \/ ft = date \/ ft = email) \/ (ft = text \/ ft = boolean))
      by (destruct ft; auto).
    destruct Hft as [Hft|Hft].
    - apply for_each_reach
        with (P := Inv T field_types df n (S n)) (Q := holds_cleaned rt ft n col cells)
             (f := clean_column rt df n field_types) (c0 := col) (l := columns T)
             (s := w3);
        [| |exact KC| |exact I3|exact L1].
      + intros a s s' HI Hr.
        exact (@clean_column_inv rt T field_types df n (S n) N1 N2 a s s' HI Hr).
      + intros s s' HI Hr.
        exact (@cleaned_made_by_column rt T field_types df n (S n) col ft cells
                 Hty Hcells s s' Hft HI Hr).
      + left. now apply get_column_in with cells.
    - enough (R : Inv T field_types df n (S n) w4 /\ holds_cleaned rt ft n col cells w4)
        by apply R.
      apply for_each_inv
        with (P := fun s => Inv T field_types df n (S n) s /\
                            holds_cleaned rt ft n col cells s)
             (f := clean_column rt df n field_types) (l := columns T) (s := w3);
        [|split; [exact I3|now apply Q0]|exact L1].
      intros a s s' [HI HQ] Hr. split; [|now apply (KC a s s')].
      exact (@clean_column_inv rt T field_types df n (S n) N1 N2 a s s' HI Hr). }
  enough (R : Inv T field_types df n (S n) w' /\ holds_cleaned rt ft n col cells w')
    by apply R.
  apply for_each_inv
    with (P := fun s => Inv T field_types df n (S n) s /\
                        holds_cleaned rt ft n col cells s)
         (f := salary_pass rt n) (l := columns tc) (s := w4) (s' := w');
    [|now split|exact L2].
  intros a s s' [HI HQ] Hr. split; [|now apply (KS a s s')].
  exact (@salary_pass_inv rt T field_types df n (S n) N1 N2 a s s' HI Hr).
Qed.

(** After a run that returns, a column whose name contains "salary" holds
    no string. *)
Lemma salary_column_no_text : forall rt df field_types w T dc orig lg w' col,
  frame_at w df = Some T ->
  clean_dataframe rt df field_types w = Ok ((dc, orig, lg), w') ->
  In col (columns T) ->
  contains (u "salary") (lower col) = true ->
  holds_no_text dc col w'.
Proof.
  intros rt df field_types w T dc orig lg w' col HT H Hin Hs.
  destruct (@clean_dataframe_loops rt df field_types w T dc orig lg w' HT H)
    as (w4 & tc & -> & -> & L1 & Htc & L2 & _).
  set (n := length (frames w)) in *.
  assert (N1 : df <> n).
  { unfold n. intro E. unfold frame_at in HT.
    assert (df < length (frames w))%nat by (apply nth_error_Some; congruence). lia. }
  assert (N2 : S n <> n) by lia.
  pose proof (@inv_start T field_types df w HT) as I3. fold n in I3.
  assert (I4 : Inv T field_types df n (S n) w4).
  { apply for_each_inv
      with (P := Inv T field_types df n (S n))
           (f := clean_column rt df n field_types) (l := columns T)
           (s := World ((frames w ++ [T]) ++ [T]) []);
      [|exact I3|exact L1].
    intros a s s' HI Hr.
    exact (@clean_column_inv rt T field_types df n (S n) N1 N2 a s s' HI Hr). }
  assert (Hcols : In col (columns tc)).
  { destruct I4 as (_ & _ & (Tc & Hc & Hsh & _) & _).
    rewrite Htc in Hc. inversion Hc; subst Tc.
    now rewrite (columns_shape tc T Hsh). }
  apply for_each_reach
    with (P := Inv T field_types df n (S n)) (Q := holds_no_text n col)
         (f := salary_pass rt n) (c0 := col) (l := columns tc) (s := w4);
    [| | | |exact I4|exact L2].
  - intros a s s' HI Hr.
    exact (@salary_pass_inv rt T field_types df n (S n) N1 N2 a s s' HI Hr).
  - intros s s' HI Hr. eapply no_text_by_salary; [exact HI| |exact Hr]. left. now split.
  - intros a s s' HI HQ Hr. eapply no_text_by_salary; [exact HI| |exact Hr]. now right.
  - now left.
Qed.

(** X10. After a run of [clean_dataframe] that returns, a column that the
    type map types holds, cell by cell, what the cleaning method of its type
    returns for the input cell at the same position (the input cell itself
    for text and boolean), provided it is typed number or its name does not
    contain "salary": no cell is dropped, moved or affected by another. *)
Theorem X10_columns_cleaned_cellwise :
  forall rt df field_types w T dc orig lg w' col ft cells,
  frame_at w df = Some T ->
  clean_dataframe rt df field_types w = Ok ((dc, orig, lg), w') ->
  dict_get field_types col = Some ft ->
  get_column T col = Some cells ->
  ft = number \/ contains (u "salary") (lower col) = false ->
  exists Tc out,
    frame_at w' dc = Some Tc /\ get_column Tc col = Some out /\
    Forall2 (cell_cleaned rt ft col) cells out.
Proof.
  intros rt df field_types w T dc orig lg w' col ft cells HT H Hty Hcells Hk.
  exact (@column_cleaned rt df field_types w T dc orig lg w' col ft cells
           HT H Hty Hcells Hk).
Qed.

Lemma X10_columns_cleaned_cellwise_witness :
  exists dc orig lg w' Tc out,
    clean_dataframe rt0 0 [(u "email", email); (u "name", text)] (start sample_data)
      = Ok ((dc, orig, lg), w') /\
    frame_at w' dc = Some Tc /\ get_column Tc (u "email") = Some out /\
    Forall2 (cell_cleaned rt0 email (u "email"))
            (map (fun a => CStr (u a))
                 ["zhang#example.com"; "lisi@example"; "wang@test.com";
                  "zhao@company.cn"; "qian@tech.io"]%string) out.
Proof.
  destruct (clean_dataframe rt0 0 [(u "email", email); (u "name", text)] (start sample_data))
    as [[[[dc orig] lg] w']|e] eqn:E; [|vm_compute in E; discriminate].
  destruct (@X10_columns_cleaned_cellwise rt0 0%nat [(u "email", email); (u "name", text)]
              (start sample_data) sample_data dc orig lg w' (u "email") email _
              eq_refl E eq_refl eq_refl (or_intror eq_refl)) as (Tc & out & H1 & H2 & H3).
  exists dc, orig, lg, w', Tc, out. repeat split; assumption.
Defined.

(** X12. After a run of [clean_dataframe] that returns, a column of the
    input whose lowercased name contains "salary", or that is typed number,
    holds no string: each of its cells is null or a number. *)
Theorem X12_numeric_columns_hold_no_text :
  forall rt df field_types w T dc orig lg w' col,
  frame_at w df = Some T ->
  clean_dataframe rt df field_types w = Ok ((dc, orig, lg), w') ->
  In col (columns T) ->
  contains (u "salary") (lower col) = true \/ dict_get field_types col = Some number ->
  exists Tc out,
    frame_at w' dc = Some Tc /\ get_column Tc col = Some out /\ Forall no_text out.
Proof.
  intros rt df field_types w T dc orig lg w' col HT H Hin [Hs|Hn].
  - exact (@salary_column_no_text rt df field_types w T dc orig lg w' col HT H Hin Hs).
  - destruct (in_get_column T col Hin) as (cells & Hcells).
    destruct (@column_cleaned rt df field_types w T dc orig lg w' col number cells
                HT H Hn Hcells (or_introl eq_refl)) as (Tc & out & H1 & H2 & H3).
    exists Tc, out. repeat split; try assumption.
    eapply Forall_impl; [|exact (cleaned_number_kind H3)].
    exact float_or_null_no_text.
Qed.

Lemma X12_numeric_columns_hold_no_text_witness :
  exists dc orig lg w' Tc out,
    clean_dataframe rt0 0 [] (start [(u "Salary (USD)", [CStr (u "abc"); CStr (u "12")])])
      = Ok ((dc, orig, lg), w') /\
    frame_at w' dc = Some Tc /\ get_column Tc (u "Salary (USD)") = Some out /\
    Forall no_text out.
Proof.
  destruct (clean_dataframe rt0 0 []
              (start [(u "Salary (USD)", [CStr (u "abc"); CStr (u "12")])]))
    as [[[[dc orig] lg] w']|e] eqn:E; [|vm_compute in E; discriminate].
  destruct (@X12_numeric_columns_hold_no_text rt0 0%nat []
              (start [(u "Salary (USD)", [CStr (u "abc"); CStr (u "12")])])
              [(u "Salary (USD)", [CStr (u "abc"); CStr (u "12")])]
              dc orig lg w' (u "Salary (USD)") eq_refl E (or_introl eq_refl)
              (or_introl eq_refl)) as (Tc & out & H1 & H2 & H3).
  exists dc, orig, lg, w', Tc, out. repeat split; assumption.
Defined.

(* ================================================================== *)
(** * clean_dataframe: what the log quotes *)
(* ================================================================== *)

Section LogFacts.

Lemma clean_email_entries : forall rt v i col lg c lg',
  clean_email rt v i col lg = Ok (c, lg') ->
  exists es, lg' = lg ++ es /\
    Forall (fun e => raw e = v /\ column e = col /\ issue e = invalid_email) es.
Proof.
  intros rt v i col lg c lg' H. destruct (pd_isna v) eqn:Hna.
  - unfold clean_email in H. rewrite Hna in H. inversion H; subst.
    exists []. now rewrite app_nil_r.
  - destruct (clean_email_cases rt v i col lg Hna) as [E|E]; rewrite E in H;
      inversion H; subst.
    + exists []. now rewrite app_nil_r.
    + eexists. split; [reflexivity|]. now repeat constructor.
Qed.

Lemma clean_date_entries : forall rt v i col lg c lg',
  clean_date rt v i col lg = Ok (c, lg') ->
  exists es, lg' = lg ++ es /\
    Forall (fun e => raw e = v /\ column e = col /\
                     (issue e = ambiguous_date \/ issue e = invalid_format)) es.
Proof.
  intros rt v i col lg c lg' H. unfold clean_date in H.
  assert (Z : exists es, lg = lg ++ es /\
            Forall (fun e => raw e = v /\ column e = col /\
                     (issue e = ambiguous_date \/ issue e = invalid_format)) es)
    by (exists []; now rewrite app_nil_r).
  destruct (pd_isna v); [inversion H; subst; exact Z|].
  destruct (str_eqb _ (u "yesterday")); [inversion H; subst; exact Z|].
  destruct (str_eqb _ (u "today")); [inversion H; subst; exact Z|].
  destruct (groups3 (re_match re_ymd _)) as [[[y m] d]|];
    [inversion H; subst; exact Z|].
  destruct (groups3 (re_match re_dmy _)) as [[[p1 p2] year]|].
  - destruct ((int_of_digits p1 <=? 12)%N && (int_of_digits p2 <=? 12)%N).
    + inversion H; subst. eexists. split; [reflexivity|].
      constructor; [|constructor]. simpl. auto.
    + inversion H; subst. exact Z.
  - destruct (groups3 (re_match re_dot _)) as [[[y m] d]|].
    + inversion H; subst. exact Z.
    + inversion H; subst. eexists. split; [reflexivity|].
      constructor; [|constructor]. simpl. auto.
Qed.

Variable rt : runtime.
Variable T : table.
Variable field_types : field_map.
Variables df dc orig : nat.

(** One step of the first loop adds entries that quote the column it cleans. *)
Lemma clean_column_log : forall a w w',
  Inv T field_types df dc orig w ->
  Forall (entry_ok T field_types) (cleaning_log w) ->
  clean_column rt df dc field_types a w = Ok (tt, w') ->
  Forall (entry_ok T field_types) (cleaning_log w').
Proof.
  intros a w w' (Hdf & _ & (Tc & Hc & _) & _) HL H.
  unfold clean_column in H.
  destruct (dict_get field_types a) as [ft|] eqn:E; [|now inversion H; subst].
  destruct ft; try (now inversion H; subst).
  - inv_bind_as H cells w1 H1. apply getcol_ok in H1 as (-> & t & Ht & Hg).
    inv_bind_as H out w2 H2. apply on_log_ok in H2 as (lg' & Hm & ->).
    apply setcol_ok in H as (t' & _ & ->). cbn [cleaning_log].
    apply (mapM_inv (Forall (entry_ok T field_types))) in Hm; try assumption.
    intros iv lg1 c lg2 H1 H2. apply clean_numeric_log in H2. now subst.
  - inv_bind_as H cells w1 H1. apply getcol_ok in H1 as (-> & t & Ht & Hg).
    rewrite Hdf in Ht. inversion Ht; subst t.
    inv_bind_as H out w2 H2. apply on_log_ok in H2 as (lg' & Hm & ->).
    apply setcol_ok in H as (t' & _ & ->). cbn [cleaning_log].
    apply (mapM_inv_in (Forall (entry_ok T field_types))) in Hm; try assumption.
    intros v lg1 c lg2 Hin H1 H2. apply clean_date_entries in H2 as (es & -> & Hes).
    apply Forall_app. split; [assumption|].
    eapply Forall_impl; [|exact Hes]. intros e (Hr & Hcol & Hi).
    exists cells. rewrite Hr, Hcol. repeat split; auto.
  - inv_bind_as H cells w1 H1. apply getcol_ok in H1 as (-> & t & Ht & Hg).
    rewrite Hdf in Ht. inversion Ht; subst t.
    inv_bind_as H out w2 H2. apply on_log_ok in H2 as (lg' & Hm & ->).
    apply setcol_ok in H as (t' & _ & ->). cbn [cleaning_log].
    apply (mapM_inv_in (Forall (entry_ok T field_types))) in Hm; try assumption.
    intros v lg1 c lg2 Hin H1 H2. apply clean_email_entries in H2 as (es & -> & Hes).
    apply Forall_app. split; [assumption|].
    eapply Forall_impl; [|exact Hes]. intros e (Hr & Hcol & Hi).
    exists cells. rewrite Hr, Hcol. repeat split; auto.
Qed.

End LogFacts.

(** X11. Every entry of a log that [clean_dataframe] returns quotes,
    verbatim, a cell of the column of the input that it names; that column
    is typed email or date in the type map, and the issue is invalid_email
    for the former, ambiguous_date or invalid_format for the latter. *)
Theorem X11_log_quotes_input_cells : forall rt df field_types w T dc orig lg w',
  frame_at w df = Some T ->
  clean_dataframe rt df field_types w = Ok ((dc, orig, lg), w') ->
  Forall (entry_ok T field_types) lg.
Proof.
  intros rt df field_types w T dc orig lg w' HT H.
  destruct (@clean_dataframe_loops rt df field_types w T dc orig lg w' HT H)
    as (w4 & tc & -> & -> & L1 & Htc & L2 & ->).
  assert (N1 : df <> length (frames w)).
  { intro E. unfold frame_at in HT.
    assert (df < length (frames w))%nat by (apply nth_error_Some; congruence). lia. }
  apply (@loops_keep rt T field_types df (length (frames w))
           (fun s => Forall (entry_ok T field_types) (cleaning_log s))
           (columns T) (columns tc) (World ((frames w ++ [T]) ++ [T]) []) w4 w' N1).
  - now apply inv_start.
  - constructor.
  - intros a s s' HI HQ Hr. eapply clean_column_log; eassumption.
  - intros a s s' HI HQ Hr.
    assert (N2 : S (length (frames w)) <> length (frames w)) by lia.
    destruct (@salary_pass_sets rt T field_types df _ _ a s s' HI Hr) as (-> & _).
    exact HQ.
  - exact L1.
  - exact L2.
Qed.

Lemma X11_log_quotes_input_cells_witness :
  exists dc orig lg w',
    clean_dataframe rt0 0 [(u "email", email); (u "date", date)] (start sample_data)
      = Ok ((dc, orig, lg), w') /\
    length lg = 3%nat /\
    Forall (entry_ok sample_data [(u "email", email); (u "date", date)]) lg.
Proof.
  destruct (clean_dataframe rt0 0 [(u "email", email); (u "date", date)] (start sample_data))
    as [[[[dc orig] lg] w']|e] eqn:E; [|vm_compute in E; discriminate].
  pose proof (@X11_log_quotes_input_cells rt0 0%nat [(u "email", email); (u "date", date)]
                (start sample_data) sample_data dc orig lg w' eq_refl E) as F.
  exists dc, orig, lg, w'. split; [reflexivity|]. split; [|exact F].
  vm_compute in E. inversion E. reflexivity.
Defined.

(* ================================================================== *)
(** * main: the figures of the stats bar and of the anomaly panel *)
(* ================================================================== *)

Section Figures.

Lemma issue_eqb_eq : forall a b, issue_eqb a b = true <-> a = b.
Proof. intros [] []; simpl; split; intro H; try reflexivity; discriminate. Qed.

Lemma issue_eqb_refl : forall a, issue_eqb a a = true.
Proof. now intros []. Qed.

Lemma counts_get_set : forall d k v k',
  counts_get (counts_set d k v) k' = if issue_eqb k k' then v else counts_get d k'.
Proof.
  induction d as [|[k0 v0] d IH]; intros k v k'; simpl.
  - reflexivity.
  - destruct (issue_eqb k0 k) eqn:E; simpl.
    + apply issue_eqb_eq in E. subst k0. now destruct (issue_eqb k k').
    + destruct (issue_eqb k0 k') eqn:E'; [|apply IH].
      destruct (issue_eqb k k') eqn:E''; [|reflexivity].
      apply issue_eqb_eq in E', E''. subst. now rewrite issue_eqb_refl in E.
Qed.

Lemma counts_set_total : forall d k,
  fold_right Nat.add 0%nat (map snd (counts_set d k (counts_get d k + 1)))
    = S (fold_right Nat.add 0%nat (map snd d)).
Proof.
  induction d as [|[k0 v0] d IH]; intro k; simpl.
  - reflexivity.
  - destruct (issue_eqb k0 k); simpl; [lia|]. rewrite IH. lia.
Qed.

Lemma counts_set_keys : forall d k v,
  NoDup (map fst d) -> NoDup (map fst (counts_set d k v)) /\
  forall x, In x (map fst (counts_set d k v)) -> x = k \/ In x (map fst d).
Proof.
  induction d as [|[k0 v0] d IH]; intros k v H; simpl.
  - split; [repeat constructor; auto|]. intros x [->|[]]. now left.
  - inversion H as [|? ? Hn Hd]; subst.
    destruct (issue_eqb k0 k) eqn:E; simpl.
    + split; [now constructor|]. intros x Hx. now right.
    + destruct (IH k v Hd) as [N I]. split.
      * constructor; [|exact N]. intro Hin. apply I in Hin as [->|Hin]; [|contradiction].
        now rewrite issue_eqb_refl in E.
      * intros x [->|Hx]; [right; now left|].
        apply I in Hx as [->|Hx]; [now left|right; now right].
Qed.

(** The loop over the log, from any dict it is started with. *)
Lemma issue_counts_from : forall logs d,
  NoDup (map fst d) ->
  let r := fold_left (fun d log => counts_set d (issue log) (counts_get d (issue log) + 1)%nat)
                     logs d in
  (forall k, counts_get r k
             = (counts_get d k + length (filter (fun e => issue_eqb (issue e) k) logs))%nat) /\
  fold_right Nat.add 0%nat (map snd r)
    = (fold_right Nat.add 0%nat (map snd d) + length logs)%nat /\
  NoDup (map fst r).
Proof.
  induction logs as [|e logs IH]; intros d Hd; cbn [fold_left].
  - cbv zeta. repeat split; [intro k; cbn; lia|cbn; lia|exact Hd].
  - destruct (counts_set_keys d (issue e) (counts_get d (issue e) + 1) Hd) as [Hn _].
    destruct (IH _ Hn) as (G & S1 & N). cbv zeta in *. repeat split.
    + intro k. rewrite G, counts_get_set. cbn [filter].
      destruct (issue_eqb (issue e) k) eqn:E; cbn [length]; [|lia].
      apply issue_eqb_eq in E. subst k. lia.
    + rewrite S1, counts_set_total. cbn [length]. lia.
    + exact N.
Qed.

End Figures.

(** X13. The issue statistics of the anomaly panel add up: for every issue
    the dict [issue_counts] holds the number of entries of the log with
    that issue (0 when it has none), the counts sum to the length of the
    log, and no issue is listed twice. *)
Theorem X13_issue_counts_add_up : forall logs,
  (forall k, counts_get (issue_counts logs) k
             = length (filter (fun e => issue_eqb (issue e) k) logs)) /\
  fold_right Nat.add 0%nat (map snd (issue_counts logs)) = length logs /\
  NoDup (map fst (issue_counts logs)).
Proof.
  intro logs. destruct (issue_counts_from logs [] (NoDup_nil _)) as (G & S1 & N).
  cbv zeta in *. fold (issue_counts logs) in G, S1, N.
  repeat split; [intro k; now rewrite G|exact S1|exact N].
Qed.

(** X14. The clean rate of the stats bar is a percentage whenever it is
    computed: a number between 0 and 100.  It cannot be computed, the
    division raising [ZeroDivisionError], exactly when the log is not empty
    while the table has no row or the type map no entry. *)
Theorem X14_clean_rate_is_a_percentage : forall issues rows fields,
  (clean_rate issues rows fields = None <->
   issues <> 0%nat /\ (rows * fields)%nat = 0%nat) /\
  (forall r, clean_rate issues rows fields = Some r -> (0 <= r /\ r <= 100)%Q).
Proof.
  intros issues rows fields. unfold clean_rate.
  destruct (Nat.eqb_spec issues 0) as [->|Hi].
  - split; [split; [discriminate|intros [H _]; congruence]|].
    intros r H. inversion H; subst. split; lra.
  - destruct (Nat.eqb_spec (rows * fields) 0) as [E|E].
    + split; [split; [now split|reflexivity]|]. intros r H. discriminate.
    + split; [split; [discriminate|intros [_ H]; congruence]|].
      intros r H. inversion H; subst; clear H.
      set (x := (inject_Z (Z.of_nat issues) / inject_Z (Z.of_nat (rows * fields)))%Q).
      assert (Hx : (0 <= x)%Q).
      { unfold x. apply Qle_shift_div_l.
        - change 0%Q with (inject_Z 0). rewrite <- Zlt_Qlt. lia.
        - rewrite Qmult_0_l. change 0%Q with (inject_Z 0). rewrite <- Zle_Qle. lia. }
      unfold max0, Qlt_bool.
      destruct (Qle_bool (100 - x * 100) 0) eqn:B; simpl.
      * split; lra.
      * assert (~ (100 - x * 100 <= 0)%Q) by (rewrite <- Qle_bool_iff; congruence).
        split; lra.
Qed.
